(** * Job-data pipeline: cleaning, validation, deduplication, annotation

    A shallow embedding of [processing/data_cleaner.py] (class
    [DataCleaner]) and [processing/data_annotator.py] (class
    [DataAnnotator]), with the properties their specification states.

    Conventions of the embedding.
    - Python [str] values are [string]s; one [ascii] is one character.  The
      character classes of [re] ([\w], [\s], [\d]) and the case mappings of
      [str.lower] / [str.title] are the ones Python has on the ASCII
      repertoire; code points above 127 are outside the modelled repertoire
      and are treated as caseless symbols.
    - Dynamically typed arguments are values of [pyval]; an operation that
      Python rejects at run time yields [Raise].
    - A Python [dict] with string keys is a [gmap string pyval], a [set] of
      strings is a [gset string].
    - [html.unescape] belongs to Python's library, not to the repository:
      the cleaner is developed in a section over an arbitrary decoder that
      returns on every text, and the only law assumed of it is the first
      line of the library function ([if '&' not in s: return s]).
    - [int] converts at most [int_max_str_digits] decimal digits and
      raises [ValueError] beyond, as CPython does from version 3.11. *)

From Stdlib Require Import Ascii NArith QArith Qminmax.
From stdpp Require Import gmap strings list.

Local Open Scope N_scope.

(** ** Characters *)

Module Char.

Definition code (c : ascii) : N := N_of_ascii c.

Definition between (lo hi : N) (c : ascii) : bool :=
  (lo <=? code c) && (code c <=? hi).

Definition is_digit (c : ascii) : bool := between 48 57 c.
Definition is_upper (c : ascii) : bool := between 65 90 c.
Definition is_lower (c : ascii) : bool := between 97 122 c.
Definition is_alpha (c : ascii) : bool := is_upper c || is_lower c.

(** [\w]: letters, digits and the underscore. *)
Definition is_word (c : ascii) : bool :=
  is_alpha c || is_digit c || (code c =? 95).

(** [\s] and [str.isspace]: tab, newline, vertical tab, form feed,
    carriage return, the four separators 0x1c-0x1f, and the space. *)
Definition is_space (c : ascii) : bool :=
  between 9 13 c || between 28 31 c || (code c =? 32).

Definition to_lower (c : ascii) : ascii :=
  if is_upper c then ascii_of_N (code c + 32) else c.
Definition to_upper (c : ascii) : ascii :=
  if is_lower c then ascii_of_N (code c - 32) else c.

Definition eqb (a b : ascii) : bool := code a =? code b.

End Char.

(** ** Strings: the [str] methods and operators the program uses *)

Module Str.

Fixpoint map (f : ascii -> ascii) (s : string) : string :=
  match s with
  | EmptyString => EmptyString
  | String c s' => String (f c) (map f s')
  end.

Fixpoint all (p : ascii -> bool) (s : string) : bool :=
  match s with
  | EmptyString => true
  | String c s' => p c && all p s'
  end.

Fixpoint keep (p : ascii -> bool) (s : string) : string :=
  match s with
  | EmptyString => EmptyString
  | String c s' => if p c then String c (keep p s') else keep p s'
  end.

Definition is_empty (s : string) : bool :=
  match s with EmptyString => true | _ => false end.

(** [s.lower()] *)
Definition lower (s : string) : string := map Char.to_lower s.

(** [s.title()]: a cased character is upper-cased when the character
    before it is not cased, lower-cased otherwise. *)
Fixpoint title_from (prev_cased : bool) (s : string) : string :=
  match s with
  | EmptyString => EmptyString
  | String c s' =>
      if Char.is_alpha c
      then String (if prev_cased then Char.to_lower c else Char.to_upper c)
                  (title_from true s')
      else String c (title_from false s')
  end.
Definition title (s : string) : string := title_from false s.

(** [s.lstrip()], [s.rstrip()], [s.strip()] *)
Fixpoint lstrip (s : string) : string :=
  match s with
  | EmptyString => EmptyString
  | String c s' => if Char.is_space c then lstrip s' else s
  end.
Fixpoint rstrip (s : string) : string :=
  match s with
  | EmptyString => EmptyString
  | String c s' =>
      let r := rstrip s' in
      if Char.is_space c && is_empty r then EmptyString else String c r
  end.
Definition strip (s : string) : string := rstrip (lstrip s).

(** [s.startswith(p)] *)
Fixpoint starts_with (p s : string) : bool :=
  match p, s with
  | EmptyString, _ => true
  | String a p', String b s' => Char.eqb a b && starts_with p' s'
  | String _ _, EmptyString => false
  end.

(** [p in s] *)
Fixpoint contains (p s : string) : bool :=
  starts_with p s ||
  match s with
  | EmptyString => false
  | String _ s' => contains p s'
  end.

(** [any(w in s for w in ws)] *)
Definition contains_any (ws : list string) (s : string) : bool :=
  existsb (fun w => contains w s) ws.

(** A string starts (ends) clean when its first (last) character, if it
    has one, is not white space. *)
Definition starts_clean (s : string) : bool :=
  match s with
  | EmptyString => true
  | String c _ => negb (Char.is_space c)
  end.
Fixpoint ends_clean (s : string) : bool :=
  match s with
  | EmptyString => true
  | String c EmptyString => negb (Char.is_space c)
  | String _ s' => ends_clean s'
  end.

(** Every run of white space replaced by one space character. *)
Fixpoint squeeze_from (prev_space : bool) (s : string) : string :=
  match s with
  | EmptyString => EmptyString
  | String c s' =>
      if Char.is_space c
      then if prev_space then squeeze_from true s'
           else String " " (squeeze_from true s')
      else String c (squeeze_from false s')
  end.
Definition squeeze (s : string) : string := squeeze_from false s.

End Str.

(** ** Python values and run-time errors *)

#[warnings="-register-all"]
Inductive pyval : Type :=
  | PNone
  | PBool (b : bool)
  | PInt (z : Z)
  | PStr (s : string)
  | PList (l : list pyval).

(** Truth value of an object, as tested by [if not text]. *)
Definition truthy (v : pyval) : bool :=
  match v with
  | PNone => false
  | PBool b => b
  | PInt z => negb (Z.eqb z 0)
  | PStr s => negb (Str.is_empty s)
  | PList l => match l with [] => false | _ => true end
  end.

(** [isinstance(v, str)] *)
Definition is_str (v : pyval) : bool :=
  match v with PStr _ => true | _ => false end.

Inductive exn : Type := AttributeError | TypeError | ValueError.

Inductive result (A : Type) : Type :=
  | Ok (a : A)
  | Raise (e : exn).
Arguments Ok {A} a.
Arguments Raise {A} e.

Definition bind {A B : Type} (r : result A) (k : A -> result B) : result B :=
  match r with
  | Ok a => k a
  | Raise e => Raise e
  end.

Notation "x <- r ;; k" := (bind r (fun x => k))
  (at level 100, r at next level, right associativity).

Definition map_ok {A B : Type} (f : A -> B) (r : result A) : result B :=
  x <- r ;; Ok (f x).

Fixpoint map_result {A B : Type} (f : A -> result B) (l : list A) : result (list B) :=
  match l with
  | [] => Ok []
  | a :: l' => b <- f a ;; bs <- map_result f l' ;; Ok (b :: bs)
  end.

(** Method calls on a dynamically typed receiver: only [str] has the
    method, anything else raises [AttributeError]. *)
Definition py_lower (v : pyval) : result string :=
  match v with PStr s => Ok (Str.lower s) | _ => Raise AttributeError end.
Definition py_strip (v : pyval) : result string :=
  match v with PStr s => Ok (Str.strip s) | _ => Raise AttributeError end.

(** [len(v)]: defined on strings and lists. *)
Definition py_len (v : pyval) : result nat :=
  match v with
  | PStr s => Ok (String.length s)
  | PList l => Ok (length l)
  | _ => Raise TypeError
  end.

(** ** Regular expressions

    The patterns of the program never match the empty string, so
    [re.sub] and [re.findall] are a left-to-right scan: at each position
    the pattern is tried; on a match of length [n > 0] the replacement (or
    the captured group) is produced and the scan resumes [n] characters
    further; otherwise the character is copied and the scan moves on by
    one.  A pattern is given by its matcher, which receives whether the
    previous character is a word character (for [\b]) and the remaining
    text, and returns the length of the match here. *)

Module Re.

Definition matcher (A : Type) : Type := bool -> string -> option (nat * A).

Fixpoint sub_scan {A} (m : matcher A) (repl : string) (skip : nat)
    (prev_word : bool) (s : string) : string :=
  match s with
  | EmptyString => EmptyString
  | String c s' =>
      match skip with
      | S k => sub_scan m repl k (Char.is_word c) s'
      | O =>
          match m prev_word s with
          | Some (S k, _) => repl +:+ sub_scan m repl k (Char.is_word c) s'
          | _ => String c (sub_scan m repl 0 (Char.is_word c) s')
          end
      end
  end.

(** [re.sub(pattern, repl, s)] *)
Definition sub {A} (m : matcher A) (repl s : string) : string :=
  sub_scan m repl 0 false s.

Fixpoint findall_scan {A} (m : matcher A) (skip : nat)
    (prev_word : bool) (s : string) : list A :=
  match s with
  | EmptyString => []
  | String c s' =>
      match skip with
      | S k => findall_scan m k (Char.is_word c) s'
      | O =>
          match m prev_word s with
          | Some (S k, a) => a :: findall_scan m k (Char.is_word c) s'
          | _ => findall_scan m 0 (Char.is_word c) s'
          end
      end
  end.

(** [re.findall(pattern, s)] for a pattern with one group. *)
Definition findall {A} (m : matcher A) (s : string) : list A :=
  findall_scan m 0 false s.

(** Length of the longest prefix whose characters satisfy [p]
    (a greedy [[...]*]). *)
Fixpoint run (p : ascii -> bool) (s : string) : nat :=
  match s with
  | EmptyString => 0%nat
  | String c s' => if p c then S (run p s') else 0%nat
  end.

Fixpoint drop (n : nat) (s : string) : string :=
  match n, s with
  | S k, String _ s' => drop k s'
  | _, _ => s
  end.

Fixpoint take (n : nat) (s : string) : string :=
  match n, s with
  | S k, String c s' => String c (take k s')
  | _, _ => EmptyString
  end.

(** [<[^>]+>]: an opening bracket, one or more characters other than the
    closing bracket (greedy: up to the next closing bracket), and the
    closing bracket. *)
Definition tag : matcher unit := fun _ s =>
  match s with
  | String c s' =>
      if Char.eqb c "<" then
        let n := run (fun x => negb (Char.eqb x ">")) s' in
        match n, drop n s' with
        | S _, String _ _ => Some (S (S n), ())
        | _, _ => None
        end
      else None
  | EmptyString => None
  end.

(** [\s+] *)
Definition spaces : matcher unit := fun _ s =>
  match run Char.is_space s with
  | O => None
  | n => Some (n, ())
  end.

(** The class [\w\s\.\,\!\?\-\(\)\/] of characters that are kept. *)
Definition allowed (c : ascii) : bool :=
  Char.is_word c || Char.is_space c ||
  existsb (Char.eqb c) ["."; ","; "!"; "?"; "-"; "("; ")"; "/"]%char.

(** [[^\w\s\.\,\!\?\-\(\)\/]] *)
Definition special : matcher unit := fun _ s =>
  match s with
  | String c _ => if allowed c then None else Some (1%nat, ())
  | EmptyString => None
  end.

Definition char_eq (ignore_case : bool) (a b : ascii) : bool :=
  if ignore_case then Char.eqb (Char.to_lower a) (Char.to_lower b)
  else Char.eqb a b.

Fixpoint literal (ignore_case : bool) (p s : string) : bool :=
  match p, s with
  | EmptyString, _ => true
  | String a p', String b s' => char_eq ignore_case a b && literal ignore_case p' s'
  | String _ _, EmptyString => false
  end.

(** [\b] after a word character: the next character, if any, is not a
    word character. *)
Definition word_ends (s : string) : bool :=
  match s with
  | EmptyString => true
  | String c _ => negb (Char.is_word c)
  end.

(** [\b(w1|w2|...)\b] followed, when [dot] is set, by [\.?].  The words
    start and end with word characters, so the first [\b] asks that the
    previous character is not a word character; the alternatives are
    tried in order, and one whose closing [\b] fails is abandoned for the
    next. *)
Fixpoint whole_word (ignore_case dot : bool) (ws : list string) : matcher unit :=
  fun prev_word s =>
    match ws with
    | [] => None
    | w :: ws' =>
        let n := String.length w in
        if negb prev_word && literal ignore_case w s && word_ends (drop n s)
        then Some (if dot && Str.starts_with "." (drop n s) then S n else n, ())
        else whole_word ignore_case dot ws' prev_word s
    end.

End Re.

(** ** Dictionaries *)

Abbreviation dict := (gmap string pyval).

(** [d.get(key, default)] *)
Definition get (d : dict) (key : string) (default : pyval) : pyval :=
  match d !! key with
  | Some v => v
  | None => default
  end.

(** ** A decoder to run the cleaner on

    [Html.unescape] decodes the character references that [html.escape]
    writes.  Python's [html.unescape] knows the whole HTML5 table; the
    theorems of the cleaner are stated for every decoder that leaves text
    without an ampersand unchanged, and this one serves to evaluate the
    cleaner on concrete text. *)

Module Html.

Definition entities : list (string * string) :=
  [ ("&amp;", "&"); ("&lt;", "<"); ("&gt;", ">");
    ("&quot;", String (ascii_of_N 34) EmptyString);
    ("&#x27;", "'"); ("&#39;", "'") ].

Fixpoint charref (table : list (string * string)) (s : string) : option (nat * string) :=
  match table with
  | [] => None
  | (name, value) :: table' =>
      if Str.starts_with name s then Some (String.length name, value)
      else charref table' s
  end.

Fixpoint unescape_scan (skip : nat) (s : string) : string :=
  match s with
  | EmptyString => EmptyString
  | String c s' =>
      match skip with
      | S k => unescape_scan k s'
      | O =>
          match charref entities s with
          | Some (S k, value) => value +:+ unescape_scan k s'
          | _ => String c (unescape_scan 0 s')
          end
      end
  end.

Definition unescape (s : string) : string :=
  if Str.contains "&" s then unescape_scan 0 s else s.

End Html.

(** ** The cleaner ([DataCleaner]) *)

Section Cleaner.

(** [html.unescape] *)
Variable html_unescape : string -> string.

(** [DataCleaner.clean_text] *)
Definition clean_text (text : pyval) : string :=
  if negb (truthy text) || negb (is_str text) then ""
  else
    match text with
    | PStr text =>
        let text := html_unescape text in
        let text := Re.sub Re.tag " " text in
        let text := Re.sub Re.spaces " " text in
        let text := Re.sub Re.special "" text in
        let text := Str.strip text in
        text
    | _ => ""
    end.

Definition company_suffixes : list string :=
  ["Inc"; "Ltd"; "LLC"; "Corp"; "Corporation"; "Company"; "Co"].

(** [DataCleaner.normalize_company_name] *)
Definition normalize_company_name (company : pyval) : string :=
  if negb (truthy company) || negb (is_str company) then "Unknown Company"
  else
    let company := clean_text company in
    let company := Re.sub (Re.whole_word true true company_suffixes) "" company in
    let company := Str.strip (Str.title company) in
    if Str.is_empty company then "Unknown Company" else company.

(** [DataCleaner.normalize_job_title] *)
Definition normalize_job_title (title : pyval) : string :=
  if negb (truthy title) || negb (is_str title) then "Unknown Position"
  else
    let title := clean_text title in
    let title := Str.title title in
    let title := Re.sub (Re.whole_word false false ["Sr"]) "Senior" title in
    let title := Re.sub (Re.whole_word false false ["Jr"]) "Junior" title in
    let title := Re.sub (Re.whole_word false false ["Mgr"]) "Manager" title in
    if Str.is_empty (Str.strip title) then "Unknown Position" else Str.strip title.

(** The key of [remove_duplicates]:
    [f"{item.get('title', '').lower().strip()}_{item.get('company', '').lower().strip()}"] *)
Definition dedup_key (item : dict) : result string :=
  t <- py_lower (get item "title" (PStr "")) ;;
  c <- py_lower (get item "company" (PStr "")) ;;
  Ok (Str.strip t +:+ "_" +:+ Str.strip c).

(** The loop of [remove_duplicates], from the state [(seen, unique_data)]. *)
Fixpoint remove_duplicates_loop (data : list dict) (seen : gset string)
    (unique_data : list dict) : result (list dict) :=
  match data with
  | [] => Ok unique_data
  | item :: data' =>
      key <- dedup_key item ;;
      if decide (key ∈ seen)
      then remove_duplicates_loop data' seen unique_data
      else remove_duplicates_loop data' (seen ∪ {[key]}) (unique_data ++ [item])
  end.

(** [DataCleaner.remove_duplicates] *)
Definition remove_duplicates (data : list dict) : result (list dict) :=
  remove_duplicates_loop data ∅ [].

(** [DataCleaner.validate_entry] *)
Definition validate_entry (entry : dict) : result bool :=
  title <- py_strip (get entry "title" (PStr "")) ;;
  company <- py_strip (get entry "company" (PStr "")) ;;
  description <- py_strip (get entry "description" (PStr "")) ;;
  if Str.is_empty title then Ok false
  else if (String.length description <? 10)%nat then Ok false
  else Ok true.

(** The dictionary built for one raw entry in [clean_data]. *)
Definition clean_entry (entry : dict) : result dict :=
  source <- py_strip (get entry "source" (PStr "Unknown")) ;;
  let title := normalize_job_title (get entry "title" (PStr "")) in
  let company := normalize_company_name (get entry "company" (PStr "")) in
  let description := clean_text (get entry "description" (PStr "")) in
  type <- py_strip (get entry "type" (PStr "job")) ;;
  let score :=
    match entry !! "score" with
    | Some PNone | None => PInt 0
    | Some v => v
    end in
  Ok (<["source" := PStr source]>
      (<["title" := PStr title]>
      (<["company" := PStr company]>
      (<["description" := PStr description]>
      (<["type" := PStr type]>
      (<["score" := score]> ∅)))))).

(** The first loop of [clean_data]: clean each entry and append the valid
    ones to [self.cleaned_data]. *)
Fixpoint clean_loop (raw_data : list dict) (cleaned_data : list dict)
    : result (list dict) :=
  match raw_data with
  | [] => Ok cleaned_data
  | entry :: raw_data' =>
      cleaned_entry <- clean_entry entry ;;
      valid <- validate_entry cleaned_entry ;;
      clean_loop raw_data'
        (if valid then cleaned_data ++ [cleaned_entry] else cleaned_data)
  end.

(** [DataCleaner.clean_data], between reading [raw_data] from the input
    file and writing [self.cleaned_data] to the output file: the result is
    the new value of [self.cleaned_data] (the method returns its length);
    an exception of the loop or of the deduplication is re-raised by the
    handler.  The file operations, and what they raise, are not part of
    the model, and the decoder is taken to return on every text. *)
Definition clean_data (cleaned_data raw_data : list dict) : result (list dict) :=
  cleaned_data <- clean_loop raw_data cleaned_data ;;
  remove_duplicates cleaned_data.

End Cleaner.

(** ** The annotator ([DataAnnotator]) *)

(** The keyword tables of [__init__]; a Python [dict] is iterated in
    insertion order, so each table is the list of its items. *)
Definition skill_keywords : list (string * list string) :=
  [ ("Python", ["python"; "django"; "flask"; "fastapi"; "pandas"; "numpy"]);
    ("JavaScript", ["javascript"; "js"; "node"; "react"; "vue"; "angular"; "express"]);
    ("Java", ["java"; "spring"; "hibernate"; "maven"; "gradle"]);
    ("DevOps", ["docker"; "kubernetes"; "aws"; "azure"; "gcp"; "terraform"; "jenkins"]);
    ("Database", ["sql"; "mysql"; "postgresql"; "mongodb"; "redis"; "elasticsearch"]);
    ("Machine Learning", ["ml"; "ai"; "tensorflow"; "pytorch"; "sklearn"; "data science"]);
    ("Cloud", ["aws"; "azure"; "gcp"; "cloud"; "serverless"; "lambda"]);
    ("Frontend", ["html"; "css"; "react"; "vue"; "angular"; "typescript"]);
    ("Backend", ["api"; "rest"; "graphql"; "microservices"; "database"]);
    ("Mobile", ["ios"; "android"; "react native"; "flutter"; "swift"; "kotlin"]) ].

Definition experience_keywords : list (string * list string) :=
  [ ("Entry Level", ["entry"; "junior"; "graduate"; "intern"; "0-2 years"; "beginner"; "new grad"]);
    ("Mid Level", ["mid"; "intermediate"; "2-5 years"; "3-5 years"; "experienced"]);
    ("Senior Level", ["senior"; "sr"; "lead"; "5+ years"; "6+ years"; "expert"; "principal"]);
    ("Management", ["manager"; "mgr"; "director"; "vp"; "head of"; "team lead"; "tech lead"]) ].

Definition content_types : list (string * list string) :=
  [ ("Job Description", ["hiring"; "position"; "role"; "opportunity"; "apply"; "requirements"]);
    ("Interview Question", ["interview"; "question"; "how to"; "explain"; "what is"; "why"]);
    ("Career Advice", ["career"; "advice"; "tips"; "how to become"; "path"; "guidance"]);
    ("Technical Discussion", ["discussion"; "best practices"; "comparison"; "vs"; "opinion"]);
    ("Company Info", ["company"; "culture"; "benefits"; "team"; "about us"; "mission"]) ].

(** The inner loop [for keyword in keywords: if keyword in text: ...]:
    does the body run for some keyword? *)
Fixpoint any_keyword (keywords : list string) (text : string) : bool :=
  match keywords with
  | [] => false
  | keyword :: keywords' =>
      if Str.contains keyword text then true else any_keyword keywords' text
  end.

(** The nested loops that return the category of the first keyword found:
    [for category, keywords in table.items(): for keyword in keywords:
     if keyword in text: return category]; [None] when both loops end. *)
Fixpoint first_category (table : list (string * list string)) (text : string)
    : option string :=
  match table with
  | [] => None
  | (category, keywords) :: table' =>
      if any_keyword keywords text then Some category
      else first_category table' text
  end.

(** The loops of [extract_skills]: every category with a keyword in the
    text is appended once. *)
Fixpoint found_skills (table : list (string * list string)) (text : string)
    : list string :=
  match table with
  | [] => []
  | (skill, keywords) :: table' =>
      if any_keyword keywords text then skill :: found_skills table' text
      else found_skills table' text
  end.

(** [DataAnnotator.extract_skills].  The method returns
    [list(set(found_skills))], a list without duplicates in an order Python
    does not fix: the result is the set. *)
Definition extract_skills (text : pyval) : result (gset string) :=
  if negb (truthy text) then Ok ∅
  else
    text_lower <- py_lower text ;;
    Ok (list_to_set (found_skills skill_keywords text_lower)).

(** The number that a string of decimal digits denotes, read from the
    left. *)
Fixpoint digits_value_from (acc : N) (digits : string) : N :=
  match digits with
  | EmptyString => acc
  | String c digits' => digits_value_from (10 * acc + (Char.code c - 48)) digits'
  end.
Definition digits_value (digits : string) : N := digits_value_from 0 digits.

(** [sys.int_max_str_digits], at the interpreter's default: the longest
    decimal string that [int] converts (CPython 3.11 and later). *)
Definition int_max_str_digits : nat := 4300.

(** [int(match)] for a string of decimal digits: [ValueError] when the
    string has more digits than the interpreter converts. *)
Definition int_of_digits (digits : string) : result N :=
  if (int_max_str_digits <? String.length digits)%nat then Raise ValueError
  else Ok (digits_value digits).

(** The class [[\+\-\s]]. *)
Definition year_sep (c : ascii) : bool :=
  Char.eqb c "+" || Char.eqb c "-" || Char.is_space c.

(** [(\d+)[\+\-\s]*years?]: a greedy run of digits (the group), a greedy run
    of plus signs, hyphens and white space ([year_sep]), the letters [year],
    and an [s] when there is one.  No shorter run can succeed where the greedy one
    fails, as the character after a shorter run is a digit or a separator. *)
Definition year_pattern : Re.matcher string := fun _ s =>
  let nd := Re.run Char.is_digit s in
  let after_digits := Re.drop nd s in
  let ns := Re.run year_sep after_digits in
  let after_sep := Re.drop ns after_digits in
  match nd with
  | O => None
  | S _ =>
      if Str.starts_with "year" after_sep
      then Some ((nd + ns + 4 + (if Str.starts_with "s" (Re.drop 4 after_sep) then 1 else 0))%nat,
                 Re.take nd s)
      else None
  end.

(** [max(l)] for a list of numbers ([0] stands for the empty list, on which
    the program never calls it). *)
Definition max_list (l : list N) : N := foldr N.max 0 l.

(** The part of [classify_experience_level] after the keyword loops; the
    list comprehension converts the matches from left to right. *)
Definition level_of_years (text_lower : string) : result string :=
  let matches := Re.findall year_pattern text_lower in
  match matches with
  | _ :: _ =>
      numbers <- map_result int_of_digits matches ;;
      let years := max_list numbers in
      Ok (if years <=? 2 then "Entry Level"
          else if years <=? 5 then "Mid Level"
          else "Senior Level")
  | [] => Ok "Not Specified"
  end.

(** [DataAnnotator.classify_experience_level] *)
Definition classify_experience_level (text : pyval) : result string :=
  if negb (truthy text) then Ok "Not Specified"
  else
    text_lower <- py_lower text ;;
    match first_category experience_keywords text_lower with
    | Some level => Ok level
    | None => level_of_years text_lower
    end.

(** [DataAnnotator.classify_content_type], on three strings. *)
Definition classify_content_type (title description source : string) : string :=
  let combined_text := Str.lower (title +:+ " " +:+ description) in
  if String.eqb source "StackOverflow" then "Interview Question"
  else if String.eqb source "Reddit" && Str.contains_any ["advice"; "help"; "career"] combined_text
  then "Career Advice"
  else
    match first_category content_types combined_text with
    | Some content_type => content_type
    | None =>
        if Str.contains_any ["apply"; "position"; "hiring"] combined_text then "Job Description"
        else if Str.contains "?" title then "Interview Question"
        else "Technical Discussion"
    end.

Definition tech_keywords : list string :=
  [ "software"; "developer"; "engineer"; "programming"; "code"; "development";
    "python"; "java"; "javascript"; "react"; "node"; "api"; "database";
    "cloud"; "aws"; "docker"; "git"; "algorithm"; "data structure" ].

(** [sum(1 for keyword in tech_keywords if keyword in text_lower)] *)
Definition found_keywords (text_lower : string) : nat :=
  length (filter (fun keyword => Str.contains keyword text_lower = true) tech_keywords).

(** The arithmetic of [calculate_relevance_score], in exact rationals:
    [min(min(found / 10, 1.0) + min(len / 1000, 0.2), 1.0)]. *)
Definition relevance (found len : nat) : Q :=
  let base_score := Qmin (inject_Z (Z.of_nat found) / 10) 1 in
  let length_bonus := Qmin (inject_Z (Z.of_nat len) / 1000) (2 / 10) in
  Qmin (base_score + length_bonus) 1.

(** [DataAnnotator.calculate_relevance_score] *)
Definition calculate_relevance_score (text : pyval) : result Q :=
  if negb (truthy text) then Ok 0%Q
  else
    text_lower <- py_lower text ;;
    n <- py_len text ;;
    Ok (relevance (found_keywords text_lower) n).

(** ** Notions used to state the properties *)

(** Cleaned text is tidy: every character is in the allowed class, the only
    white space is the space character, and the text neither starts nor
    ends with white space. *)
Definition tidy (s : string) : bool :=
  Str.all Re.allowed s
  && Str.all (fun c => negb (Char.is_space c) || Char.eqb c " ") s
  && Str.starts_clean s && Str.ends_clean s.

(** The field [key] of a record is a string or is absent, so that
    [d.get(key, default)] with a string default is a string. *)
Definition str_field (d : dict) (key : string) : Prop :=
  match d !! key with
  | Some (PStr _) | None => True
  | Some _ => False
  end.

Definition text_of (v : pyval) : string :=
  match v with PStr s => s | _ => EmptyString end.

(** The lowercased, trimmed title and company of a record, and the key
    made of them. *)
Definition key_title (item : dict) : string :=
  Str.strip (Str.lower (text_of (get item "title" (PStr "")))).
Definition key_company (item : dict) : string :=
  Str.strip (Str.lower (text_of (get item "company" (PStr "")))).
Definition key_of (item : dict) : string :=
  key_title item +:+ "_" +:+ key_company item.

(** First occurrences: the records whose key is not in [seen] and not the
    key of an earlier record. *)
Fixpoint first_occurrences (seen : gset string) (data : list dict) : list dict :=
  match data with
  | [] => []
  | item :: data' =>
      if decide (key_of item ∈ seen) then first_occurrences seen data'
      else item :: first_occurrences (seen ∪ {[key_of item]}) data'
  end.

(** Some keyword of the list occurs in the text. *)
Definition occurs (keywords : list string) (text : string) : Prop :=
  exists keyword, keyword ∈ keywords /\ Str.contains keyword text = true.

(** [category] is the first entry of the table, in the table's order, one
    of whose keywords occurs in the text. *)
Definition first_match (table : list (string * list string)) (text category : string) : Prop :=
  exists (i : nat) keywords,
    table !! i = Some (category, keywords) /\ occurs keywords text /\
    forall (j : nat) category' keywords',
      (j < i)%nat -> table !! j = Some (category', keywords') -> ~ occurs keywords' text.

(** No entry of the table has a keyword in the text. *)
Definition no_match (table : list (string * list string)) (text : string) : Prop :=
  forall category keywords, (category, keywords) ∈ table -> ~ occurs keywords text.



(** [p] is a substring of [s]. *)
Definition substring (p s : string) : Prop :=
  exists a b, s = a +:+ p +:+ b.

(** The text does not end with a digit. *)
Fixpoint ends_nondigit (s : string) : bool :=
  match s with
  | EmptyString => true
  | String c EmptyString => negb (Char.is_digit c)
  | String _ s' => ends_nondigit s'
  end.

(** A keyword that starts with a character other than a digit, and one
    whose second character is neither a digit nor a space. *)
Definition starts_nondigit (keyword : string) : bool :=
  match keyword with
  | String c _ => negb (Char.is_digit c)
  | EmptyString => false
  end.

Definition sign_second (keyword : string) : bool :=
  match keyword with
  | String _ (String c _) => negb (Char.is_digit c) && negb (Char.eqb c " ")
  | _ => false
  end.

Section NormalForms.

Variable html_unescape : string -> string.

(** The cleaned, title-cased title with [Sr], [Jr] and [Mgr] expanded,
    trimmed. *)
Definition title_normal_form (s : string) : string :=
  let cleaned := clean_text html_unescape (PStr s) in
  let expand (from to : string) (t : string) :=
    Re.sub (Re.whole_word false false [from]) to t in
  Str.strip (expand "Mgr" "Manager" (expand "Jr" "Junior" (expand "Sr" "Senior"
    (Str.title cleaned)))).

(** The cleaned company name with the legal-entity suffixes removed,
    title-cased and trimmed. *)
Definition company_normal_form (s : string) : string :=
  let cleaned := clean_text html_unescape (PStr s) in
  Str.strip (Str.title (Re.sub (Re.whole_word true true company_suffixes) "" cleaned)).

(** The filter applied by [clean_data]: the entry is kept when
    [validate_entry] returns [True]. *)
Definition is_valid (entry : dict) : bool :=
  match validate_entry entry with
  | Ok true => true
  | _ => false
  end.

End NormalForms.

(** ** Sample records *)

Definition record (fields : list (string * string)) : dict :=
  list_to_map (prod_map id PStr <$> fields).

Definition sample_short : dict :=
  record [("source", "GitHub"); ("title", "sr. data engineer");
          ("company", "Acme Inc."); ("description", "<b>TBD</b>")].

Definition sample_long : dict :=
  record [("source", "Reddit"); ("title", "SR. DATA ENGINEER");
          ("company", "acme"); ("description", "Builds and maintains data pipelines")].

Definition sample_titles : list dict :=
  [ record [("title", "A"); ("company", "X")];
    record [("title", "a"); ("company", "x")];
    record [("title", "B"); ("company", "Y")] ].

(** Two records with different titles and companies and one joined key. *)
Definition sample_joined_first : dict :=
  record [("title", "Data_Engineer"); ("company", "Acme")].
Definition sample_joined_second : dict :=
  record [("title", "Data"); ("company", "Engineer_Acme")].
Definition sample_joined : list dict :=
  [sample_joined_first; sample_joined_second].



(** The title and company of a record, as stored. *)
Definition title_company (item : dict) : pyval * pyval :=
  (get item "title" PNone, get item "company" PNone).

(** ** Further notions *)

(** The keys of the dictionary that [clean_data] builds for an entry. *)
Definition cleaned_fields : gset string :=
  {[ "source"; "title"; "company"; "description"; "type"; "score" ]}.

(** A record whose title and company are strings or absent: the records
    on which [remove_duplicates] can build its key. *)
Definition keyed (item : dict) : Prop :=
  str_field item "title" /\ str_field item "company".

(** A raw entry whose source and type are strings or absent: the entries
    that [clean_data] can clean. *)
Definition labelled (entry : dict) : Prop :=
  str_field entry "source" /\ str_field entry "type".

(** ** The scraper ([JobScraper]): what [save_raw_data] stores *)

(** [all_fields]: the union of the keys of all collected entries. *)
Definition all_fields (jobs_data : list dict) : gset string :=
  ⋃ (dom <$> jobs_data).

(** [{field: entry.get(field, "") for field in all_fields}] *)
Definition normalized_entry (fields : gset string) (entry : dict) : dict :=
  set_to_map (fun field => (field, get entry field (PStr ""))) fields.

(** [JobScraper.save_raw_data], without the files: the new value of
    [self.jobs_data], which is what the JSON file holds, and the returned
    count. *)
Definition save_raw_data (jobs_data : list dict) : list dict * nat :=
  let fields := all_fields jobs_data in
  let normalized_data := normalized_entry fields <$> jobs_data in
  (normalized_data, length normalized_data).

(** ** Statistics of the cleaned data ([DataCleaner.get_data_statistics]) *)

(** Values that can be dictionary keys and set members: all but lists. *)
Definition hashable (v : pyval) : bool :=
  match v with PList _ => false | _ => true end.

(** Equality of keys: strings by their characters, numbers by their value,
    a boolean being the number 1 or 0. *)
Definition key_number (v : pyval) : option Z :=
  match v with
  | PBool b => Some (if b then 1 else 0)%Z
  | PInt z => Some z
  | _ => None
  end.

Definition key_eqb (a b : pyval) : bool :=
  match a, b with
  | PNone, PNone => true
  | PStr s, PStr t => String.eqb s t
  | _, _ =>
      match key_number a, key_number b with
      | Some x, Some y => Z.eqb x y
      | _, _ => false
      end
  end.

(** A dictionary of counters, as the list of its items in insertion
    order. *)
Abbreviation counters := (list (pyval * nat)).

(** [counts.get(key, 0)] *)
Fixpoint count_of (key : pyval) (counts : counters) : nat :=
  match counts with
  | [] => 0%nat
  | (k, n) :: counts' => if key_eqb k key then n else count_of key counts'
  end.

(** [counts[key] = counts.get(key, 0) + 1] for a hashable key. *)
Fixpoint bump (key : pyval) (counts : counters) : counters :=
  match counts with
  | [] => [(key, 1%nat)]
  | (k, n) :: counts' =>
      if key_eqb k key then (k, S n) :: counts' else (k, n) :: bump key counts'
  end.

Definition count_up (key : pyval) (counts : counters) : result counters :=
  if hashable key then Ok (bump key counts) else Raise TypeError.

(** [members.add(key)] on a set, kept as the list of its members. *)
Definition set_add (key : pyval) (members : list pyval) : result (list pyval) :=
  if hashable key
  then Ok (if existsb (key_eqb key) members then members else members ++ [key])
  else Raise TypeError.

(** The variables that the loop of [get_data_statistics] updates. *)
Record tally : Type := {
  t_sources : counters;
  t_desc_length : nat;
  t_companies : list pyval;
  t_job_types : counters
}.

(** One turn of the loop. *)
Definition tally_entry (entry : dict) (t : tally) : result tally :=
  sources <- count_up (get entry "source" (PStr "Unknown")) (t_sources t) ;;
  desc_len <- py_len (get entry "description" (PStr "")) ;;
  companies <- set_add (get entry "company" (PStr "Unknown")) (t_companies t) ;;
  job_types <- count_up (get entry "type" (PStr "Unknown")) (t_job_types t) ;;
  Ok {| t_sources := sources;
        t_desc_length := t_desc_length t + desc_len;
        t_companies := companies;
        t_job_types := job_types |}.

Fixpoint tally_loop (data : list dict) (t : tally) : result tally :=
  match data with
  | [] => Ok t
  | entry :: data' => t' <- tally_entry entry t ;; tally_loop data' t'
  end.

(** The dictionary that [get_data_statistics] returns when there is
    data. *)
Record data_statistics : Type := {
  total_entries : nat;
  sources : counters;
  avg_description_length : Q;
  companies : list pyval;
  job_types : counters;
  unique_companies : nat
}.

(** [DataCleaner.get_data_statistics]: [None] stands for the empty
    dictionary returned when there is no data. *)
Definition get_data_statistics (cleaned_data : list dict)
    : result (option data_statistics) :=
  match cleaned_data with
  | [] => Ok None
  | _ :: _ =>
      t <- tally_loop cleaned_data
             {| t_sources := []; t_desc_length := 0;
                t_companies := []; t_job_types := [] |} ;;
      Ok (Some {| total_entries := length cleaned_data;
                  sources := t_sources t;
                  avg_description_length :=
                    inject_Z (Z.of_nat (t_desc_length t))
                    / inject_Z (Z.of_nat (length cleaned_data));
                  companies := t_companies t;
                  job_types := t_job_types t;
                  unique_companies := length (t_companies t) |})
  end.

(** The length that [get_data_statistics] adds for an entry whose
    description has one. *)
Definition description_length (entry : dict) : nat :=
  match py_len (get entry "description" (PStr "")) with
  | Ok n => n
  | Raise _ => 0%nat
  end.

(** What the loop of [get_data_statistics] has established once it has
    gone through the entries [seen]. *)
Definition tallied (source_of type_of company_of : dict -> pyval)
    (seen : list dict) (t : tally) : Prop :=
  (forall k, count_of k (t_sources t)
             = length (filter (fun e => key_eqb (source_of e) k = true) seen))
  /\ (forall k, count_of k (t_job_types t)
                = length (filter (fun e => key_eqb (type_of e) k = true) seen))
  /\ sum_list (t_sources t).*2 = length seen
  /\ sum_list (t_job_types t).*2 = length seen
  /\ t_desc_length t = sum_list (description_length <$> seen)
  /\ (length (t_companies t) <= length seen)%nat
  /\ (seen <> [] -> t_companies t <> [])
  /\ (forall e, e ∈ seen -> existsb (key_eqb (company_of e)) (t_companies t) = true)
  /\ (forall m, m ∈ t_companies t -> exists e, e ∈ seen /\ company_of e = m)
  /\ (forall (i j : nat) a b, i <> j -> t_companies t !! i = Some a ->
        t_companies t !! j = Some b -> key_eqb a b = false).

(** An entry that [get_data_statistics] can count: its source, company and
    type can be dictionary keys and its description has a length. *)
Definition countable_entry (entry : dict) : Prop :=
  hashable (get entry "source" (PStr "Unknown")) = true
  /\ hashable (get entry "company" (PStr "Unknown")) = true
  /\ hashable (get entry "type" (PStr "Unknown")) = true
  /\ exists n, py_len (get entry "description" (PStr "")) = Ok n.

(** ** More of the annotator *)

Definition startup_indicators : list string :=
  ["startup"; "seed"; "series a"; "early stage"; "fast-growing"].
Definition large_corp_indicators : list string :=
  ["fortune"; "enterprise"; "global"; "multinational"; "thousands"].

(** [DataAnnotator.estimate_company_size], on two strings. *)
Definition estimate_company_size (company text : string) : string :=
  let text_lower := Str.lower (company +:+ " " +:+ text) in
  if Str.contains_any startup_indicators text_lower then "Startup"
  else if Str.contains_any large_corp_indicators text_lower then "Large Corporation"
  else "Medium Company".

(** The sort of [annotate_data]:
    [annotated_data.sort(key=lambda x: x.get('relevance_score', 0), reverse=True)].
    [list.sort] is stable, with [reverse=True] too: entries come in
    decreasing order of their key and entries with equal keys keep their
    order.  There is one such arrangement of a list; it is computed here by
    inserting each entry, from the last to the first, in front of the
    entries whose key is not larger. *)
Fixpoint insert_by_score {A : Type} (score : A -> Q) (x : A) (sorted : list A) : list A :=
  match sorted with
  | [] => [x]
  | y :: sorted' =>
      if Qle_bool (score y) (score x) then x :: y :: sorted'
      else y :: insert_by_score score x sorted'
  end.

Fixpoint sort_by_score {A : Type} (score : A -> Q) (l : list A) : list A :=
  match l with
  | [] => []
  | x :: l' => insert_by_score score x (sort_by_score score l')
  end.

(** In decreasing order of score. *)
Fixpoint decreasing {A : Type} (score : A -> Q) (l : list A) : Prop :=
  match l with
  | [] => True
  | x :: l' => Forall (fun y => (score y <= score x)%Q) l' /\ decreasing score l'
  end.

(** The entries of a given score, in their order. *)
Definition with_score {A : Type} (score : A -> Q) (q : Q) (l : list A) : list A :=
  filter (fun x => Qeq_bool (score x) q = true) l.

(** ** More sample data *)

(** A record with a company that is not a string. *)
Definition sample_bad_company : dict :=
  <["company" := PInt 3]> sample_long.


(** Collected entries with different keys, as the scraper builds them. *)
Definition sample_collected : list dict :=
  [ record [("title", "awesome-jobs"); ("company", "octocat");
            ("description", "A curated list of job boards"); ("type", "repository")];
    <["score" := PInt 42]>
      (record [("source", "Reddit"); ("title", "Is a CS degree worth it?");
               ("company", "r/cscareerquestions");
               ("description", "Asking for career advice"); ("type", "discussion")]) ].

(** An entry whose description has no length. *)
Definition sample_no_description : dict :=
  <["description" := PNone]> sample_long.

Definition parity_score (n : nat) : Q := inject_Z (Z.of_nat (n mod 2)).
(** * Properties *)

(** ** Evaluation on sample input *)

Example lower_ex : Str.lower "Sr. Dev_Ops 5+" = "sr. dev_ops 5+".
Proof. reflexivity. Qed.
Example title_ex : Str.title "sr. soFTware engineer it's 3d a_b" = "Sr. Software Engineer It'S 3D A_B".
Proof. reflexivity. Qed.
Example strip_ex : Str.strip "  a  b   " = "a  b".
Proof. reflexivity. Qed.
Example contains_ex : Str.contains "years" "3 years" = true /\ Str.contains "sr" "3 years" = false.
Proof. split; reflexivity. Qed.
Example sub_tag_ex : Re.sub Re.tag " " "a<b>c <> < d >e<f" = "a c <>  e<f".
Proof. reflexivity. Qed.
Example sub_spaces_ex : Re.sub Re.spaces " " "  a 	 b
c " = " a b c ".
Proof. reflexivity. Qed.
Example sub_special_ex : Re.sub Re.special "" "C++ & C# (a_b) 50%!" = "C  C (a_b) 50!".
Proof. reflexivity. Qed.
Example sub_word_ex :
  Re.sub (Re.whole_word true true ["Inc"; "Ltd"; "LLC"; "Corp"; "Corporation"; "Company"; "Co"]) ""
         "Acme corporation, Coca Co. Incubator inc" = "Acme , Coca  Incubator ".
Proof. reflexivity. Qed.
Example unescape_ex : Html.unescape "&lt;b&gt; R &amp; D &amp;lt; a & b" = "<b> R & D &lt; a & b".
Proof. reflexivity. Qed.
Example clean_text_ex :
  clean_text Html.unescape (PStr "<p>Senior  Dev &amp; Ops @ <b>Acme</b></p>") = "Senior Dev  Ops  Acme".
Proof. vm_compute. reflexivity. Qed.
Example normalize_company_ex :
  normalize_company_name Html.unescape (PStr "acme corp.") = "Acme"
  /\ normalize_company_name Html.unescape (PStr "Coca-cola Company") = "Coca-Cola"
  /\ normalize_company_name Html.unescape (PStr "Inc.") = "Unknown Company"
  /\ normalize_company_name Html.unescape PNone = "Unknown Company".
Proof. vm_compute. repeat split. Qed.
Example normalize_title_ex :
  normalize_job_title Html.unescape (PStr "sr. software engineer") = "Senior. Software Engineer"
  /\ normalize_job_title Html.unescape (PStr "jr dev / MGR") = "Junior Dev / Manager"
  /\ normalize_job_title Html.unescape (PStr " <br> ") = "Unknown Position".
Proof. vm_compute. repeat split. Qed.
Example classify_experience_ex :
  classify_experience_level (PStr "5+ years of experience required") = Ok "Senior Level"
  /\ classify_experience_level (PStr "We need someone with 3 years experience") = Ok "Mid Level"
  /\ classify_experience_level (PStr "10 - years, or 1year") = Ok "Senior Level"
  /\ classify_experience_level (PStr "2 yrs") = Ok "Not Specified"
  /\ classify_experience_level (PStr "1 year and 7years") = Ok "Senior Level".
Proof. vm_compute. repeat split. Qed.
Example findall_ex :
  Re.findall year_pattern "12+ - years 7year3years 4 yeas 5
years" = ["12"; "7"; "3"; "5"].
Proof. vm_compute. repeat split. Qed.
Example extract_skills_ex :
  extract_skills (PStr "We use Python and AWS for our backend API")
  = Ok (list_to_set ["Python"; "DevOps"; "Cloud"; "Backend"]).
Proof. vm_compute. repeat split. Qed.
Example relevance_ex :
  calculate_relevance_score (PStr "Python developer with AWS and Docker") = Ok (Qmin (Qmin (4 / 10) 1 + Qmin (36 / 1000) (2 / 10)) 1).
Proof. vm_compute. repeat split. Qed.

Ltac pick_member :=
  repeat first [apply list_elem_of_here | apply list_elem_of_further].

(** ** Characters *)

Module CharFacts.
Import Char.

Lemma eqb_eq a b : eqb a b = true <-> a = b.
Proof.
  unfold eqb, code. rewrite N.eqb_eq. split; [|congruence].
  intros H. rewrite <- (ascii_N_embedding a), <- (ascii_N_embedding b).
  congruence.
Qed.

Lemma eqb_refl a : eqb a a = true.
Proof. by apply eqb_eq. Qed.

Lemma word_not_space c : is_word c = true -> is_space c = false.
Proof.
  destruct c as [[] [] [] [] [] [] [] []]; vm_compute; intros H;
    first [reflexivity | discriminate H].
Qed.

End CharFacts.

(** ** Strings *)

Module StrFacts.

Lemma starts_with_spec p s :
  Str.starts_with p s = true <-> exists b, s = p +:+ b.
Proof.
  revert s. induction p as [|a p IH]; intros s; simpl.
  - split; [intros _; by exists s | done].
  - destruct s as [|c s]; simpl.
    + split; [done | intros [b Hb]; discriminate].
    + rewrite andb_true_iff, CharFacts.eqb_eq, IH. split.
      * intros [-> [b ->]]. by exists b.
      * intros [b Hb]. injection Hb as -> ->. split; [done | by exists b].
Qed.

(** [p in s] holds exactly when [s] is [a + p + b] for some [a], [b]. *)
Lemma contains_spec p s :
  Str.contains p s = true <-> exists a b, s = a +:+ p +:+ b.
Proof.
  induction s as [|c s IH]; simpl.
  - rewrite orb_false_r, starts_with_spec. split.
    + intros [b Hb]. by exists EmptyString, b.
    + intros [a [b Hab]]. destruct a; simpl in Hab; [by exists b | discriminate].
  - rewrite orb_true_iff, starts_with_spec, IH. split.
    + intros [[b Hb] | [a [b Hab]]].
      * by exists EmptyString, b.
      * exists (String c a), b. simpl. by rewrite Hab.
    + intros [a [b Hab]]. destruct a as [|c' a]; simpl in Hab.
      * left. by exists b.
      * right. injection Hab as -> ->. by exists a, b.
Qed.

Lemma contains_char c s :
  Str.contains (String c EmptyString) s = negb (Str.all (fun x => negb (Char.eqb c x)) s).
Proof.
  induction s as [|x s IH]; simpl; [done|].
  rewrite IH. destruct (Char.eqb c x); simpl; [done|]. done.
Qed.

Lemma all_impl (p q : ascii -> bool) s :
  (forall c, p c = true -> q c = true) -> Str.all p s = true -> Str.all q s = true.
Proof.
  intros Hpq. induction s as [|c s IH]; simpl; [done|].
  rewrite !andb_true_iff. intros [Hc Hs]. auto.
Qed.

Lemma all_keep (p q : ascii -> bool) s :
  Str.all p s = true -> Str.all p (Str.keep q s) = true.
Proof.
  induction s as [|c s IH]; simpl; [done|].
  rewrite andb_true_iff. intros [Hc Hs].
  destruct (q c); simpl; [rewrite Hc|]; auto.
Qed.

Lemma all_keep_same p s : Str.all p (Str.keep p s) = true.
Proof.
  induction s as [|c s IH]; simpl; [done|].
  destruct (p c) eqn:Hc; simpl; [rewrite Hc|]; auto.
Qed.

Lemma keep_all p s : Str.all p s = true -> Str.keep p s = s.
Proof.
  induction s as [|c s IH]; simpl; [done|].
  rewrite andb_true_iff. intros [-> Hs]. by rewrite IH.
Qed.

Lemma all_lstrip p s : Str.all p s = true -> Str.all p (Str.lstrip s) = true.
Proof.
  induction s as [|c s IH]; simpl; [done|].
  rewrite andb_true_iff. intros [Hc Hs].
  destruct (Char.is_space c); simpl; [|rewrite Hc]; auto.
Qed.

Lemma all_rstrip p s : Str.all p s = true -> Str.all p (Str.rstrip s) = true.
Proof.
  induction s as [|c s IH]; simpl; [done|].
  rewrite andb_true_iff. intros [Hc Hs].
  destruct (Char.is_space c && Str.is_empty (Str.rstrip s)); simpl; [done|].
  rewrite Hc. auto.
Qed.

Lemma all_strip p s : Str.all p s = true -> Str.all p (Str.strip s) = true.
Proof. intros H. by apply all_rstrip, all_lstrip. Qed.

Lemma lstrip_clean s : Str.starts_clean s = true -> Str.lstrip s = s.
Proof. destruct s as [|c s]; simpl; [done|]. by intros ->%negb_true_iff. Qed.

Lemma rstrip_cons c s :
  Str.rstrip (String c s) =
  if Char.is_space c && Str.is_empty (Str.rstrip s) then EmptyString
  else String c (Str.rstrip s).
Proof. reflexivity. Qed.

Lemma rstrip_clean s : Str.ends_clean s = true -> Str.rstrip s = s.
Proof.
  induction s as [|c s IH]; [done|].
  intros H. rewrite rstrip_cons. destruct s as [|d s].
  - simpl in *. apply negb_true_iff in H. by rewrite H.
  - rewrite IH by exact H. simpl. by rewrite andb_false_r.
Qed.

Lemma strip_clean s :
  Str.starts_clean s = true -> Str.ends_clean s = true -> Str.strip s = s.
Proof.
  intros H1 H2. unfold Str.strip. rewrite (lstrip_clean _ H1). by apply rstrip_clean.
Qed.

Lemma lstrip_starts_clean s : Str.starts_clean (Str.lstrip s) = true.
Proof.
  induction s as [|c s IH]; simpl; [done|].
  destruct (Char.is_space c) eqn:Hc; simpl; [done | by rewrite Hc].
Qed.

Lemma rstrip_starts_clean s :
  Str.starts_clean s = true -> Str.starts_clean (Str.rstrip s) = true.
Proof.
  destruct s as [|c s]; simpl; [done|].
  intros Hc. apply negb_true_iff in Hc. rewrite Hc. simpl. by rewrite Hc.
Qed.

Lemma rstrip_ends_clean s : Str.ends_clean (Str.rstrip s) = true.
Proof.
  induction s as [|c s IH]; simpl; [done|].
  destruct (Str.rstrip s) as [|d r] eqn:Hr; simpl.
  - rewrite andb_true_r. destruct (Char.is_space c) eqn:Hc; simpl; [done | by rewrite Hc].
  - rewrite andb_false_r. exact IH.
Qed.

Lemma strip_starts_clean s : Str.starts_clean (Str.strip s) = true.
Proof. apply rstrip_starts_clean, lstrip_starts_clean. Qed.

Lemma strip_ends_clean s : Str.ends_clean (Str.strip s) = true.
Proof. apply rstrip_ends_clean. Qed.

(** [s.strip().strip() == s.strip()] *)
Lemma strip_idem s : Str.strip (Str.strip s) = Str.strip s.
Proof. apply strip_clean; [apply strip_starts_clean | apply strip_ends_clean]. Qed.

Lemma length_lstrip s : (String.length (Str.lstrip s) <= String.length s)%nat.
Proof.
  induction s as [|c s IH]; simpl; [done|].
  destruct (Char.is_space c); simpl; lia.
Qed.

Lemma length_rstrip s : (String.length (Str.rstrip s) <= String.length s)%nat.
Proof.
  induction s as [|c s IH]; simpl; [done|].
  destruct (Char.is_space c && Str.is_empty (Str.rstrip s)); simpl; lia.
Qed.

Lemma length_strip s : (String.length (Str.strip s) <= String.length s)%nat.
Proof.
  unfold Str.strip. pose proof (length_rstrip (Str.lstrip s)).
  pose proof (length_lstrip s). lia.
Qed.

Lemma is_empty_true s : Str.is_empty s = true <-> s = EmptyString.
Proof. by destruct s. Qed.

End StrFacts.

(** ** The three substitutions of [clean_text] *)

Module ReFacts.

(** [re.sub(r'\s+', ' ', s)] replaces every run of white space by one
    space. *)
Lemma sub_spaces_from s : forall (b pw : bool),
  Re.sub_scan Re.spaces " " (if b then Re.run Char.is_space s else 0%nat) pw s
  = Str.squeeze_from b s.
Proof.
  induction s as [|c s IH]; intros b pw; [by destruct b|].
  destruct b; cbn [Re.run Str.squeeze_from]; destruct (Char.is_space c) eqn:Hc.
  - cbn [Re.sub_scan]. apply (IH true).
  - cbn [Re.sub_scan]. unfold Re.spaces. cbn [Re.run]. rewrite Hc.
    f_equal. apply (IH false).
  - cbn [Re.sub_scan]. unfold Re.spaces. cbn [Re.run]. rewrite Hc.
    change (String " " (Re.sub_scan Re.spaces " " (Re.run Char.is_space s) (Char.is_word c) s)
            = String " " (Str.squeeze_from true s)).
    f_equal. apply (IH true).
  - cbn [Re.sub_scan]. unfold Re.spaces. cbn [Re.run]. rewrite Hc.
    f_equal. apply (IH false).
Qed.

Lemma sub_spaces s : Re.sub Re.spaces " " s = Str.squeeze s.
Proof. apply (sub_spaces_from s false false). Qed.

(** [re.sub(r'[^\w\s\.\,\!\?\-\(\)\/]', '', s)] keeps the allowed
    characters. *)
Lemma sub_special_from s : forall pw,
  Re.sub_scan Re.special "" 0 pw s = Str.keep Re.allowed s.
Proof.
  induction s as [|c s IH]; intros pw; [done|].
  cbn [Re.sub_scan Str.keep]. unfold Re.special.
  destruct (Re.allowed c); [by rewrite IH | apply IH].
Qed.

Lemma sub_special s : Re.sub Re.special "" s = Str.keep Re.allowed s.
Proof. apply sub_special_from. Qed.

(** [re.sub(r'<[^>]+>', ' ', s)] changes nothing where there is no
    opening bracket. *)
Lemma sub_tag_plain_from s : forall pw,
  Str.all (fun c => negb (Char.eqb c "<")) s = true ->
  Re.sub_scan Re.tag " " 0 pw s = s.
Proof.
  induction s as [|c s IH]; intros pw; [done|].
  cbn [Str.all]. rewrite andb_true_iff. intros [Hc Hs].
  cbn [Re.sub_scan]. unfold Re.tag. apply negb_true_iff in Hc. rewrite Hc.
  f_equal. by apply IH.
Qed.

Lemma sub_tag_plain s :
  Str.all (fun c => negb (Char.eqb c "<")) s = true -> Re.sub Re.tag " " s = s.
Proof. apply sub_tag_plain_from. Qed.

End ReFacts.

(** ** Squeezing white space *)

Module SqueezeFacts.
Import Str.

Lemma squeeze_from_cons b c s :
  squeeze_from b (String c s) =
  if Char.is_space c
  then if b then squeeze_from true s else String " " (squeeze_from true s)
  else String c (squeeze_from false s).
Proof. reflexivity. Qed.

Lemma squeeze_from_idem s : forall b,
  squeeze_from b (squeeze_from b s) = squeeze_from b s.
Proof.
  induction s as [|c s IH]; intros b; [done|].
  cbn [squeeze_from]. destruct (Char.is_space c) eqn:Hc.
  - destruct b; [apply IH|].
    cbn [squeeze_from]. change (Char.is_space " ") with true. cbn iota.
    f_equal. apply IH.
  - cbn [squeeze_from]. rewrite Hc. f_equal. apply IH.
Qed.

Lemma all_squeeze (p : ascii -> bool) s b :
  p " "%char = true -> all p s = true -> all p (squeeze_from b s) = true.
Proof.
  intros Hsp. revert b. induction s as [|c s IH]; intros b; [done|].
  cbn [all squeeze_from]. rewrite andb_true_iff. intros [Hc Hs].
  destruct (Char.is_space c); [destruct b|]; cbn [all];
    rewrite ?Hsp, ?Hc; simpl; auto.
Qed.

(** After squeezing, the only white space is the space character. *)
Lemma squeeze_only_spaces s b :
  all (fun c => negb (Char.is_space c) || Char.eqb c " ") (squeeze_from b s) = true.
Proof.
  revert b. induction s as [|c s IH]; intros b; [done|].
  cbn [squeeze_from]. destruct (Char.is_space c) eqn:Hc; [destruct b|]; cbn [all];
    rewrite ?Hc; simpl; auto.
Qed.

Lemma squeeze_starts_clean s :
  starts_clean s = true -> starts_clean (squeeze s) = true.
Proof.
  destruct s as [|c s]; [done|]. unfold squeeze. cbn [starts_clean squeeze_from].
  intros Hc. apply negb_true_iff in Hc. rewrite Hc. simpl. by rewrite Hc.
Qed.

Lemma squeeze_nonempty s b :
  ends_clean s = true -> s <> EmptyString -> squeeze_from b s <> EmptyString.
Proof.
  revert b. induction s as [|c s IH]; intros b H Hne; [done|].
  cbn [squeeze_from]. destruct (Char.is_space c) eqn:Hc; [|done].
  destruct s as [|d s]; [simpl in H; by rewrite Hc in H|].
  destruct b; [|done]. by apply IH.
Qed.

Lemma ends_clean_cons c s :
  s <> EmptyString -> ends_clean (String c s) = ends_clean s.
Proof. by destruct s. Qed.

Lemma squeeze_ends_clean s b :
  ends_clean s = true -> ends_clean (squeeze_from b s) = true.
Proof.
  revert b. induction s as [|c s IH]; intros b H; [done|].
  destruct s as [|d s].
  - simpl in *. apply negb_true_iff in H. rewrite H. simpl. by rewrite H.
  - rewrite ends_clean_cons in H by done.
    rewrite (squeeze_from_cons b c). destruct (Char.is_space c); [destruct b|].
    + by apply IH.
    + rewrite ends_clean_cons; [by apply IH | by apply squeeze_nonempty].
    + rewrite ends_clean_cons; [by apply IH | by apply squeeze_nonempty].
Qed.

Lemma length_squeeze s b : (String.length (squeeze_from b s) <= String.length s)%nat.
Proof.
  revert b. induction s as [|c s IH]; intros b; [done|].
  rewrite squeeze_from_cons.
  pose proof (IH true). pose proof (IH false).
  destruct (Char.is_space c); [destruct b|]; cbn [String.length]; lia.
Qed.

Lemma starts_with_space s :
  all (fun c => negb (Char.is_space c) || Char.eqb c " ") s = true ->
  starts_with " " s = negb (starts_clean s).
Proof.
  destruct s as [|c s]; [done|]. cbn [all starts_with starts_clean].
  rewrite andb_true_iff, andb_true_r, negb_involutive. intros [Hc _].
  destruct (Char.is_space c) eqn:Hsp; simpl in Hc.
  - apply CharFacts.eqb_eq in Hc. by subst c.
  - destruct (Char.eqb " " c) eqn:He; [|done].
    apply CharFacts.eqb_eq in He. by subst c.
Qed.

(** Squeezing changes nothing exactly where no two spaces are adjacent. *)
Lemma squeeze_from_fixed s :
  all (fun c => negb (Char.is_space c) || Char.eqb c " ") s = true ->
  forall b, squeeze_from b s = s <->
            (if b then starts_clean s else true) = true /\ contains "  " s = false.
Proof.
  induction s as [|c s IH]; intros Hall b; [by destruct b|].
  pose proof (starts_with_space _ Hall) as Hhead.
  cbn [all] in Hall. apply andb_true_iff in Hall as [Hc Hs].
  specialize (IH Hs). pose proof (starts_with_space _ Hs) as Hnext.
  rewrite squeeze_from_cons.
  cbn [contains starts_with]. fold (starts_with " " s). rewrite Hnext.
  cbn [starts_with starts_clean] in Hhead. rewrite andb_true_r in Hhead.
  cbn [starts_clean]. rewrite Hhead.
  destruct (Char.is_space c) eqn:Hsp; cbn [negb andb orb].
  - simpl in Hc. apply CharFacts.eqb_eq in Hc. subst c. destruct b.
    + split; [|by intros [? _]].
      intros Heq. pose proof (length_squeeze s true) as Hlen.
      rewrite Heq in Hlen. simpl in Hlen. lia.
    + rewrite orb_false_iff, negb_false_iff. split.
      * intros Heq. injection Heq as Heq. apply (IH true) in Heq. tauto.
      * intros [_ [H1 H2]]. f_equal. apply (IH true). tauto.
  - split.
    + intros Heq. injection Heq as Heq. apply (IH false) in Heq.
      split; [by destruct b | tauto].
    + intros [_ H2]. f_equal. apply (IH false). tauto.
Qed.

Lemma squeeze_fixed s :
  all (fun c => negb (Char.is_space c) || Char.eqb c " ") s = true ->
  squeeze s = s <-> contains "  " s = false.
Proof.
  intros Hall. unfold squeeze. rewrite (squeeze_from_fixed s Hall false). tauto.
Qed.

End SqueezeFacts.

(** ** The cleaner *)

(** ** Concatenation *)

Lemma append_cons (c : ascii) (a b : string) : String c a +:+ b = String c (a +:+ b).
Proof. reflexivity. Qed.

Lemma lower_app a b : Str.lower (a +:+ b) = Str.lower a +:+ Str.lower b.
Proof.
  unfold Str.lower. induction a as [|c a IH]; [done|].
  rewrite append_cons. cbn [Str.map]. by rewrite append_cons, IH.
Qed.

Lemma append_assoc (a b c : string) : (a +:+ b) +:+ c = a +:+ (b +:+ c).
Proof. induction a as [|x a IH]; [done|]. by rewrite !append_cons, IH. Qed.

Lemma length_append (a b : string) :
  String.length (a +:+ b) = (String.length a + String.length b)%nat.
Proof. induction a as [|c a IH]; [done|]. rewrite append_cons. simpl. by rewrite IH. Qed.

Lemma all_app (p : ascii -> bool) a b :
  Str.all p (a +:+ b) = Str.all p a && Str.all p b.
Proof. induction a as [|c a IH]; [done|]. rewrite append_cons. simpl. by rewrite IH, andb_assoc. Qed.

(** ** Title case and whole-word substitution *)

Module TitleFacts.








Lemma title_empty s b : Str.title_from b s = EmptyString <-> s = EmptyString.
Proof. destruct s as [|c s]; [done|]. simpl. by destruct (Char.is_alpha c). Qed.
















End TitleFacts.

Lemma Html_unescape_plain s : Str.contains "&" s = false -> Html.unescape s = s.
Proof. unfold Html.unescape. by intros ->. Qed.

Section CleanerFacts.

Context (html_unescape : string -> string).

Local Abbreviation clean := (clean_text html_unescape).

Lemma clean_text_not_str v : is_str v = false -> clean v = EmptyString.
Proof. intros H. unfold clean_text. rewrite H. by rewrite orb_true_r. Qed.

Lemma clean_text_falsy v : truthy v = false -> clean v = EmptyString.
Proof. intros H. unfold clean_text. by rewrite H. Qed.

Lemma clean_text_str s :
  clean (PStr s) =
  if Str.is_empty s then EmptyString
  else Str.strip (Str.keep Re.allowed (Str.squeeze (Re.sub Re.tag " " (html_unescape s)))).
Proof.
  unfold clean_text. simpl. destruct (Str.is_empty s); simpl; [done|].
  by rewrite ReFacts.sub_spaces, ReFacts.sub_special.
Qed.

(** The output of [clean_text] is tidy, whatever the input. *)
Lemma clean_text_tidy v : tidy (clean v) = true.
Proof.
  destruct (is_str v) eqn:Hstr; [|by rewrite clean_text_not_str].
  destruct v as [| | |s|]; try done.
  rewrite clean_text_str. destruct (Str.is_empty s); [done|].
  unfold tidy. rewrite !andb_true_iff. repeat split.
  - apply StrFacts.all_strip, StrFacts.all_keep_same.
  - apply StrFacts.all_strip, StrFacts.all_keep.
    apply (SqueezeFacts.squeeze_only_spaces _ false).
  - apply StrFacts.strip_starts_clean.
  - apply StrFacts.strip_ends_clean.
Qed.

Lemma clean_text_stripped v : Str.strip (clean v) = clean v.
Proof.
  pose proof (clean_text_tidy v) as H. unfold tidy in H.
  rewrite !andb_true_iff in H. apply StrFacts.strip_clean; tauto.
Qed.

Lemma squeeze_tidy s : tidy s = true -> tidy (Str.squeeze s) = true.
Proof.
  unfold tidy. rewrite !andb_true_iff. intros [[[H1 H2] H3] H4]. repeat split.
  - by apply SqueezeFacts.all_squeeze.
  - apply SqueezeFacts.squeeze_only_spaces.
  - by apply SqueezeFacts.squeeze_starts_clean.
  - by apply SqueezeFacts.squeeze_ends_clean.
Qed.

Lemma allowed_not (x : ascii) s :
  Re.allowed x = false -> Str.all Re.allowed s = true ->
  Str.all (fun c => negb (Char.eqb x c)) s = true
  /\ Str.all (fun c => negb (Char.eqb c x)) s = true.
Proof.
  intros Hx Hs. split; (eapply StrFacts.all_impl; [|exact Hs]); intros c Hc;
    apply negb_true_iff; apply not_true_is_false; intros He;
    apply CharFacts.eqb_eq in He; subst; congruence.
Qed.

(** *** Normalised titles and companies *)

Lemma normalize_job_title_eq v :
  normalize_job_title html_unescape v =
  match v with
  | PStr s =>
      if Str.is_empty (title_normal_form html_unescape s) then "Unknown Position"
      else title_normal_form html_unescape s
  | _ => "Unknown Position"
  end.
Proof.
  destruct v as [| | |s|];
    try (unfold normalize_job_title; cbn [is_str negb]; by rewrite orb_true_r).
  unfold normalize_job_title, title_normal_form. simpl.
  destruct s as [|c s]; [done|]. reflexivity.
Qed.

Lemma normalize_company_name_eq v :
  normalize_company_name html_unescape v =
  match v with
  | PStr s =>
      if Str.is_empty (company_normal_form html_unescape s) then "Unknown Company"
      else company_normal_form html_unescape s
  | _ => "Unknown Company"
  end.
Proof.
  destruct v as [| | |s|];
    try (unfold normalize_company_name; cbn [is_str negb]; by rewrite orb_true_r).
  unfold normalize_company_name, company_normal_form. simpl.
  destruct s as [|c s]; [done|]. reflexivity.
Qed.









(** A normalised title is trimmed and not empty. *)
Lemma normalize_job_title_stripped v :
  Str.strip (normalize_job_title html_unescape v) = normalize_job_title html_unescape v.
Proof.
  rewrite normalize_job_title_eq. destruct v as [| | |s|]; try done.
  destruct (Str.is_empty _); [done|]. apply StrFacts.strip_idem.
Qed.

Lemma normalize_job_title_nonempty v :
  Str.is_empty (normalize_job_title html_unescape v) = false.
Proof.
  rewrite normalize_job_title_eq. destruct v as [| | |s|]; try done.
  by destruct (Str.is_empty (title_normal_form html_unescape s)) eqn:He.
Qed.

Lemma normalize_company_name_stripped v :
  Str.strip (normalize_company_name html_unescape v) = normalize_company_name html_unescape v.
Proof.
  rewrite normalize_company_name_eq. destruct v as [| | |s|]; try done.
  destruct (Str.is_empty _); [done|]. apply StrFacts.strip_idem.
Qed.

Lemma normalize_company_name_nonempty v :
  Str.is_empty (normalize_company_name html_unescape v) = false.
Proof.
  rewrite normalize_company_name_eq. destruct v as [| | |s|]; try done.
  by destruct (Str.is_empty (company_normal_form html_unescape s)) eqn:He.
Qed.

(** *** Validation and the first stage *)

Lemma get_str_field (d : dict) key default :
  str_field d key -> exists s, get d key (PStr default) = PStr s.
Proof.
  unfold str_field, get. destruct (d !! key) as [[| | |s|]|]; try done; eauto.
Qed.

Lemma clean_entry_total (r : dict) :
  str_field r "source" -> str_field r "type" ->
  exists c, clean_entry html_unescape r = Ok c.
Proof.
  intros [s Hs]%(get_str_field _ _ "Unknown") [t Ht]%(get_str_field _ _ "job").
  unfold clean_entry. rewrite Hs, Ht. simpl. eauto.
Qed.

Lemma clean_entry_fields (r c : dict) :
  clean_entry html_unescape r = Ok c ->
  c !! "title" = Some (PStr (normalize_job_title html_unescape (get r "title" (PStr ""))))
  /\ c !! "company" = Some (PStr (normalize_company_name html_unescape (get r "company" (PStr ""))))
  /\ c !! "description" = Some (PStr (clean (get r "description" (PStr "")))).
Proof.
  unfold clean_entry.
  destruct (py_strip (get r "source" (PStr "Unknown"))) as [src|]; [|done].
  destruct (py_strip (get r "type" (PStr "job"))) as [ty|]; [|done].
  simpl. intros [= <-].
  repeat split; repeat (rewrite lookup_insert_ne by done); by rewrite lookup_insert_eq.
Qed.

Lemma dedup_key_ok (item : dict) :
  str_field item "title" -> str_field item "company" ->
  dedup_key item = Ok (key_of item).
Proof.
  intros [t Ht]%(get_str_field _ _ "") [c Hc]%(get_str_field _ _ "").
  unfold dedup_key, key_of, key_title, key_company. by rewrite Ht, Hc.
Qed.

Lemma clean_entry_str_fields (r c : dict) :
  clean_entry html_unescape r = Ok c ->
  str_field c "title" /\ str_field c "company" /\ str_field c "description".
Proof.
  intros (Ht & Hc & Hd)%clean_entry_fields. unfold str_field.
  by rewrite Ht, Hc, Hd.
Qed.

(** A cleaned entry is valid exactly when its description has ten
    characters or more. *)
Lemma validate_cleaned (r c : dict) :
  clean_entry html_unescape r = Ok c ->
  validate_entry c =
  Ok (negb (String.length (clean (get r "description" (PStr ""))) <? 10)%nat).
Proof.
  intros (Ht & Hc & Hd)%clean_entry_fields.
  unfold validate_entry, get. rewrite Ht, Hc, Hd. simpl.
  rewrite normalize_job_title_stripped, normalize_job_title_nonempty.
  rewrite clean_text_stripped. by destruct (_ <? _)%nat.
Qed.

Lemma is_valid_cleaned (r c : dict) :
  clean_entry html_unescape r = Ok c ->
  is_valid c = negb (String.length (clean (get r "description" (PStr ""))) <? 10)%nat.
Proof.
  intros H. unfold is_valid. rewrite (validate_cleaned _ _ H). by destruct (negb _).
Qed.

(** The first loop of [clean_data] cleans every entry and keeps the valid
    ones, in order. *)
Lemma clean_loop_filter (raw : list dict) : forall acc,
  clean_loop html_unescape raw acc =
  (cs <- map_result (clean_entry html_unescape) raw ;;
   Ok (acc ++ filter (fun c => is_valid c = true) cs)).
Proof.
  induction raw as [|r raw IH]; intros acc; simpl.
  - by rewrite app_nil_r.
  - destruct (clean_entry html_unescape r) as [c|] eqn:Hc; simpl; [|done].
    pose proof (is_valid_cleaned _ _ Hc) as Hv.
    rewrite (validate_cleaned _ _ Hc). simpl. rewrite IH.
    destruct (map_result (clean_entry html_unescape) raw) as [cs|]; simpl; [|done].
    rewrite filter_cons. rewrite Hv.
    destruct (negb _); simpl; [|done]. by rewrite <- app_assoc.
Qed.

(** Validation filters the cleaned entries before deduplication runs. *)
Lemma clean_data_filter_then_dedup (raw : list dict) :
  clean_data html_unescape [] raw =
  (cs <- map_result (clean_entry html_unescape) raw ;;
   remove_duplicates (filter (fun c => is_valid c = true) cs)).
Proof.
  unfold clean_data. rewrite clean_loop_filter.
  by destruct (map_result (clean_entry html_unescape) raw).
Qed.

Lemma remove_duplicates_one (c : dict) :
  str_field c "title" -> str_field c "company" -> remove_duplicates [c] = Ok [c].
Proof.
  intros Ht Hc. unfold remove_duplicates. simpl.
  rewrite (dedup_key_ok _ Ht Hc). simpl. by rewrite decide_False by set_solver.
Qed.

Lemma validate_entry_str (entry : dict) t c d :
  get entry "title" (PStr "") = PStr t ->
  get entry "company" (PStr "") = PStr c ->
  get entry "description" (PStr "") = PStr d ->
  validate_entry entry =
  Ok (negb (Str.is_empty (Str.strip t)) && negb (String.length (Str.strip d) <? 10)%nat).
Proof.
  intros Ht Hc Hd. unfold validate_entry. rewrite Ht, Hc, Hd. simpl.
  destruct (Str.is_empty (Str.strip t)); [done|]. by destruct (_ <? _)%nat.
Qed.

(** C7. For a record whose title, company and description are strings
    (an absent field reads as the empty string), [validate_entry] returns
    a boolean, which is false exactly when the trimmed title is empty or
    the trimmed description has fewer than ten characters.  So a record
    whose description has fewer than ten characters is rejected whatever
    its title, a record with a non-empty trimmed title and a trimmed
    description of ten characters or more is accepted, and replacing or
    dropping the company changes nothing. *)
Theorem validate_entry_spec (entry : dict) :
  str_field entry "title" -> str_field entry "company" ->
  str_field entry "description" ->
  let title := text_of (get entry "title" (PStr "")) in
  let description := text_of (get entry "description" (PStr "")) in
  exists b : bool,
    validate_entry entry = Ok b
    /\ (b = false <->
        Str.strip title = EmptyString \/ (String.length (Str.strip description) < 10)%nat)
    /\ ((String.length description < 10)%nat -> b = false)
    /\ (Str.strip title <> EmptyString ->
        (10 <= String.length (Str.strip description))%nat -> b = true)
    /\ (forall company : string,
          validate_entry (<["company" := PStr company]> entry) = Ok b)
    /\ validate_entry (delete "company" entry) = Ok b.
Proof.
  intros [t Ht]%(get_str_field _ _ "") [c Hc]%(get_str_field _ _ "")
         [d Hd]%(get_str_field _ _ "").
  rewrite Ht, Hd. cbn [text_of]. cbv zeta.
  eexists. split; [by apply (validate_entry_str _ t c d)|].
  assert (Hempty : Str.is_empty (Str.strip t) = true <-> Str.strip t = EmptyString)
    by apply StrFacts.is_empty_true.
  pose proof (StrFacts.length_strip d) as Hlen.
  repeat split.
  - intros [H|H]%andb_false_iff.
    + left. apply Hempty. by apply negb_false_iff.
    + right. apply negb_false_iff in H. by apply Nat.ltb_lt in H.
  - intros [H|H]; apply andb_false_iff.
    + left. apply negb_false_iff. by apply Hempty.
    + right. apply negb_false_iff. by apply Nat.ltb_lt.
  - intros H. apply andb_false_iff. right. apply negb_false_iff, Nat.ltb_lt. lia.
  - intros H1 H2. apply andb_true_iff. split; apply negb_true_iff.
    + apply not_true_is_false. intros H. by apply Hempty in H.
    + apply Nat.ltb_ge. lia.
  - intros company. apply (validate_entry_str _ t company d); unfold get in *.
    + by rewrite lookup_insert_ne.
    + by rewrite lookup_insert_eq.
    + by rewrite lookup_insert_ne.
  - apply (validate_entry_str _ t EmptyString d); unfold get in *.
    + by rewrite lookup_delete_ne.
    + by rewrite lookup_delete_eq.
    + by rewrite lookup_delete_ne.
Qed.

(** C2. Stage 1 cleans every raw entry, filters the cleaned entries with
    the validator and only then removes duplicates.  So for two raw
    records (with string source and type labels) whose normalised titles
    and companies coincide, one with a cleaned description shorter than
    ten characters and one with ten characters or more, the two cleaned
    records share the deduplication key, the short one is rejected by the
    validator, and the output of the stage is the long one alone, in
    whichever order the two records arrive. *)
Theorem stage1_validates_then_dedupes (r1 r2 : dict) :
  str_field r1 "source" -> str_field r1 "type" ->
  str_field r2 "source" -> str_field r2 "type" ->
  normalize_job_title html_unescape (get r1 "title" (PStr ""))
    = normalize_job_title html_unescape (get r2 "title" (PStr "")) ->
  normalize_company_name html_unescape (get r1 "company" (PStr ""))
    = normalize_company_name html_unescape (get r2 "company" (PStr "")) ->
  (String.length (clean (get r1 "description" (PStr ""))) < 10)%nat ->
  (10 <= String.length (clean (get r2 "description" (PStr ""))))%nat ->
  exists c1 c2 : dict,
    clean_entry html_unescape r1 = Ok c1 /\ clean_entry html_unescape r2 = Ok c2
    /\ dedup_key c1 = dedup_key c2
    /\ validate_entry c1 = Ok false /\ validate_entry c2 = Ok true
    /\ c2 !! "description" = Some (PStr (clean (get r2 "description" (PStr ""))))
    /\ clean_data html_unescape [] [r1; r2] = Ok [c2]
    /\ clean_data html_unescape [] [r2; r1] = Ok [c2]
    /\ (forall raw : list dict,
          clean_data html_unescape [] raw =
          (cs <- map_result (clean_entry html_unescape) raw ;;
           remove_duplicates (filter (fun c => is_valid c = true) cs))).
Proof.
  intros S1 T1 S2 T2 Htitle Hcompany Hshort Hlong.
  destruct (clean_entry_total r1 S1 T1) as [c1 Hc1].
  destruct (clean_entry_total r2 S2 T2) as [c2 Hc2].
  exists c1, c2.
  pose proof (clean_entry_fields _ _ Hc1) as (F1t & F1c & F1d).
  pose proof (clean_entry_fields _ _ Hc2) as (F2t & F2c & F2d).
  pose proof (clean_entry_str_fields _ _ Hc1) as (K1t & K1c & _).
  pose proof (clean_entry_str_fields _ _ Hc2) as (K2t & K2c & _).
  assert (V1 : is_valid c1 = false).
  { rewrite (is_valid_cleaned _ _ Hc1). apply negb_false_iff, Nat.ltb_lt. lia. }
  assert (V2 : is_valid c2 = true).
  { rewrite (is_valid_cleaned _ _ Hc2). apply negb_true_iff, Nat.ltb_ge. lia. }
  split; [done|]. split; [done|]. split.
  { rewrite !dedup_key_ok by done.
    unfold key_of, key_title, key_company, get.
    by rewrite F1t, F1c, F2t, F2c, Htitle, Hcompany. }
  split.
  { rewrite (validate_cleaned _ _ Hc1). f_equal. apply negb_false_iff, Nat.ltb_lt. lia. }
  split.
  { rewrite (validate_cleaned _ _ Hc2). f_equal. apply negb_true_iff, Nat.ltb_ge. lia. }
  split; [done|].
  split; [|split; [|apply clean_data_filter_then_dedup]];
    rewrite clean_data_filter_then_dedup; simpl; rewrite Hc1, Hc2; simpl;
    rewrite !filter_cons, filter_nil, V1, V2; simpl;
    by apply remove_duplicates_one.
Qed.


Hypothesis html_unescape_plain :
  forall s, Str.contains "&" s = false -> html_unescape s = s.

(** On tidy text the cleaner only squeezes the runs of spaces. *)
Lemma clean_text_of_tidy s : tidy s = true -> clean (PStr s) = Str.squeeze s.
Proof.
  intros Ht. pose proof (squeeze_tidy s Ht) as Hq.
  unfold tidy in Ht, Hq. rewrite !andb_true_iff in Ht, Hq.
  destruct Ht as [[[H1 H2] H3] H4]. destruct Hq as [[[Q1 Q2] Q3] Q4].
  rewrite clean_text_str. destruct s as [|c s]; [done|]. cbn [Str.is_empty].
  rewrite html_unescape_plain.
  2:{ rewrite StrFacts.contains_char.
      by rewrite (proj1 (allowed_not "&" _ eq_refl H1)). }
  rewrite ReFacts.sub_tag_plain by apply (proj2 (allowed_not "<" _ eq_refl H1)).
  rewrite StrFacts.keep_all by done. by apply StrFacts.strip_clean.
Qed.

Lemma clean_text_twice v : clean (PStr (clean v)) = Str.squeeze (clean v).
Proof. apply clean_text_of_tidy, clean_text_tidy. Qed.

Lemma clean_text_twice_same v :
  clean (PStr (clean v)) = clean v <-> Str.contains "  " (clean v) = false.
Proof.
  rewrite clean_text_twice. apply SqueezeFacts.squeeze_fixed.
  pose proof (clean_text_tidy v) as H. unfold tidy in H.
  rewrite !andb_true_iff in H. tauto.
Qed.

Lemma clean_text_thrice v :
  clean (PStr (clean (PStr (clean v)))) = clean (PStr (clean v)).
Proof.
  rewrite (clean_text_twice (PStr (clean v))), clean_text_twice.
  apply SqueezeFacts.squeeze_from_idem.
Qed.

End CleanerFacts.

(** ** Deduplication *)

Section DedupFacts.

Implicit Types (data : list dict) (seen : gset string).

Lemma remove_duplicates_loop_eq data :
  Forall (fun item => str_field item "title" /\ str_field item "company") data ->
  forall seen acc,
    remove_duplicates_loop data seen acc = Ok (acc ++ first_occurrences seen data).
Proof.
  induction 1 as [|item data [Ht Hc] _ IH]; intros seen acc; simpl.
  - by rewrite app_nil_r.
  - rewrite (dedup_key_ok _ Ht Hc). simpl.
    destruct (decide (key_of item ∈ seen)); [apply IH|].
    rewrite IH. by rewrite <- app_assoc.
Qed.

Lemma first_occurrences_sublist data : forall seen,
  sublist (first_occurrences seen data) data.
Proof.
  induction data as [|item data IH]; intros seen; simpl; [constructor|].
  destruct (decide _); [apply sublist_cons | apply sublist_skip]; apply IH.
Qed.

Lemma first_occurrences_fresh data : forall seen item,
  item ∈ first_occurrences seen data -> key_of item ∉ seen.
Proof.
  induction data as [|x data IH]; intros seen item; simpl; [by intros ?%elem_of_nil|].
  destruct (decide (key_of x ∈ seen)); [apply IH|].
  intros [->|Hin]%elem_of_cons; [done|].
  apply IH in Hin. set_solver.
Qed.

Lemma first_occurrences_NoDup data : forall seen,
  NoDup (key_of <$> first_occurrences seen data).
Proof.
  induction data as [|x data IH]; intros seen; simpl; [constructor|].
  destruct (decide (key_of x ∈ seen)); [apply IH|].
  rewrite fmap_cons. constructor; [|apply IH].
  intros (item & Hk & Hin)%list_elem_of_fmap.
  apply first_occurrences_fresh in Hin. set_solver.
Qed.

Lemma first_occurrences_head data k : forall seen,
  head (filter (fun item => key_of item = k) (first_occurrences seen data)) =
  if decide (k ∈ seen) then None
  else head (filter (fun item => key_of item = k) data).
Proof.
  induction data as [|x data IH]; intros seen; simpl; [by destruct (decide _)|].
  rewrite (filter_cons _ x data).
  destruct (decide (key_of x ∈ seen)) as [Hx|Hx].
  - rewrite IH. destruct (decide (k ∈ seen)) as [|Hk]; [done|].
    rewrite decide_False; [done|]. intros <-. done.
  - rewrite filter_cons. destruct (decide (key_of x = k)) as [<-|Hne].
    + by rewrite decide_False.
    + rewrite IH. destruct (decide (k ∈ seen)).
      * rewrite decide_True; [done | apply elem_of_union; by left].
      * rewrite decide_False; [done|].
        intros [?|?%elem_of_singleton]%elem_of_union; [done | congruence].
Qed.

(** The joined key determines the title and the company when the titles
    have no underscore. *)
Lemma joined_key_split a b x y :
  Str.contains "_" a = false -> Str.contains "_" b = false ->
  a +:+ "_" +:+ x = b +:+ "_" +:+ y -> a = b /\ x = y.
Proof.
  rewrite !StrFacts.contains_char, !negb_false_iff. revert b.
  induction a as [|c a IH]; intros [|d b] Ha Hb H.
  - change (String "_" x = String "_" y) in H. by injection H as ->.
  - change (String "_" x = String d (b +:+ "_" +:+ y)) in H.
    injection H as <- _. by simpl in Hb.
  - change (String c (a +:+ "_" +:+ x) = String "_" y) in H.
    injection H as -> _. by simpl in Ha.
  - change (String c (a +:+ "_" +:+ x) = String d (b +:+ "_" +:+ y)) in H.
    injection H as -> H. simpl in Ha, Hb.
    apply andb_true_iff in Ha as [_ Ha]. apply andb_true_iff in Hb as [_ Hb].
    destruct (IH b Ha Hb H) as [-> ->]. done.
Qed.

Lemma filter_agree {A} (P Q1 Q2 : A -> Prop)
    `{!forall x, Decision (Q1 x)} `{!forall x, Decision (Q2 x)} (l : list A) :
  Forall P l -> (forall x, P x -> Q1 x <-> Q2 x) -> filter Q1 l = filter Q2 l.
Proof.
  intros Hl Hq. induction Hl as [|x l Hx _ IH]; [done|].
  rewrite !filter_cons, IH. pose proof (Hq x Hx) as Hiff.
  destruct (decide (Q1 x)) as [H1|H1], (decide (Q2 x)) as [H2|H2]; try done; tauto.
Qed.

Lemma pair_filter_key data (t c : string) :
  Forall (fun item => Str.contains "_" (key_title item) = false) data ->
  filter (fun item => (key_title item, key_company item) = (t, c)) data
  = if Str.contains "_" t then []
    else filter (fun item => key_of item = t +:+ "_" +:+ c) data.
Proof.
  intros Hdata. destruct (Str.contains "_" t) eqn:Ht.
  - rewrite (filter_agree _ _ (fun _ => False) data Hdata).
    + clear. induction data as [|x data IH]; [done|].
      rewrite filter_cons. by destruct (decide False).
    + intros x Hx. split; [|done]. intros [= <- _]. congruence.
  - apply (filter_agree _ _ _ data Hdata). intros x Hx. unfold key_of. split.
    + by intros [= -> ->].
    + intros [-> ->]%joined_key_split; done.
Qed.

(** C3, as the code has it.  On a sequence of records whose title and
    company are strings, [remove_duplicates] returns a subsequence of its
    input, in the input's order; the key of a record is its lowercased
    trimmed title and company joined by an underscore; no two records of
    the output have the same key (nor, then, the same lowercased trimmed
    title and company); and for every key the record kept is the first
    record of the input with that key, every later one being dropped.
    When no title has an underscore the key determines the title and the
    company, and the record kept for every (title, company) pair is the
    first record of the input with that pair.  On the three records A/X,
    a/x, B/Y it returns the two records A/X and B/Y. *)
Theorem remove_duplicates_keeps_first :
  (forall data,
     Forall (fun item => str_field item "title" /\ str_field item "company") data ->
     exists out,
       remove_duplicates data = Ok out
       /\ sublist out data
       /\ NoDup (key_of <$> out)
       /\ (forall k,
             head (filter (fun item => key_of item = k) out)
             = head (filter (fun item => key_of item = k) data))
       /\ (forall (i j : nat) a b,
             i <> j -> out !! i = Some a -> out !! j = Some b ->
             (key_title a, key_company a) <> (key_title b, key_company b))
       /\ (Forall (fun item => Str.contains "_" (key_title item) = false) data ->
           forall t c,
             head (filter (fun item => (key_title item, key_company item) = (t, c)) out)
             = head (filter (fun item => (key_title item, key_company item) = (t, c)) data)))
  /\ (forall item, key_of item = key_title item +:+ "_" +:+ key_company item)
  /\ (let r (t c : string) : dict := <["title" := PStr t]> (<["company" := PStr c]> ∅) in
      remove_duplicates [r "A" "X"; r "a" "x"; r "B" "Y"] = Ok [r "A" "X"; r "B" "Y"]).
Proof.
  split; [|split; [done | vm_compute; reflexivity]].
  intros data Hdata. exists (first_occurrences ∅ data).
  split; [apply (remove_duplicates_loop_eq data Hdata ∅ [])|].
  split; [apply first_occurrences_sublist|].
  pose proof (first_occurrences_NoDup data ∅) as Hnodup.
  assert (Hhead : forall k,
            head (filter (fun item => key_of item = k) (first_occurrences ∅ data))
            = head (filter (fun item => key_of item = k) data)).
  { intros k. rewrite first_occurrences_head. by rewrite decide_False by set_solver. }
  split; [done|]. split; [done|]. split.
  - intros i j a b Hij Ha Hb [= Ht Hc].
    apply Hij. eapply NoDup_lookup; [exact Hnodup| |].
    + rewrite list_lookup_fmap, Ha. reflexivity.
    + rewrite list_lookup_fmap, Hb. simpl. unfold key_of. by rewrite Ht, Hc.
  - intros Hplain t c.
    assert (Hout : Forall (fun item => Str.contains "_" (key_title item) = false)
                     (first_occurrences ∅ data)).
    { apply Forall_forall. intros x Hx. rewrite Forall_forall in Hplain. apply Hplain.
      eapply elem_of_sublist; [exact Hx | apply first_occurrences_sublist]. }
    rewrite !pair_filter_key by done. destruct (Str.contains "_" t); [done | apply Hhead].
Qed.

(** C3 as stated fails for the pair of title and company: a record that is
    the first, and the only one, of the input with its lowercased trimmed
    title and company is dropped when an earlier record has the same joined
    key. *)
Lemma remove_duplicates_drops_first_of_pair :
  (key_title sample_joined_second, key_company sample_joined_second)
    = ("data"%string, "engineer_acme"%string)
  /\ filter (fun item => (key_title item, key_company item)
                         = ("data"%string, "engineer_acme"%string)) sample_joined
     = [sample_joined_second]
  /\ remove_duplicates sample_joined = Ok [sample_joined_first]
  /\ (sample_joined_second ∉ [sample_joined_first])
  /\ dedup_key sample_joined_first = dedup_key sample_joined_second.
Proof.
  split; [vm_compute; reflexivity|].
  split; [vm_compute; reflexivity|].
  split; [vm_compute; reflexivity|].
  split; [|vm_compute; reflexivity].
  intros [H|H%elem_of_nil]%elem_of_cons; [|done].
  assert (key_title sample_joined_second = key_title sample_joined_first) as Hk
    by (by rewrite H).
  vm_compute in Hk. discriminate Hk.
Qed.

(** C10. Deduplication can merge records whose titles and companies
    differ: the key joins the lowercased trimmed title and company with
    an underscore, and the underscore is a word character, which the
    character filter of [clean_text] keeps.  Title "a_b" with company "c"
    and title "a" with company "b_c" are different pairs with the same key
    "a_b_c", and [remove_duplicates] drops the second record; the same
    happens to two raw records with these titles and companies that go
    through the whole first stage. *)
Theorem dedup_key_collision :
  let r (t c : string) : dict := <["title" := PStr t]> (<["company" := PStr c]> ∅) in
  let raw (t c : string) : dict :=
    <["description" := PStr "Builds data pipelines"]> (r t c) in
  (key_title (r "a_b" "c"), key_company (r "a_b" "c"))
    <> (key_title (r "a" "b_c"), key_company (r "a" "b_c"))
  /\ dedup_key (r "a_b" "c") = Ok "a_b_c"
  /\ dedup_key (r "a" "b_c") = Ok "a_b_c"
  /\ remove_duplicates [r "a_b" "c"; r "a" "b_c"] = Ok [r "a_b" "c"]
  /\ Char.is_word "_" = true
  /\ Re.sub Re.special "" "a_b" = "a_b"
  /\ clean_text Html.unescape (PStr "a_b") = "a_b"
  /\ map_ok title_company (clean_entry Html.unescape (raw "a_b" "c"))
     = Ok (PStr "A_B", PStr "C")
  /\ map_ok title_company (clean_entry Html.unescape (raw "a" "b_c"))
     = Ok (PStr "A", PStr "B_C")
  /\ (c <- clean_entry Html.unescape (raw "a" "b_c") ;; validate_entry c) = Ok true
  /\ map_ok (map title_company)
       (clean_data Html.unescape [] [raw "a_b" "c"; raw "a" "b_c"])
     = Ok [(PStr "A_B", PStr "C")].
Proof.
  cbv zeta.
  split; [vm_compute; discriminate|].
  repeat split; vm_compute; reflexivity.
Qed.

End DedupFacts.

(** ** The year pattern *)

Module YearFacts.

Lemma run_app (p : ascii -> bool) a b :
  Str.all p a = true -> Re.run p (a +:+ b) = (String.length a + Re.run p b)%nat.
Proof.
  induction a as [|c a IH]; simpl; [done|].
  rewrite andb_true_iff. intros [-> Ha]. by rewrite IH.
Qed.

Lemma drop_app a b : Re.drop (String.length a) (a +:+ b) = b.
Proof. induction a as [|c a IH]; simpl; [by destruct b | done]. Qed.

Lemma take_app a b : Re.take (String.length a) (a +:+ b) = a.
Proof. induction a as [|c a IH]; simpl; [by destruct b | by rewrite IH]. Qed.

Lemma take_drop n s : Re.take n s +:+ Re.drop n s = s.
Proof.
  revert s. induction n as [|n IH]; intros [|c s]; try done.
  cbn [Re.take Re.drop]. change (String c (Re.take n s +:+ Re.drop n s) = String c s).
  by rewrite IH.
Qed.

Lemma all_take_run p s : Str.all p (Re.take (Re.run p s) s) = true.
Proof.
  induction s as [|c s IH]; simpl; [done|].
  destruct (p c) eqn:Hc; simpl; [by rewrite Hc | done].
Qed.

Lemma run_stops (p : ascii -> bool) a (c : ascii) b :
  Str.all p a = true -> p c = false ->
  Re.run p (a +:+ String c b) = String.length a.
Proof.
  intros Ha Hc. rewrite run_app by done. simpl. rewrite Hc. lia.
Qed.

Lemma sep_not_digit c : year_sep c = true -> Char.is_digit c = false.
Proof.
  unfold year_sep. rewrite !orb_true_iff.
  intros [[->%CharFacts.eqb_eq | ->%CharFacts.eqb_eq] | Hs]; [done | done |].
  destruct (Char.is_digit c) eqn:Hd; [|done].
  assert (Char.is_word c = true) as Hw%CharFacts.word_not_space
    by (unfold Char.is_word; rewrite Hd; by rewrite orb_true_r).
  congruence.
Qed.

Lemma run_digits_then ds rest :
  Str.all Char.is_digit ds = true ->
  match rest with
  | EmptyString => True
  | String c _ => Char.is_digit c = false
  end ->
  Re.run Char.is_digit (ds +:+ rest) = String.length ds.
Proof.
  intros Hds Hrest. destruct rest as [|c rest].
  - rewrite run_app by done. simpl. lia.
  - by apply run_stops.
Qed.

(** A number, separators and the word [year] are matched as a whole, with
    the number as the group. *)
Lemma year_pattern_matches pw ds seps rest :
  ds <> EmptyString -> Str.all Char.is_digit ds = true -> Str.all year_sep seps = true ->
  year_pattern pw (ds +:+ seps +:+ "year" +:+ rest) =
  Some ((String.length ds + String.length seps + 4
         + (if Str.starts_with "s" rest then 1 else 0))%nat, ds).
Proof.
  intros Hne Hds Hseps. unfold year_pattern.
  assert (Hnd : Re.run Char.is_digit (ds +:+ seps +:+ "year" +:+ rest) = String.length ds).
  { apply run_digits_then; [done|]. destruct seps as [|c seps]; [done|].
    simpl in Hseps. apply andb_true_iff in Hseps as [Hc _]. by apply sep_not_digit. }
  rewrite Hnd, drop_app, take_app.
  change ("year" +:+ rest) with (String "y" ("ear" +:+ rest)).
  rewrite (run_stops year_sep seps "y" ("ear" +:+ rest)) by done.
  rewrite drop_app. destruct ds as [|d ds]; [done|]. reflexivity.
Qed.

(** Whatever the pattern matches is a number, separators and the word
    [year], and the group is the number. *)
Lemma length_take_run p s : String.length (Re.take (Re.run p s) s) = Re.run p s.
Proof.
  induction s as [|c s IH]; simpl; [done|].
  destruct (p c); simpl; [by rewrite IH | done].
Qed.

Lemma year_pattern_sound pw s n group :
  year_pattern pw s = Some (n, group) ->
  exists seps rest,
    s = group +:+ seps +:+ "year" +:+ rest
    /\ group <> EmptyString /\ Str.all Char.is_digit group = true
    /\ Str.all year_sep seps = true
    /\ n = (String.length group + String.length seps + 4
            + (if Str.starts_with "s" rest then 1 else 0))%nat.
Proof.
  unfold year_pattern.
  pose proof (take_drop (Re.run Char.is_digit s) s) as Hs.
  pose proof (all_take_run Char.is_digit s) as Hdig.
  pose proof (length_take_run Char.is_digit s) as Hlen.
  set (ds := Re.take (Re.run Char.is_digit s) s) in *.
  set (rest1 := Re.drop (Re.run Char.is_digit s) s) in *.
  pose proof (take_drop (Re.run year_sep rest1) rest1) as Hr.
  pose proof (all_take_run year_sep rest1) as Hsep.
  pose proof (length_take_run year_sep rest1) as Hlen'.
  set (seps := Re.take (Re.run year_sep rest1) rest1) in *.
  set (rest2 := Re.drop (Re.run year_sep rest1) rest1) in *.
  destruct (Re.run Char.is_digit s) as [|k] eqn:Hnd; [done|].
  destruct (Str.starts_with "year" rest2) eqn:Hy; [|done].
  apply StrFacts.starts_with_spec in Hy as [rest Hrest].
  intros [= <- <-]. exists seps, rest.
  split; [by rewrite <- Hrest, Hr|].
  split; [intros He; by rewrite He in Hlen|].
  split; [done|]. split; [done|].
  rewrite Hlen, Hlen', Hrest. reflexivity.
Qed.

(** Two ways of cutting one text: one of the first parts is a prefix of the
    other. *)
Lemma append_split a b pre x :
  a +:+ b = pre +:+ x ->
  (exists m, pre = a +:+ m /\ b = m +:+ x)
  \/ (exists c m, a = pre +:+ String c m /\ x = String c m +:+ b).
Proof.
  revert pre. induction a as [|ca a IH]; intros pre H.
  - left. by exists pre.
  - destruct pre as [|cp pre].
    + right. exists ca, a. by split.
    + rewrite !append_cons in H. injection H as -> H.
      apply IH in H as [(m & -> & ->)|(c & m & -> & ->)]; [left | right]; eauto.
Qed.

Lemma ends_nondigit_tail c s : ends_nondigit (String c s) = true -> ends_nondigit s = true.
Proof. by destruct s. Qed.

Lemma ends_nondigit_all s :
  ends_nondigit s = true -> Str.all Char.is_digit s = true -> s = EmptyString.
Proof.
  induction s as [|c s IH]; [done|]. intros He. simpl. rewrite andb_true_iff. intros [Hc Hs].
  pose proof (IH (ends_nondigit_tail _ _ He) Hs) as ->. simpl in He. by rewrite Hc in He.
Qed.

(** A match that starts before a number, in text that does not run into the
    number with a digit, ends before the number. *)
Lemma year_pattern_within pw pre (d : ascii) x n group :
  pre <> EmptyString -> ends_nondigit pre = true -> Char.is_digit d = true ->
  year_pattern pw (pre +:+ String d x) = Some (n, group) ->
  (n <= String.length pre)%nat.
Proof.
  intros Hne Hend Hd (seps & rest & Hs & _ & Hg & Hseps & ->)%year_pattern_sound.
  symmetry in Hs. apply append_split in Hs as [(m1 & -> & H1)|(c & m & -> & _)].
  2:{ rewrite all_app in Hg. apply andb_true_iff in Hg as [Hg _].
      by pose proof (ends_nondigit_all _ Hend Hg). }
  apply append_split in H1 as [(m2 & -> & H2)|(c & m & -> & [= <- _])].
  2:{ rewrite all_app in Hseps. apply andb_true_iff in Hseps as [_ Hc]. simpl in Hc.
      apply andb_true_iff in Hc as [Hc%sep_not_digit _]. congruence. }
  apply (append_split "year") in H2 as [(m3 & -> & ->)|(c & m & Hy & [= <- _])].
  2:{ assert (Hall : Str.all (fun c => negb (Char.is_digit c)) "year" = true) by done.
      rewrite Hy, all_app in Hall. apply andb_true_iff in Hall as [_ Hc]. simpl in Hc.
      by rewrite Hd in Hc. }
  rewrite !length_append.
  assert ((if Str.starts_with "s" (m3 +:+ String d x) then 1 else 0) <= String.length m3)%nat.
  { destruct m3 as [|c m3]; [|simpl; destruct (_ && _); lia].
    simpl. destruct (Char.eqb "s" d) eqn:He; [|simpl; lia].
    apply CharFacts.eqb_eq in He. subst d. discriminate Hd. }
  change (String.length "year") with 4%nat. lia.
Qed.

(** Every group that [findall] returns is the group of a match of the
    pattern at some position of the text. *)
Lemma findall_scan_sound {A} (m : Re.matcher A) s : forall skip pw a,
  a ∈ Re.findall_scan m skip pw s ->
  exists pre suffix pw' n, s = pre +:+ suffix /\ m pw' suffix = Some (n, a).
Proof.
  induction s as [|c s IH]; intros skip pw a; simpl; [by intros ?%elem_of_nil|].
  assert (Hrest : forall k b, a ∈ Re.findall_scan m k b s ->
            exists pre suffix pw' n, String c s = pre +:+ suffix /\ m pw' suffix = Some (n, a)).
  { intros k b (pre & suffix & pw' & n & -> & Hm)%IH.
    exists (String c pre), suffix, pw', n. by split. }
  destruct skip as [|k]; [|apply Hrest].
  destruct (m pw (String c s)) as [[[|k] b]|] eqn:Hm; try apply Hrest.
  intros [->|Hin]%elem_of_cons; [|by eapply Hrest].
  exists EmptyString, (String c s), pw, (S k). by split.
Qed.

Lemma findall_year_sound s group :
  group ∈ Re.findall year_pattern s ->
  exists pre seps rest,
    s = pre +:+ group +:+ seps +:+ "year" +:+ rest
    /\ group <> EmptyString /\ Str.all Char.is_digit group = true
    /\ Str.all year_sep seps = true.
Proof.
  intros (pre & suffix & pw & n & -> & Hm)%findall_scan_sound.
  apply year_pattern_sound in Hm as (seps & rest & -> & H1 & H2 & H3 & _).
  by exists pre, seps, rest.
Qed.

(** Every number of the text that is followed by separators and [year] is
    returned: no earlier match runs into it. *)
Lemma findall_year_complete_from ds seps rest :
  ds <> EmptyString -> Str.all Char.is_digit ds = true -> Str.all year_sep seps = true ->
  forall pre skip pw,
    (skip <= String.length pre)%nat -> ends_nondigit pre = true ->
    ds ∈ Re.findall_scan year_pattern skip pw (pre +:+ ds +:+ seps +:+ "year" +:+ rest).
Proof.
  intros Hne Hds Hseps.
  pose proof (fun pw => year_pattern_matches pw ds seps rest Hne Hds Hseps) as Hm.
  destruct ds as [|d ds]; [done|].
  assert (Hd : Char.is_digit d = true) by (simpl in Hds; by apply andb_true_iff in Hds as [? _]).
  set (tail := seps +:+ "year" +:+ rest) in *.
  induction pre as [|c pre IH]; intros skip pw Hskip Hend.
  - simpl in Hskip. assert (skip = 0%nat) as -> by lia.
    change (EmptyString +:+ String d ds +:+ tail) with (String d (ds +:+ tail)).
    cbn [Re.findall_scan]. change (String d (ds +:+ tail)) with (String d ds +:+ tail).
    rewrite Hm. replace (String.length (String d ds) + String.length seps + 4 +
                         (if Str.starts_with "s" rest then 1 else 0))%nat
      with (S (String.length ds + String.length seps + 4 +
               (if Str.starts_with "s" rest then 1 else 0)))%nat by (simpl; lia).
    apply list_elem_of_here.
  - rewrite append_cons. cbn [Re.findall_scan].
    pose proof (ends_nondigit_tail _ _ Hend) as Hend'.
    destruct skip as [|k]; [|apply IH; [simpl in Hskip; lia | done]].
    rewrite <- append_cons.
    destruct (year_pattern pw (String c pre +:+ String d ds +:+ tail))
      as [[[|k] g]|] eqn:Hy; try (apply IH; [lia | done]).
    apply list_elem_of_further, IH; [|done].
    change (String d ds +:+ tail) with (String d (ds +:+ tail)) in Hy.
    apply year_pattern_within in Hy; [simpl in Hy; lia | done | done | done].
Qed.

Lemma findall_year_complete pre ds seps rest :
  ds <> EmptyString -> Str.all Char.is_digit ds = true -> Str.all year_sep seps = true ->
  ends_nondigit pre = true ->
  ds ∈ Re.findall year_pattern (pre +:+ ds +:+ seps +:+ "year" +:+ rest).
Proof.
  intros H1 H2 H3 H4. apply findall_year_complete_from; [done | done | done | lia | done].
Qed.

(** *** Numbers *)





Lemma int_of_digits_Ok matches :
  Forall (fun group => (String.length group <= int_max_str_digits)%nat) matches ->
  map_result int_of_digits matches = Ok (digits_value <$> matches).
Proof.
  induction 1 as [|g matches Hg _ IH]; [done|]. cbn [map_result]. unfold int_of_digits at 1.
  destruct (Nat.ltb_spec int_max_str_digits (String.length g)) as [?|_]; [lia|].
  cbn [bind]. by rewrite IH.
Qed.

Lemma int_of_digits_raises matches :
  Exists (fun group => (int_max_str_digits < String.length group)%nat) matches ->
  map_result int_of_digits matches = Raise ValueError.
Proof.
  induction matches as [|g matches IH]; [by intros ?%Exists_nil|].
  intros Hex. cbn [map_result]. unfold int_of_digits at 1.
  destruct (Nat.ltb_spec int_max_str_digits (String.length g)) as [?|Hle]; [done|].
  cbn [bind]. apply Exists_cons in Hex as [?|Hex]; [lia|]. by rewrite (IH Hex).
Qed.

End YearFacts.

(** ** The annotator *)

Section AnnotatorFacts.

Implicit Types (table : list (string * list string)) (text : string).

Lemma any_keyword_occurs keywords text :
  any_keyword keywords text = true <-> occurs keywords text.
Proof.
  unfold occurs. induction keywords as [|k ks IH]; simpl.
  - split; [done | by intros (? & ?%elem_of_nil & _)].
  - destruct (Str.contains k text) eqn:Hk.
    + split; [|done]. intros _. exists k. split; [apply list_elem_of_here | done].
    + rewrite IH. split.
      * intros (kw & Hin & Hkw). exists kw. split; [by apply list_elem_of_further | done].
      * intros (kw & [->|Hin]%elem_of_cons & Hkw); [congruence | eauto].
Qed.

Lemma contains_any_occurs keywords text :
  Str.contains_any keywords text = true <-> occurs keywords text.
Proof.
  unfold Str.contains_any, occurs. rewrite existsb_exists.
  split; intros (kw & Hin & Hkw); exists kw; (split; [|done]);
    by apply list_elem_of_In.
Qed.

(** The nested loops return the first entry of the table, in its order,
    with a keyword in the text. *)
Lemma first_category_Some table text category :
  first_category table text = Some category <-> first_match table text category.
Proof.
  unfold first_match. split.
  - revert category. induction table as [|[c kws] table IH]; intros category; simpl; [done|].
    destruct (any_keyword kws text) eqn:Hk.
    + intros [= <-]. exists 0%nat, kws. split; [done|].
      split; [by apply any_keyword_occurs | intros; lia].
    + intros (i & kws' & Hi & Hocc & Hfirst)%IH. exists (S i), kws'.
      split; [done|]. split; [done|].
      intros [|j] c' kws'' Hj; simpl.
      * intros [= <- <-]. rewrite <- any_keyword_occurs. congruence.
      * apply Hfirst. lia.
  - intros (i & kws & Hi & Hocc & Hfirst). revert i Hi Hfirst.
    induction table as [|[c kws0] table IH]; intros i Hi Hfirst; [done|].
    simpl. destruct i as [|i]; simpl in Hi.
    + injection Hi as -> ->. by rewrite (proj2 (any_keyword_occurs _ _) Hocc).
    + destruct (any_keyword kws0 text) eqn:Hk.
      * exfalso. apply (Hfirst 0%nat c kws0); [lia | done | by apply any_keyword_occurs].
      * apply (IH i Hi). intros j c' kws' Hj Hlook.
        apply (Hfirst (S j) c' kws'); [lia | done].
Qed.

Lemma first_category_None table text :
  first_category table text = None <-> no_match table text.
Proof.
  unfold no_match. induction table as [|[c kws] table IH]; simpl.
  - split; [by intros _ ? ? ?%elem_of_nil | done].
  - destruct (any_keyword kws text) eqn:Hk.
    + split; [done|]. intros H. exfalso.
      apply (H c kws); [apply list_elem_of_here | by apply any_keyword_occurs].
    + rewrite IH. split.
      * intros H c' kws' [[= -> ->]|Hin]%elem_of_cons; [|by apply (H c' kws')].
        rewrite <- any_keyword_occurs. congruence.
      * intros H c' kws' Hin. apply (H c' kws'). by apply list_elem_of_further.
Qed.

Lemma first_category_in table text category :
  first_category table text = Some category -> category ∈ table.*1.
Proof.
  induction table as [|[c kws] table IH]; simpl; [done|].
  destruct (any_keyword kws text).
  - intros [= <-]. apply list_elem_of_here.
  - intros H. apply list_elem_of_further. by apply IH.
Qed.

Lemma classify_experience_level_str text :
  classify_experience_level (PStr text) =
  match first_category experience_keywords (Str.lower text) with
  | Some level => Ok level
  | None => level_of_years (Str.lower text)
  end.
Proof. by destruct text as [|c text]. Qed.


Lemma level_of_years_raises text_lower :
  (exists group, group ∈ Re.findall year_pattern text_lower
                 /\ (int_max_str_digits < String.length group)%nat) ->
  level_of_years text_lower = Raise ValueError.
Proof.
  intros (g & Hg & Hlong). unfold level_of_years.
  rewrite YearFacts.int_of_digits_raises by (apply Exists_exists; by exists g).
  by destruct (Re.findall year_pattern text_lower); [apply elem_of_nil in Hg|].
Qed.

Lemma level_of_years_range text_lower level :
  level_of_years text_lower = Ok level ->
  level ∈ ["Entry Level"; "Mid Level"; "Senior Level"; "Not Specified"].
Proof.
  unfold level_of_years. destruct (Re.findall year_pattern text_lower) as [|g matches].
  - intros [= <-]. repeat first [apply list_elem_of_here | apply list_elem_of_further].
  - destruct (map_result int_of_digits (g :: matches)) as [numbers|]; [|done].
    cbn [bind]. intros [= <-].
    destruct (_ <=? 2); [|destruct (_ <=? 5)];
      repeat first [apply list_elem_of_here | apply list_elem_of_further].
Qed.

(** The conversion is the only step of the numeric part that can fail. *)
Lemma level_of_years_cases text_lower :
  (exists level, level_of_years text_lower = Ok level)
  \/ (level_of_years text_lower = Raise ValueError
      /\ exists group, group ∈ Re.findall year_pattern text_lower
                       /\ (int_max_str_digits < String.length group)%nat).
Proof.
  destruct (Forall_Exists_dec
              (fun group => (String.length group <= int_max_str_digits)%nat)
              (fun group => (int_max_str_digits < String.length group)%nat)
              (fun group => le_lt_dec (String.length group) int_max_str_digits)
              (Re.findall year_pattern text_lower)) as [Hall|Hex].
  - left. unfold level_of_years. rewrite YearFacts.int_of_digits_Ok by done.
    destruct (Re.findall year_pattern text_lower); by eexists.
  - right. apply Exists_exists in Hex as (g & Hg & Hlong).
    assert (exists group, group ∈ Re.findall year_pattern text_lower
                          /\ (int_max_str_digits < String.length group)%nat) as Hex
      by (by exists g).
    split; [by apply level_of_years_raises | done].
Qed.

(** Lower-casing leaves the digits of a text where they are. *)
Lemma map_split (f : ascii -> ascii) s : forall a b,
  Str.map f s = a +:+ b ->
  exists a' b', s = a' +:+ b' /\ Str.map f a' = a /\ Str.map f b' = b.
Proof.
  induction s as [|c s IH]; intros a b H.
  - destruct a; [|done]. destruct b; [|done]. by exists EmptyString, EmptyString.
  - destruct a as [|x a].
    + exists EmptyString, (String c s). by split.
    + rewrite append_cons in H. simpl in H. injection H as <- H.
      apply IH in H as (a' & b' & -> & <- & <-). by exists (String c a'), b'.
Qed.

Lemma lower_digit c : Char.is_digit (Char.to_lower c) = true -> Char.to_lower c = c.
Proof. unfold Char.to_lower. destruct (Char.is_upper c) eqn:Hu; [|done].
  revert Hu. destruct c as [[] [] [] [] [] [] [] []]; vm_compute; discriminate.
Qed.

Lemma lower_digits s : Str.all Char.is_digit (Str.lower s) = true -> Str.lower s = s.
Proof.
  unfold Str.lower. induction s as [|c s IH]; [done|]. simpl.
  rewrite andb_true_iff. intros [Hc Hs]. by rewrite (lower_digit c Hc), (IH Hs).
Qed.

Lemma digits_lower s : Str.all Char.is_digit s = true -> Str.lower s = s.
Proof.
  unfold Str.lower. induction s as [|c s IH]; [done|]. simpl.
  rewrite andb_true_iff. intros [Hc Hs]. rewrite (IH Hs). f_equal.
  unfold Char.to_lower. destruct (Char.is_upper c) eqn:Hu; [|done].
  revert Hc Hu. destruct c as [[] [] [] [] [] [] [] []]; vm_compute; congruence.
Qed.

Lemma substring_lower_digits digits s :
  Str.all Char.is_digit digits = true -> substring digits (Str.lower s) -> substring digits s.
Proof.
  intros Hd (a & b & H). unfold Str.lower in H.
  apply map_split in H as (a' & r & -> & <- & H).
  apply map_split in H as (d' & b' & -> & <- & <-).
  exists a', b'. fold (Str.lower d'). by rewrite (lower_digits d' Hd).
Qed.

(** A text without an over-long number has no over-long match. *)
Lemma short_numbers_short_matches s :
  (forall digits, Str.all Char.is_digit digits = true -> substring digits s ->
     (String.length digits <= int_max_str_digits)%nat) ->
  forall group, group ∈ Re.findall year_pattern (Str.lower s) ->
    (String.length group <= int_max_str_digits)%nat.
Proof.
  intros Hshort g (pre & seps & rest & Hs & _ & Hg & _)%YearFacts.findall_year_sound.
  apply Hshort; [done|]. apply substring_lower_digits; [done|].
  exists pre, (seps +:+ "year" +:+ rest). by rewrite Hs.
Qed.

(** Keywords in a number followed by [tail]: a keyword that starts with a
    letter can only occur in [tail]; one that starts with a digit followed
    by a sign occurs nowhere when [tail] starts with a space. *)
Lemma contains_after_digits keyword digits tail :
  Str.all Char.is_digit digits = true ->
  starts_nondigit keyword = true ->
  Str.contains keyword (digits +:+ tail) = Str.contains keyword tail.
Proof.
  intros Hd Hk. destruct keyword as [|k keyword]; [done|]. simpl in Hk.
  induction digits as [|d digits IH]; [done|].
  simpl in Hd. apply andb_true_iff in Hd as [Hd Hds].
  rewrite append_cons. cbn [Str.contains Str.starts_with]. rewrite (IH Hds).
  destruct (Char.eqb k d) eqn:He; [|done].
  apply CharFacts.eqb_eq in He. subst k. by rewrite Hd in Hk.
Qed.

Lemma contains_signed_in_digits keyword digits tail :
  Str.all Char.is_digit digits = true ->
  sign_second keyword = true ->
  Str.contains keyword (String " " tail) = false ->
  Str.contains keyword (digits +:+ String " " tail) = false.
Proof.
  intros Hd Hk Ht. destruct keyword as [|k [|k2 keyword]]; [done | done |].
  simpl in Hk. apply andb_true_iff in Hk as [Hk2 Hsp].
  induction digits as [|d digits IH]; [done|].
  simpl in Hd. apply andb_true_iff in Hd as [Hd Hds].
  rewrite append_cons. cbn [Str.contains]. rewrite (IH Hds), orb_false_r.
  cbn [Str.starts_with]. apply andb_false_intro2.
  destruct digits as [|d2 digits].
  - simpl. apply andb_false_intro1. by apply negb_true_iff.
  - rewrite append_cons. simpl. apply andb_false_intro1.
    simpl in Hds. apply andb_true_iff in Hds as [Hd2 _].
    destruct (Char.eqb k2 d2) eqn:He; [|done].
    apply CharFacts.eqb_eq in He. subst k2. by rewrite Hd2 in Hk2.
Qed.

Lemma any_keyword_in_number keywords digits tail :
  Str.all Char.is_digit digits = true ->
  forallb (fun keyword => (starts_nondigit keyword || sign_second keyword)
                          && negb (Str.contains keyword (String " " tail))) keywords = true ->
  any_keyword keywords (digits +:+ String " " tail) = false.
Proof.
  intros Hd. induction keywords as [|k keywords IH]; [done|]. cbn [forallb any_keyword].
  rewrite !andb_true_iff, negb_true_iff, orb_true_iff. intros [[Hk Ht] Hks].
  rewrite (IH Hks). destruct Hk as [Hk|Hk].
  - by rewrite contains_after_digits, Ht.
  - by rewrite contains_signed_in_digits.
Qed.

Lemma long_number_raises digits :
  Str.all Char.is_digit digits = true ->
  (int_max_str_digits < String.length digits)%nat ->
  classify_experience_level (PStr (digits +:+ " years")) = Raise ValueError.
Proof.
  intros Hd Hlong. rewrite classify_experience_level_str, lower_app, (digits_lower _ Hd).
  change (Str.lower " years") with " years".
  assert (first_category experience_keywords (digits +:+ " years") = None) as ->.
  { unfold experience_keywords, first_category.
    rewrite !any_keyword_in_number by (done || (vm_compute; reflexivity)). done. }
  apply level_of_years_raises. exists digits. split; [|done].
  apply (YearFacts.findall_year_complete EmptyString digits " " "s"); try done.
  intros ->. simpl in Hlong. lia.
Qed.


(** C5. [classify_content_type] follows the chain: (a) source
    "StackOverflow" gives "Interview Question"; (b) otherwise source
    "Reddit" with "advice", "help" or "career" in the lowercased title and
    description gives "Career Advice"; (c) otherwise the first entry of the
    content-type table (Job Description, Interview Question, Career
    Advice, Technical Discussion, Company Info) with a keyword in the text
    is returned; (d) otherwise "apply", "position" or "hiring" in the text
    gives "Job Description"; (e) otherwise a question mark in the title
    gives "Interview Question"; (f) otherwise the result is "Technical
    Discussion". *)
Theorem classify_content_type_chain (title description source : string) :
  let combined := Str.lower (title +:+ " " +:+ description) in
  let forum_advice :=
    source = "Reddit" /\ occurs ["advice"; "help"; "career"] combined in
  let result := classify_content_type title description source in
  content_types.*1 = ["Job Description"; "Interview Question"; "Career Advice";
                      "Technical Discussion"; "Company Info"]
  /\ (source = "StackOverflow" -> result = "Interview Question")
  /\ (source <> "StackOverflow" -> forum_advice -> result = "Career Advice")
  /\ (source <> "StackOverflow" -> ~ forum_advice ->
      forall category, first_match content_types combined category -> result = category)
  /\ (source <> "StackOverflow" -> ~ forum_advice -> no_match content_types combined ->
      occurs ["apply"; "position"; "hiring"] combined -> result = "Job Description")
  /\ (source <> "StackOverflow" -> ~ forum_advice -> no_match content_types combined ->
      ~ occurs ["apply"; "position"; "hiring"] combined ->
      Str.contains "?" title = true -> result = "Interview Question")
  /\ (source <> "StackOverflow" -> ~ forum_advice -> no_match content_types combined ->
      ~ occurs ["apply"; "position"; "hiring"] combined ->
      Str.contains "?" title = false -> result = "Technical Discussion").
Proof.
  cbv zeta. unfold classify_content_type.
  set (combined := Str.lower (title +:+ " " +:+ description)).
  split; [done|]. split.
  { intros ->. reflexivity. }
  assert (Hso : source <> "StackOverflow" -> String.eqb source "StackOverflow" = false)
    by (intros H; by apply String.eqb_neq).
  assert (Hforum : ~ (source = "Reddit" /\ occurs ["advice"; "help"; "career"] combined) ->
                   String.eqb source "Reddit"
                   && Str.contains_any ["advice"; "help"; "career"] combined = false).
  { intros H. apply not_true_is_false. intros [H1 H2]%andb_true_iff. apply H.
    split; [by apply String.eqb_eq | by apply contains_any_occurs]. }
  repeat split.
  - intros Hs [-> Hocc]. rewrite (Hso Hs). cbn [String.eqb Ascii.eqb Bool.eqb andb].
    by rewrite (proj2 (contains_any_occurs _ _) Hocc).
  - intros Hs Hf category Hm. rewrite (Hso Hs), (Hforum Hf).
    apply first_category_Some in Hm. by rewrite Hm.
  - intros Hs Hf Hn%first_category_None Hocc. rewrite (Hso Hs), (Hforum Hf), Hn.
    by rewrite (proj2 (contains_any_occurs _ _) Hocc).
  - intros Hs Hf Hn%first_category_None Hocc Hq. rewrite (Hso Hs), (Hforum Hf), Hn, Hq.
    destruct (Str.contains_any ["apply"; "position"; "hiring"] combined) eqn:Hc; [|done].
    by apply contains_any_occurs in Hc.
  - intros Hs Hf Hn%first_category_None Hocc Hq. rewrite (Hso Hs), (Hforum Hf), Hn, Hq.
    destruct (Str.contains_any ["apply"; "position"; "hiring"] combined) eqn:Hc; [|done].
    by apply contains_any_occurs in Hc.
Qed.

End AnnotatorFacts.

(** ** The relevance score *)

Section ScoreFacts.

Local Open Scope Q_scope.

Lemma ratio_nonneg (n : nat) (d : positive) : 0 <= inject_Z (Z.of_nat n) / inject_Z (Zpos d).
Proof. unfold Qle, Qdiv, Qmult, Qinv, inject_Z. simpl. lia. Qed.

Lemma ratio_mono (m n : nat) (d : positive) :
  (m <= n)%nat ->
  inject_Z (Z.of_nat m) / inject_Z (Zpos d) <= inject_Z (Z.of_nat n) / inject_Z (Zpos d).
Proof. intros H. unfold Qle, Qdiv, Qmult, Qinv, inject_Z. simpl. nia. Qed.

Lemma relevance_bounds found len : 0 <= relevance found len <= 1.
Proof.
  unfold relevance. split; [|apply Q.le_min_r].
  apply Q.min_glb; [|done].
  replace 0 with (0 + 0) by reflexivity. apply Qplus_le_compat.
  - apply Q.min_glb; [apply (ratio_nonneg found 10) | done].
  - apply Q.min_glb; [apply (ratio_nonneg len 1000) | done].
Qed.

Lemma relevance_mono found1 found2 len :
  (found1 <= found2)%nat -> relevance found1 len <= relevance found2 len.
Proof.
  intros H. unfold relevance.
  apply Q.min_le_compat_r, Qplus_le_compat; [|apply Qle_refl].
  apply Q.min_le_compat_r, (ratio_mono found1 found2 10 H).
Qed.

Lemma calculate_relevance_score_str (text : string) :
  exists q, calculate_relevance_score (PStr text) = Ok q
            /\ q == relevance (found_keywords (Str.lower text)) (String.length text).
Proof.
  destruct text as [|c text].
  - exists 0. split; [reflexivity|]. vm_compute. reflexivity.
  - eexists. split; [reflexivity|]. apply Qeq_refl.
Qed.

(** The keywords counted by the program are the listed keywords that are
    substrings of the lowercased text, each once. *)
Lemma found_keywords_counted text_lower (found : list string) :
  NoDup found ->
  (forall keyword, keyword ∈ found <->
     keyword ∈ tech_keywords /\ substring keyword text_lower) ->
  length found = found_keywords text_lower.
Proof.
  intros Hnd Hmem. unfold found_keywords. apply Permutation_length, NoDup_Permutation.
  - done.
  - apply NoDup_filter. apply (bool_decide_unpack _). vm_compute. exact I.
  - intros k. rewrite Hmem, list_elem_of_filter. unfold substring.
    rewrite <- StrFacts.contains_spec. tauto.
Qed.

Lemma found_keywords_listed text_lower :
  let found := filter (fun keyword => Str.contains keyword text_lower = true) tech_keywords in
  NoDup found
  /\ forall keyword, keyword ∈ found <->
       keyword ∈ tech_keywords /\ substring keyword text_lower.
Proof.
  cbv zeta. split.
  - apply NoDup_filter. apply (bool_decide_unpack _). vm_compute. exact I.
  - intros k. rewrite list_elem_of_filter. unfold substring.
    rewrite <- StrFacts.contains_spec. tauto.
Qed.

(** C6. For every text the relevance score is
    [min(min(count / 10, 1) + min(length / 1000, 0.2), 1)], where [count]
    is the number of the nineteen technology keywords that are substrings
    of the lowercased text, each counted once; it lies between 0 and 1;
    for two texts of the same length it is monotone in the keyword count;
    and it is 0 for the empty text and for an absent one. *)
Theorem relevance_score_spec (text text' : string) :
  let keywords :=
    [ "software"; "developer"; "engineer"; "programming"; "code"; "development";
      "python"; "java"; "javascript"; "react"; "node"; "api"; "database";
      "cloud"; "aws"; "docker"; "git"; "algorithm"; "data structure" ]%string in
  let counted (t : string) (found : list string) :=
    NoDup found
    /\ forall keyword, keyword ∈ found <->
         keyword ∈ keywords /\ substring keyword (Str.lower t) in
  exists q q',
    calculate_relevance_score (PStr text) = Ok q
    /\ calculate_relevance_score (PStr text') = Ok q'
    /\ (exists found, counted text found)
    /\ (forall found, counted text found ->
          q == Qmin (Qmin (inject_Z (Z.of_nat (length found)) / 10) 1
                     + Qmin (inject_Z (Z.of_nat (String.length text)) / 1000) (2 / 10)) 1)
    /\ 0 <= q <= 1
    /\ (forall found found', counted text found -> counted text' found' ->
          String.length text = String.length text' ->
          (length found <= length found')%nat -> q <= q')
    /\ calculate_relevance_score (PStr "") = Ok 0
    /\ calculate_relevance_score PNone = Ok 0.
Proof.
  cbv zeta. fold tech_keywords.
  destruct (calculate_relevance_score_str text) as (q & Hq & Eq).
  destruct (calculate_relevance_score_str text') as (q' & Hq' & Eq').
  exists q, q'. split; [done|]. split; [done|]. split.
  { eexists. apply found_keywords_listed. }
  split.
  { intros found [Hnd Hmem]. rewrite Eq, (found_keywords_counted _ _ Hnd Hmem).
    reflexivity. }
  split; [rewrite Eq; apply relevance_bounds|]. split; [|by split].
  intros found found' [Hnd Hmem] [Hnd' Hmem'] Hlen Hcount.
  rewrite Eq, Eq', Hlen. apply relevance_mono.
  by rewrite <- (found_keywords_counted _ _ Hnd Hmem),
             <- (found_keywords_counted _ _ Hnd' Hmem').
Qed.

End ScoreFacts.

(** ** Fallbacks on empty, absent and non-string input *)

Section Fallbacks.

Context (html_unescape : string -> string).

(** C9, as the code has it.  [clean_text], [normalize_job_title] and
    [normalize_company_name] return the empty string and their sentinels
    on every empty, absent or non-string input.  [extract_skills],
    [classify_experience_level] and [calculate_relevance_score] return the
    empty collection, "Not Specified" and 0 on every input that is empty
    or absent (any value Python counts as false); on a non-string value
    that Python counts as true they raise [AttributeError]: they test
    [not text] only and then call [text.lower()].  On every string
    [extract_skills] and [calculate_relevance_score] return a result;
    [classify_experience_level] returns one of its five labels or raises
    [ValueError], it returns a label on every string without a number of
    more than [int_max_str_digits] digits, and it raises [ValueError] on
    every such number followed by " years". *)
Theorem fallbacks_on_bad_input (v : pyval) :
  (truthy v = false \/ is_str v = false ->
     clean_text html_unescape v = EmptyString
     /\ normalize_job_title html_unescape v = "Unknown Position"
     /\ normalize_company_name html_unescape v = "Unknown Company")
  /\ (truthy v = false ->
        extract_skills v = Ok ∅
        /\ classify_experience_level v = Ok "Not Specified"
        /\ calculate_relevance_score v = Ok 0%Q)
  /\ (truthy v = true -> is_str v = false ->
        extract_skills v = Raise AttributeError
        /\ classify_experience_level v = Raise AttributeError
        /\ calculate_relevance_score v = Raise AttributeError)
  /\ (is_str v = true ->
        (exists skills, extract_skills v = Ok skills)
        /\ ((exists level,
               classify_experience_level v = Ok level
               /\ level ∈ ["Entry Level"; "Mid Level"; "Senior Level"; "Management";
                           "Not Specified"])
            \/ classify_experience_level v = Raise ValueError)
        /\ ((forall digits, Str.all Char.is_digit digits = true ->
               substring digits (text_of v) ->
               (String.length digits <= int_max_str_digits)%nat) ->
            exists level, classify_experience_level v = Ok level)
        /\ (exists score, calculate_relevance_score v = Ok score))
  /\ (forall digits, Str.all Char.is_digit digits = true ->
        (int_max_str_digits < String.length digits)%nat ->
        classify_experience_level (PStr (digits +:+ " years")) = Raise ValueError)
  /\ int_max_str_digits = 4300%nat.
Proof.
  split; [|split; [|split; [|split; [|split]]]].
  - intros H.
    assert (Hg : negb (truthy v) || negb (is_str v) = true).
    { destruct H as [-> | ->]; [done | by rewrite orb_true_r]. }
    unfold clean_text, normalize_job_title, normalize_company_name.
    by rewrite Hg.
  - intros H. unfold extract_skills, classify_experience_level,
      calculate_relevance_score. by rewrite H.
  - intros Ht Hs. unfold extract_skills, classify_experience_level,
      calculate_relevance_score. rewrite Ht.
    by destruct v.
  - intros Hs. destruct v as [| | |s|]; try done.
    split; [|split; [|split]].
    + unfold extract_skills. destruct (negb (truthy (PStr s))); [by eexists|].
      cbn [py_lower bind]. by eexists.
    + rewrite classify_experience_level_str.
      destruct (first_category experience_keywords (Str.lower s)) as [level|] eqn:Hc.
      * left. exists level. split; [done|].
        apply first_category_in in Hc.
        change (experience_keywords.*1)
          with ["Entry Level"; "Mid Level"; "Senior Level"; "Management"] in Hc.
        apply elem_of_cons in Hc as [->|Hc]; [pick_member|].
        apply elem_of_cons in Hc as [->|Hc]; [pick_member|].
        apply elem_of_cons in Hc as [->|Hc]; [pick_member|].
        apply elem_of_cons in Hc as [->|Hc]; [pick_member|].
        by apply elem_of_nil in Hc.
      * destruct (level_of_years_cases (Str.lower s)) as [[level Hl]|[Hl _]];
          [left | by right].
        exists level. split; [done|]. apply level_of_years_range in Hl.
        apply elem_of_cons in Hl as [->|Hl]; [pick_member|].
        apply elem_of_cons in Hl as [->|Hl]; [pick_member|].
        apply elem_of_cons in Hl as [->|Hl]; [pick_member|].
        apply elem_of_cons in Hl as [->|Hl]; [pick_member|].
        by apply elem_of_nil in Hl.
    + intros Hshort. rewrite classify_experience_level_str.
      destruct (first_category experience_keywords (Str.lower s)); [by eexists|].
      destruct (level_of_years_cases (Str.lower s)) as [Hl|[_ (g & Hg & Hlong)]]; [done|].
      pose proof (short_numbers_short_matches s Hshort g Hg). lia.
    + destruct (calculate_relevance_score_str s) as (q & Hq & _). eauto.
  - apply long_number_raises.
  - reflexivity.
Qed.

End Fallbacks.

(** * Closed instances *)

(** C1: the cleaner is not idempotent.  The plus sign of "Java + Python" is
    removed after the white space has been collapsed, which leaves two
    adjacent spaces; cleaning the result once more collapses them. *)
Theorem clean_text_not_idempotent :
  clean_text Html.unescape (PStr "Java + Python") = "Java  Python"
  /\ clean_text Html.unescape (PStr "Java  Python") = "Java Python"
  /\ clean_text Html.unescape (PStr (clean_text Html.unescape (PStr "Java + Python")))
     <> clean_text Html.unescape (PStr "Java + Python").
Proof. vm_compute. repeat split. discriminate. Qed.


(** C9 as stated fails: a non-string value that counts as true makes the
    three annotator functions raise. *)
Lemma annotator_raises_on_non_string :
  is_str (PInt 5) = false
  /\ extract_skills (PInt 5) = Raise AttributeError
  /\ classify_experience_level (PList [PStr "senior"]) = Raise AttributeError
  /\ calculate_relevance_score (PBool true) = Raise AttributeError.
Proof. vm_compute. repeat split. Qed.

Lemma stage1_validates_then_dedupes_witness :
  exists c2 : dict,
    clean_data Html.unescape [] [sample_short; sample_long] = Ok [c2]
    /\ clean_data Html.unescape [] [sample_long; sample_short] = Ok [c2]
    /\ c2 !! "description" = Some (PStr "Builds and maintains data pipelines").
Proof.
  assert (Hshort : (String.length (clean_text Html.unescape
                      (get sample_short "description" (PStr ""))) < 10)%nat)
    by (vm_compute; lia).
  assert (Hlong : (10 <= String.length (clean_text Html.unescape
                      (get sample_long "description" (PStr ""))))%nat)
    by (vm_compute; lia).
  assert (S1 : str_field sample_short "source") by (vm_compute; exact I).
  assert (T1 : str_field sample_short "type") by (vm_compute; exact I).
  assert (S2 : str_field sample_long "source") by (vm_compute; exact I).
  assert (T2 : str_field sample_long "type") by (vm_compute; exact I).
  assert (Ht : normalize_job_title Html.unescape (get sample_short "title" (PStr ""))
               = normalize_job_title Html.unescape (get sample_long "title" (PStr "")))
    by (vm_compute; reflexivity).
  assert (Hc : normalize_company_name Html.unescape (get sample_short "company" (PStr ""))
               = normalize_company_name Html.unescape (get sample_long "company" (PStr "")))
    by (vm_compute; reflexivity).
  destruct (stage1_validates_then_dedupes Html.unescape sample_short sample_long
              S1 T1 S2 T2 Ht Hc Hshort Hlong)
    as (c1 & c2 & _ & _ & _ & _ & _ & Hd & H12 & H21 & _).
  exists c2. split; [exact H12|]. split; [exact H21|exact Hd].
Defined.

Lemma remove_duplicates_keeps_first_witness :
  exists out,
    remove_duplicates sample_titles = Ok out /\ NoDup (key_of <$> out)
    /\ head (filter (fun item => (key_title item, key_company item)
                                 = ("a"%string, "x"%string)) out)
       = head sample_titles.
Proof.
  assert (Hstr : Forall (fun item => str_field item "title" /\ str_field item "company")
                   sample_titles)
    by (repeat (constructor; [split; vm_compute; exact I|]); constructor).
  assert (Hplain : Forall (fun item => Str.contains "_" (key_title item) = false)
                     sample_titles)
    by (repeat (constructor; [vm_compute; reflexivity|]); constructor).
  destruct (proj1 remove_duplicates_keeps_first sample_titles Hstr)
    as (out & Hout & _ & Hnodup & _ & _ & Hpair).
  exists out. split; [exact Hout|]. split; [exact Hnodup|].
  rewrite (Hpair Hplain "a"%string "x"%string). vm_compute. reflexivity.
Defined.


Lemma classify_content_type_chain_witness :
  classify_content_type "Anything" "at all" "StackOverflow" = "Interview Question"
  /\ classify_content_type "Rust" "memory model" "HackerNews" = "Technical Discussion".
Proof.
  split.
  - apply (proj1 (proj2 (classify_content_type_chain "Anything" "at all" "StackOverflow"))).
    reflexivity.
  - apply (proj2 (proj2 (proj2 (proj2 (proj2 (proj2
             (classify_content_type_chain "Rust" "memory model" "HackerNews"))))))).
    + discriminate.
    + intros [H _]. discriminate H.
    + apply first_category_None. reflexivity.
    + intros H%contains_any_occurs. discriminate H.
    + reflexivity.
Defined.

Lemma relevance_score_spec_witness :
  exists q q',
    calculate_relevance_score (PStr "Python code") = Ok q
    /\ calculate_relevance_score (PStr "Plain words") = Ok q'
    /\ (q == 211 # 1000)%Q /\ (q' <= q)%Q.
Proof.
  destruct (relevance_score_spec "Plain words" "Python code")
    as (q' & q & H' & H & _ & _ & _ & Hmono & _).
  destruct (relevance_score_spec "Python code" "Plain words")
    as (q0 & _ & H0 & _ & _ & Hvalue & _).
  rewrite H in H0. injection H0 as <-.
  exists q, q'. split; [exact H|]. split; [exact H'|].
  assert (Hnone : forall keyword : string,
            keyword ∈ [] <->
            keyword ∈ tech_keywords /\ substring keyword (Str.lower "Plain words")).
  { intros k. split; [by intros ?%elem_of_nil|]. intros [Hk Hs].
    apply StrFacts.contains_spec in Hs. exfalso. revert Hs.
    repeat (apply elem_of_cons in Hk as [->|Hk]; [vm_compute; discriminate|]).
    by apply elem_of_nil in Hk. }
  assert (Htwo : forall keyword : string,
            keyword ∈ ["code"; "python"]%string <->
            keyword ∈ tech_keywords /\ substring keyword (Str.lower "Python code")).
  { intros k. split.
    - intros [->|[->|?%elem_of_nil]%elem_of_cons]%elem_of_cons; [| |done];
        (split; [pick_member | apply StrFacts.contains_spec; vm_compute; reflexivity]).
    - intros [Hk Hs]. apply StrFacts.contains_spec in Hs. revert Hs.
      repeat (apply elem_of_cons in Hk as [->|Hk];
              [first [by (intros _; pick_member) | vm_compute; discriminate]|]).
      by apply elem_of_nil in Hk. }
  assert (Hnd : NoDup ["code"; "python"]%string)
    by (apply (bool_decide_unpack _); vm_compute; exact I).
  split.
  - rewrite (Hvalue ["code"; "python"]%string (conj Hnd Htwo)). vm_compute. reflexivity.
  - apply (Hmono [] ["code"; "python"]%string (conj (NoDup_nil_2) Hnone) (conj Hnd Htwo));
      [reflexivity | simpl; lia].
Defined.

Lemma validate_entry_spec_witness :
  validate_entry sample_long = Ok true
  /\ validate_entry (record [("title", "Data Engineer"); ("description", "short")]) = Ok false.
Proof.
  split.
  - assert (Ft : str_field sample_long "title") by (vm_compute; exact I).
    assert (Fc : str_field sample_long "company") by (vm_compute; exact I).
    assert (Fd : str_field sample_long "description") by (vm_compute; exact I).
    destruct (validate_entry_spec sample_long Ft Fc Fd) as (b & Hb & _ & _ & Hacc & _).
    rewrite Hb. f_equal. apply Hacc; [vm_compute; discriminate | vm_compute; lia].
  - set (entry := record [("title", "Data Engineer"); ("description", "short")]).
    assert (Ft : str_field entry "title") by (vm_compute; exact I).
    assert (Fc : str_field entry "company") by (vm_compute; exact I).
    assert (Fd : str_field entry "description") by (vm_compute; exact I).
    destruct (validate_entry_spec entry Ft Fc Fd) as (b & Hb & _ & Hrej & _).
    rewrite Hb. f_equal. apply Hrej. vm_compute; lia.
Defined.


Lemma fallbacks_on_bad_input_witness :
  clean_text Html.unescape (PInt 5) = EmptyString
  /\ extract_skills PNone = Ok ∅
  /\ classify_experience_level (PInt 5) = Raise AttributeError
  /\ exists level, classify_experience_level (PStr "3 years") = Ok level.
Proof.
  split; [|split; [|split]].
  - apply (proj1 (fallbacks_on_bad_input Html.unescape (PInt 5))). right. reflexivity.
  - apply (proj1 (proj2 (fallbacks_on_bad_input Html.unescape PNone))). reflexivity.
  - apply (proj1 (proj2 (proj2 (fallbacks_on_bad_input Html.unescape (PInt 5)))));
      reflexivity.
  - apply (proj1 (proj2 (proj2 (proj1 (proj2 (proj2 (proj2
             (fallbacks_on_bad_input Html.unescape (PStr "3 years"))))) eq_refl)))).
    intros digits _ (a & b & E). apply (f_equal String.length) in E.
    rewrite !length_append in E. cbn [text_of String.length] in E.
    apply Nat.leb_le. destruct (Nat.leb_spec (String.length digits) 7) as [H|H]; [|lia].
    apply Nat.leb_le. transitivity 7%nat; [exact H|].
    apply Nat.leb_le. vm_compute. reflexivity.
Defined.

(** * Further properties of the cleaner *)

Section CleanerMore.

Context (html_unescape : string -> string).

Local Abbreviation clean := (clean_text html_unescape).


(** X3. A normalised title and a normalised company name are never empty
    and carry no leading or trailing white space, whatever the input. *)
Theorem normalized_names_shape (v : pyval) :
  normalize_job_title html_unescape v <> EmptyString
  /\ Str.strip (normalize_job_title html_unescape v) = normalize_job_title html_unescape v
  /\ normalize_company_name html_unescape v <> EmptyString
  /\ Str.strip (normalize_company_name html_unescape v)
     = normalize_company_name html_unescape v.
Proof.
  pose proof (normalize_job_title_nonempty html_unescape v) as Ht.
  pose proof (normalize_company_name_nonempty html_unescape v) as Hc.
  repeat split.
  - intros He. by rewrite He in Ht.
  - apply normalize_job_title_stripped.
  - intros He. by rewrite He in Hc.
  - apply normalize_company_name_stripped.
Qed.

Hypothesis html_unescape_plain :
  forall s, Str.contains "&" s = false -> html_unescape s = s.

(** X2. When the decoder leaves text without an ampersand unchanged (as
    [html.unescape] does), cleaning a cleaned text only squeezes its runs
    of spaces: the second pass changes nothing exactly when the cleaned
    text has no two adjacent spaces, and a third pass never changes
    anything. *)
Theorem clean_text_second_pass (v : pyval) :
  clean (PStr (clean v)) = Str.squeeze (clean v)
  /\ (clean (PStr (clean v)) = clean v <-> Str.contains "  " (clean v) = false)
  /\ clean (PStr (clean (PStr (clean v)))) = clean (PStr (clean v)).
Proof.
  split; [by apply clean_text_twice|].
  split; [by apply clean_text_twice_same | by apply clean_text_thrice].
Qed.

End CleanerMore.

Lemma clean_text_second_pass_witness :
  clean_text Html.unescape (PStr (clean_text Html.unescape (PStr "C++ & C# developer")))
  = Str.squeeze (clean_text Html.unescape (PStr "C++ & C# developer")).
Proof.
  apply (proj1 (clean_text_second_pass Html.unescape Html_unescape_plain
                  (PStr "C++ & C# developer"))).
Defined.

(** * Errors and invariants of validation and deduplication *)

#[local] Set Warnings "-clear-no-such-hyp".

Section DedupMore.

Implicit Types (data : list dict) (seen : gset string) (item entry : dict).

Lemma str_field_cases (d : dict) key default :
  (str_field d key /\ exists s, get d key (PStr default) = PStr s)
  \/ (~ str_field d key /\ is_str (get d key (PStr default)) = false).
Proof.
  unfold str_field, get. destruct (d !! key) as [[| | |s|]|]; eauto.
Qed.

Lemma py_strip_not_str v : is_str v = false -> py_strip v = Raise AttributeError.
Proof. by destruct v. Qed.

Lemma py_lower_not_str v : is_str v = false -> py_lower v = Raise AttributeError.
Proof. by destruct v. Qed.

Lemma dedup_key_not_keyed item : ~ keyed item -> dedup_key item = Raise AttributeError.
Proof.
  intros Hk. unfold dedup_key.
  destruct (str_field_cases item "title" "") as [[Ht [t Et]]|[Ht Et]].
  - rewrite Et. simpl.
    destruct (str_field_cases item "company" "") as [[Hc _]|[Hc Ec]].
    + by destruct Hk.
    + by rewrite (py_lower_not_str _ Ec).
  - by rewrite (py_lower_not_str _ Et).
Qed.

Lemma keyed_cases item : keyed item \/ ~ keyed item.
Proof.
  unfold keyed.
  destruct (str_field_cases item "title" "") as [[Ht _]|[Ht _]];
    destruct (str_field_cases item "company" "") as [[Hc _]|[Hc _]]; tauto.
Qed.

Lemma remove_duplicates_loop_raises data :
  Exists (fun item => ~ keyed item) data ->
  forall seen acc, remove_duplicates_loop data seen acc = Raise AttributeError.
Proof.
  induction data as [|item data IH]; intros Hex seen acc; [by inversion Hex|].
  simpl. destruct (keyed_cases item) as [[Ht Hc]|Hk].
  - rewrite (dedup_key_ok _ Ht Hc). simpl.
    assert (Exists (fun item => ~ keyed item) data) as Hrest.
    { inversion Hex as [? ? Hbad|]; [|done]. exfalso. apply Hbad. by split. }
    destruct (decide _); by apply IH.
  - by rewrite (dedup_key_not_keyed _ Hk).
Qed.

Lemma Forall_or_Exists_keyed data :
  Forall keyed data \/ Exists (fun item => ~ keyed item) data.
Proof.
  induction data as [|item data [IH|IH]].
  - left. constructor.
  - destruct (keyed_cases item); [left | right]; by constructor.
  - right. by apply Exists_cons_tl.
Qed.

Lemma remove_duplicates_Ok data out :
  remove_duplicates data = Ok out ->
  Forall keyed data /\ out = first_occurrences ∅ data.
Proof.
  intros H. destruct (Forall_or_Exists_keyed data) as [Hk|Hbad].
  - split; [done|].
    unfold remove_duplicates in H.
    rewrite (remove_duplicates_loop_eq data Hk ∅ []) in H. by injection H as <-.
  - unfold remove_duplicates in H.
    by rewrite (remove_duplicates_loop_raises data Hbad) in H.
Qed.

(** X4. [validate_entry] strips the title, the company and the
    description before it decides: it returns a boolean when the three are
    strings or absent, and raises [AttributeError] as soon as one of them,
    the company included, is present and not a string. *)
Theorem validate_entry_errors entry :
  (str_field entry "title" /\ str_field entry "company"
   /\ str_field entry "description" ->
   exists b : bool, validate_entry entry = Ok b)
  /\ (~ (str_field entry "title" /\ str_field entry "company"
         /\ str_field entry "description") ->
      validate_entry entry = Raise AttributeError).
Proof.
  unfold validate_entry.
  destruct (str_field_cases entry "title" "") as [[Ht [t Et]]|[Ht Et]];
    [|split; [tauto | by rewrite (py_strip_not_str _ Et)]].
  destruct (str_field_cases entry "company" "") as [[Hc [c Ec]]|[Hc Ec]];
    [|split; [tauto | by rewrite Et, (py_strip_not_str _ Ec)]].
  destruct (str_field_cases entry "description" "") as [[Hd [d Ed]]|[Hd Ed]];
    [|split; [tauto | by rewrite Et, Ec, (py_strip_not_str _ Ed)]].
  split; [|tauto]. intros _. rewrite Et, Ec, Ed. simpl.
  destruct (Str.is_empty _); [by eexists|]. destruct (_ <? _)%nat; by eexists.
Qed.

(** X5. [remove_duplicates] builds the key of every record of its input:
    it returns a list when the title and company of every record are
    strings or absent, and raises [AttributeError] when some record, even
    a duplicate that would be dropped, has a title or company that is not
    a string. *)
Theorem remove_duplicates_errors data :
  (Forall keyed data -> exists out, remove_duplicates data = Ok out)
  /\ (Exists (fun item => ~ keyed item) data ->
      remove_duplicates data = Raise AttributeError).
Proof.
  split.
  - intros Hk. eexists. apply (remove_duplicates_loop_eq data Hk ∅ []).
  - intros Hbad. by apply remove_duplicates_loop_raises.
Qed.

Lemma first_occurrences_app data1 data2 : forall seen,
  first_occurrences seen (data1 ++ data2) =
  first_occurrences seen data1
  ++ first_occurrences (seen ∪ list_to_set (key_of <$> data1)) data2.
Proof.
  induction data1 as [|item data1 IH]; intros seen; simpl.
  - f_equal. set_solver.
  - destruct (decide (key_of item ∈ seen)) as [Hin|Hin].
    + rewrite IH. do 2 f_equal. set_solver.
    + rewrite IH. simpl. do 3 f_equal. set_solver.
Qed.

Lemma first_occurrences_all_seen data : forall seen,
  (forall item, item ∈ data -> key_of item ∈ seen) ->
  first_occurrences seen data = [].
Proof.
  induction data as [|item data IH]; intros seen Hseen; simpl; [done|].
  rewrite decide_True by (apply Hseen; apply list_elem_of_here).
  apply IH. intros x Hx. apply Hseen. by apply list_elem_of_further.
Qed.

Lemma first_occurrences_fixed data : forall seen,
  NoDup (key_of <$> data) ->
  (forall item, item ∈ data -> key_of item ∉ seen) ->
  first_occurrences seen data = data.
Proof.
  induction data as [|item data IH]; intros seen Hnd Hfresh; simpl; [done|].
  rewrite fmap_cons in Hnd. apply NoDup_cons in Hnd as [Hitem Hnd].
  rewrite decide_False by (apply Hfresh; apply list_elem_of_here).
  f_equal. apply IH; [done|].
  intros x Hx [Hin|Heq%elem_of_singleton]%elem_of_union.
  - apply (Hfresh x); [by apply list_elem_of_further | done].
  - apply Hitem. rewrite <- Heq. apply list_elem_of_fmap. by exists x.
Qed.

Lemma first_occurrences_keys data : forall seen k,
  k ∈ seen \/ k ∈ (key_of <$> first_occurrences seen data)
  <-> k ∈ seen \/ k ∈ (key_of <$> data).
Proof.
  induction data as [|item data IH]; intros seen k; cbn [first_occurrences]; [done|].
  destruct (decide (key_of item ∈ seen)) as [Hin|Hin].
  - rewrite IH, fmap_cons, elem_of_cons. split; [tauto|].
    intros [?|[->|?]]; tauto.
  - rewrite !fmap_cons, !elem_of_cons.
    specialize (IH (seen ∪ {[key_of item]}) k).
    rewrite !elem_of_union, !elem_of_singleton in IH. tauto.
Qed.

Lemma first_occurrences_length data : forall seen,
  (length (first_occurrences seen data) <= length data)%nat.
Proof.
  induction data as [|item data IH]; intros seen; simpl; [done|].
  destruct (decide _); simpl; [specialize (IH seen) | specialize (IH (seen ∪ {[key_of item]}))]; lia.
Qed.

(** X6. What [remove_duplicates] returns has no duplicates left: applying
    it again returns the same list.  The result is never longer than the
    input, and it is empty only for the empty input. *)
Theorem remove_duplicates_idempotent data out :
  remove_duplicates data = Ok out ->
  remove_duplicates out = Ok out
  /\ (length out <= length data)%nat
  /\ (out = [] <-> data = []).
Proof.
  intros [Hk ->]%remove_duplicates_Ok.
  assert (Hsub : sublist (first_occurrences ∅ data) data)
    by apply first_occurrences_sublist.
  split; [|split].
  - unfold remove_duplicates. rewrite remove_duplicates_loop_eq.
    + simpl. f_equal. apply first_occurrences_fixed.
      * apply first_occurrences_NoDup.
      * intros item _. set_solver.
    + eapply Forall_forall. intros item Hin.
      eapply Forall_forall in Hk; [exact Hk|].
      by eapply elem_of_sublist.
  - apply first_occurrences_length.
  - split; [|by intros ->].
    destruct data as [|item data]; [done|]. simpl.
    by rewrite decide_False by set_solver.
Qed.

End DedupMore.

(** * The first stage as a whole *)

Section StageOne.

Context (html_unescape : string -> string).

Local Abbreviation clean := (clean_text html_unescape).
Local Abbreviation clean_one := (clean_entry html_unescape).

Implicit Types (raw : list dict) (r c : dict).

Lemma map_result_Ok {A B} (f : A -> result B) (l : list A) (ys : list B) :
  map_result f l = Ok ys -> Forall2 (fun x y => f x = Ok y) l ys.
Proof.
  revert ys. induction l as [|x l IH]; intros ys; simpl.
  - intros [= <-]. constructor.
  - destruct (f x) as [y|] eqn:Hx; simpl; [|done].
    destruct (map_result f l) as [ys'|]; simpl; [|done].
    intros [= <-]. constructor; [done | by apply IH].
Qed.



Lemma map_clean_entry_total raw :
  Forall labelled raw -> exists cs, map_result clean_one raw = Ok cs.
Proof.
  induction 1 as [|r raw [Hs Ht] _ [cs IH]]; simpl; [by eexists|].
  destruct (clean_entry_total html_unescape r Hs Ht) as [c ->]. simpl.
  rewrite IH. simpl. by eexists.
Qed.


Lemma clean_entry_dom r c : clean_one r = Ok c -> dom c = cleaned_fields.
Proof.
  unfold clean_entry.
  destruct (py_strip (get r "source" (PStr "Unknown"))) as [src|]; [|done].
  destruct (py_strip (get r "type" (PStr "job"))) as [ty|]; [|done].
  simpl. intros [= <-]. rewrite !dom_insert_L, dom_empty_L.
  unfold cleaned_fields. set_solver.
Qed.

Lemma clean_entry_score r c :
  clean_one r = Ok c ->
  c !! "score" = Some match r !! "score" with
                      | Some PNone | None => PInt 0
                      | Some v => v
                      end.
Proof.
  unfold clean_entry.
  destruct (py_strip (get r "source" (PStr "Unknown"))) as [src|]; [|done].
  destruct (py_strip (get r "type" (PStr "job"))) as [ty|]; [|done].
  simpl. intros [= <-].
  repeat (rewrite lookup_insert_ne by done). by rewrite lookup_insert_eq.
Qed.

Lemma clean_data_from acc raw :
  clean_data html_unescape acc raw =
  (cs <- map_result clean_one raw ;;
   remove_duplicates (acc ++ filter (fun c => is_valid c = true) cs)).
Proof.
  unfold clean_data. rewrite clean_loop_filter.
  by destruct (map_result clean_one raw).
Qed.

Lemma cleaned_keyed raw cs :
  map_result clean_one raw = Ok cs ->
  Forall keyed (filter (fun c => is_valid c = true) cs).
Proof.
  intros H%map_result_Ok. apply Forall_forall. intros c [_ Hc]%list_elem_of_filter.
  destruct (proj1 (list_elem_of_lookup cs c) Hc) as [i Hi].
  destruct (Forall2_lookup_r _ _ _ _ _ H Hi) as (r & _ & Hr).
  destruct (clean_entry_str_fields _ _ _ Hr) as (? & ? & _). by split.
Qed.

(** X7. Every record that [clean_data] returns (from a fresh cleaner) is
    the cleaning of some raw entry, has exactly the six keys source, title,
    company, description, type and score, passes the validator, has a
    non-empty title and company, a description of ten characters or more
    and a score that is not [None]; no two returned records have the same
    key, and there are at most as many as raw entries. *)
Theorem clean_data_output raw out :
  clean_data html_unescape [] raw = Ok out ->
  (length out <= length raw)%nat
  /\ NoDup (key_of <$> out)
  /\ Forall (fun c =>
       (exists r, r ∈ raw /\ clean_one r = Ok c)
       /\ dom c = cleaned_fields
       /\ validate_entry c = Ok true
       /\ (exists title company description : string,
             c !! "title" = Some (PStr title) /\ title <> EmptyString
             /\ c !! "company" = Some (PStr company) /\ company <> EmptyString
             /\ c !! "description" = Some (PStr description)
             /\ (10 <= String.length description)%nat)
       /\ (exists score, c !! "score" = Some score /\ score <> PNone)) out.
Proof.
  rewrite clean_data_from. simpl.
  destruct (map_result clean_one raw) as [cs|] eqn:Hcs; simpl; [|done].
  intros [Hk ->]%remove_duplicates_Ok.
  pose proof (map_result_Ok _ _ _ Hcs) as Hall.
  set (valid := filter (fun c => is_valid c = true) cs) in *.
  assert (Hsub : sublist (first_occurrences ∅ valid) valid)
    by apply first_occurrences_sublist.
  split; [|split].
  - pose proof (sublist_length _ _ Hsub) as H1.
    pose proof (length_filter (fun c => is_valid c = true) cs) as H2.
    pose proof (Forall2_length _ _ _ Hall) as H3. fold valid in H2. lia.
  - apply first_occurrences_NoDup.
  - apply Forall_forall. intros c Hc.
    pose proof (elem_of_sublist _ _ _ Hc Hsub) as [Hv Hin]%list_elem_of_filter.
    destruct (proj1 (list_elem_of_lookup cs c) Hin) as [i Hi].
    destruct (Forall2_lookup_r _ _ _ _ _ Hall Hi) as (r & Hri & Hr).
    pose proof (clean_entry_fields _ _ _ Hr) as (Ft & Fc & Fd).
    rewrite (is_valid_cleaned _ _ _ Hr) in Hv.
    apply negb_true_iff, Nat.ltb_ge in Hv.
    split; [exists r; split; [by eapply list_elem_of_lookup_2 | done]|].
    split; [by eapply clean_entry_dom|].
    split.
    { rewrite (validate_cleaned _ _ _ Hr). f_equal.
      by apply negb_true_iff, Nat.ltb_ge. }
    split.
    { do 3 eexists. split; [exact Ft|]. split.
      { intros He. pose proof (normalize_job_title_nonempty html_unescape
                                 (get r "title" (PStr ""))) as Hne.
        by rewrite He in Hne. }
      split; [exact Fc|]. split.
      { intros He. pose proof (normalize_company_name_nonempty html_unescape
                                 (get r "company" (PStr ""))) as Hne.
        by rewrite He in Hne. }
      split; [exact Fd | exact Hv]. }
    eexists. split; [by eapply clean_entry_score|].
    by destruct (r !! "score") as [[]|].
Qed.

Lemma clean_data_total raw :
  Forall labelled raw -> exists out, clean_data html_unescape [] raw = Ok out.
Proof.
  rewrite clean_data_from. simpl.
  intros [cs Hcs]%map_clean_entry_total. rewrite Hcs. simpl.
  eexists. apply remove_duplicates_loop_eq. by eapply cleaned_keyed.
Qed.



(** X9. The cleaner keeps its records between calls.  Cleaning the same
    raw data a second time with the same cleaner returns the same records
    once more, and cleaning other raw data keeps the earlier records, in
    their order, in front of the new ones. *)
Theorem clean_data_again raw out :
  clean_data html_unescape [] raw = Ok out ->
  clean_data html_unescape out raw = Ok out
  /\ forall raw' out', clean_data html_unescape out raw' = Ok out' -> out `prefix_of` out'.
Proof.
  rewrite clean_data_from. simpl.
  destruct (map_result clean_one raw) as [cs|] eqn:Hcs; simpl; [|done].
  intros [Hk ->]%remove_duplicates_Ok.
  set (valid := filter (fun c => is_valid c = true) cs) in *.
  set (out := first_occurrences ∅ valid).
  assert (Hfix : first_occurrences ∅ out = out).
  { apply first_occurrences_fixed; [apply first_occurrences_NoDup|].
    intros item _. set_solver. }
  assert (Hout : Forall keyed out).
  { apply Forall_forall. intros item Hin. eapply Forall_forall in Hk; [exact Hk|].
    eapply elem_of_sublist; [exact Hin | apply first_occurrences_sublist]. }
  split.
  - rewrite clean_data_from, Hcs. simpl. fold valid.
    unfold remove_duplicates.
    rewrite remove_duplicates_loop_eq by (by apply Forall_app).
    simpl. f_equal. rewrite first_occurrences_app, Hfix.
    rewrite first_occurrences_all_seen; [by rewrite app_nil_r|].
    intros item Hin. apply elem_of_union. right. apply elem_of_list_to_set.
    pose proof (first_occurrences_keys valid ∅ (key_of item)) as Hkeys.
    destruct (proj2 Hkeys) as [Hempty|Hkey]; [|set_solver|done].
    right. apply list_elem_of_fmap. by exists item.
  - intros raw' out'. rewrite clean_data_from.
    destruct (map_result clean_one raw') as [cs'|]; simpl; [|done].
    intros [_ ->]%remove_duplicates_Ok.
    rewrite first_occurrences_app, Hfix. by eexists.
Qed.

End StageOne.

(** * The raw data file *)

Section RawData.

Implicit Types (jobs_data : list dict) (entry : dict) (fields : gset string).

Lemma normalized_entry_lookup fields entry (key : string) :
  normalized_entry fields entry !! key =
  if decide (key ∈ fields) then Some (get entry key (PStr "")) else None.
Proof.
  unfold normalized_entry. destruct (decide (key ∈ fields)) as [Hin|Hout].
  - apply lookup_set_to_map; [by intros y y' _ _ [=]|]. by exists key.
  - apply eq_None_not_Some. intros [v Hv].
    apply lookup_set_to_map in Hv as (y & Hy & [= -> _]); [done|].
    by intros y y' _ _ [=].
Qed.

Lemma normalized_entry_dom fields entry : dom (normalized_entry fields entry) = fields.
Proof.
  apply set_eq. intros key. rewrite elem_of_dom, normalized_entry_lookup.
  destruct (decide (key ∈ fields)); [by split; eauto | split; [by intros [? ?] | done]].
Qed.

Lemma normalized_entry_same entry : normalized_entry (dom entry) entry = entry.
Proof.
  apply map_eq. intros key. rewrite normalized_entry_lookup.
  destruct (decide (key ∈ dom entry)) as [Hin|Hout].
  - apply elem_of_dom in Hin as [v Hv]. unfold get. by rewrite Hv.
  - symmetry. by apply not_elem_of_dom.
Qed.

Lemma all_fields_covers jobs_data entry :
  entry ∈ jobs_data -> dom entry ⊆ all_fields jobs_data.
Proof.
  intros Hin key Hkey. apply elem_of_union_list. exists (dom entry).
  split; [|done]. apply list_elem_of_fmap. by exists entry.
Qed.

(** X10. After [save_raw_data] every stored entry has the same keys, the
    union of the keys of all collected entries; a key the entry had keeps
    its value and a key it lacked holds the empty string.  The number of
    entries, which is the value returned, does not change. *)
Theorem save_raw_data_schema jobs_data :
  let (stored, count) := save_raw_data jobs_data in
  count = length jobs_data
  /\ length stored = length jobs_data
  /\ forall (i : nat) entry,
       jobs_data !! i = Some entry ->
       exists entry',
         stored !! i = Some entry'
         /\ dom entry' = all_fields jobs_data
         /\ entry ⊆ entry'
         /\ forall key, key ∈ all_fields jobs_data -> entry !! key = None ->
                        entry' !! key = Some (PStr "").
Proof.
  unfold save_raw_data. rewrite length_fmap. split; [done|]. split; [done|].
  intros i entry Hi. exists (normalized_entry (all_fields jobs_data) entry).
  split; [by rewrite list_lookup_fmap, Hi|].
  split; [apply normalized_entry_dom|].
  assert (Hcov : dom entry ⊆ all_fields jobs_data).
  { apply all_fields_covers. by eapply list_elem_of_lookup_2. }
  split.
  - apply map_subseteq_spec. intros key v Hv. rewrite normalized_entry_lookup.
    rewrite decide_True by (apply Hcov, elem_of_dom; eauto).
    unfold get. by rewrite Hv.
  - intros key Hkey Hnone. rewrite normalized_entry_lookup, decide_True by done.
    unfold get. by rewrite Hnone.
Qed.

Lemma all_fields_normalized jobs_data :
  jobs_data <> [] ->
  all_fields (normalized_entry (all_fields jobs_data) <$> jobs_data) = all_fields jobs_data.
Proof.
  intros Hne. apply set_eq. intros key. unfold all_fields at 1.
  rewrite elem_of_union_list. split.
  - intros (X & HX & Hkey). apply list_elem_of_fmap in HX as (e' & -> & He').
    apply list_elem_of_fmap in He' as (e & -> & _).
    by rewrite normalized_entry_dom in Hkey.
  - intros Hkey. destruct jobs_data as [|e rest]; [done|].
    exists (all_fields (e :: rest)). split; [|done].
    apply list_elem_of_fmap. exists (normalized_entry (all_fields (e :: rest)) e).
    split; [by rewrite normalized_entry_dom|].
    rewrite fmap_cons. apply list_elem_of_here.
Qed.

(** X11. Saving twice stores the same entries as saving once. *)
Theorem save_raw_data_idempotent jobs_data :
  save_raw_data (save_raw_data jobs_data).1 = save_raw_data jobs_data.
Proof.
  unfold save_raw_data. cbn [fst]. rewrite !length_fmap. f_equal.
  destruct jobs_data as [|e rest]; [done|].
  rewrite all_fields_normalized by done.
  rewrite <- list_fmap_compose. apply list_fmap_ext. intros i entry _. simpl.
  rewrite <- (normalized_entry_dom (all_fields (e :: rest)) entry) at 1.
  apply normalized_entry_same.
Qed.

End RawData.

(** * From the raw data file to the cleaner *)

Section StoredThenCleaned.

Context (html_unescape : string -> string).

Local Abbreviation clean := (clean_text html_unescape).
Local Abbreviation clean_one := (clean_entry html_unescape).

Lemma get_normalized_entry (jobs_data : list dict) (entry : dict) (key : string) :
  entry ∈ jobs_data ->
  get (normalized_entry (all_fields jobs_data) entry) key (PStr "")
  = get entry key (PStr "").
Proof.
  intros Hin. unfold get at 1. rewrite normalized_entry_lookup.
  destruct (decide (key ∈ all_fields jobs_data)) as [Hk|Hk]; [done|].
  unfold get. destruct (entry !! key) as [v|] eqn:Hv; [|done].
  exfalso. apply Hk. apply (all_fields_covers jobs_data entry Hin).
  apply elem_of_dom. eauto.
Qed.

Lemma clean_entry_labels (r c : dict) :
  clean_one r = Ok c ->
  exists source type : string,
    py_strip (get r "source" (PStr "Unknown")) = Ok source
    /\ py_strip (get r "type" (PStr "job")) = Ok type
    /\ c !! "source" = Some (PStr source) /\ c !! "type" = Some (PStr type).
Proof.
  unfold clean_entry.
  destruct (py_strip (get r "source" (PStr "Unknown"))) as [src|]; [|done].
  destruct (py_strip (get r "type" (PStr "job"))) as [ty|]; [|done].
  simpl. intros [= <-]. exists src, ty. split; [done|]. split; [done|].
  split; [by rewrite lookup_insert_eq|].
  repeat (rewrite lookup_insert_ne by done). by rewrite lookup_insert_eq.
Qed.

(** X12. Cleaning an entry as [save_raw_data] stored it gives the same
    title, company and description as cleaning the collected entry itself.
    But the defaults of [clean_data] for a missing source ("Unknown"), type
    ("job") and score (0) no longer apply once some other collected entry
    has that key: the stored entry holds the empty string there, so the
    cleaned source, type or score is the empty string. *)
Theorem cleaning_stored_entry (jobs_data : list dict) (entry c c' : dict) :
  entry ∈ jobs_data ->
  clean_one entry = Ok c ->
  clean_one (normalized_entry (all_fields jobs_data) entry) = Ok c' ->
  c' !! "title" = c !! "title"
  /\ c' !! "company" = c !! "company"
  /\ c' !! "description" = c !! "description"
  /\ (entry !! "source" = None ->
      c !! "source" = Some (PStr "Unknown")
      /\ ("source" ∈ all_fields jobs_data -> c' !! "source" = Some (PStr "")))
  /\ (entry !! "type" = None ->
      c !! "type" = Some (PStr "job")
      /\ ("type" ∈ all_fields jobs_data -> c' !! "type" = Some (PStr "")))
  /\ (entry !! "score" = None ->
      c !! "score" = Some (PInt 0)
      /\ ("score" ∈ all_fields jobs_data -> c' !! "score" = Some (PStr ""))).
Proof.
  intros Hin Hc Hc'.
  pose proof (clean_entry_fields _ _ _ Hc) as (Ft & Fc & Fd).
  pose proof (clean_entry_fields _ _ _ Hc') as (Ft' & Fc' & Fd').
  rewrite !get_normalized_entry in Ft', Fc', Fd' by done.
  split; [congruence|]. split; [congruence|]. split; [congruence|].
  destruct (clean_entry_labels _ _ Hc) as (s & t & Hs & Ht & Ls & Lt).
  destruct (clean_entry_labels _ _ Hc') as (s' & t' & Hs' & Ht' & Ls' & Lt').
  pose proof (clean_entry_score _ _ _ Hc) as Sc.
  pose proof (clean_entry_score _ _ _ Hc') as Sc'.
  split; [|split].
  - intros Hnone. unfold get in Hs. rewrite Hnone in Hs. injection Hs as <-.
    split; [done|]. intros Hfield. unfold get in Hs'.
    rewrite normalized_entry_lookup, decide_True in Hs' by done.
    unfold get in Hs'. rewrite Hnone in Hs'. injection Hs' as <-. done.
  - intros Hnone. unfold get in Ht. rewrite Hnone in Ht. injection Ht as <-.
    split; [done|]. intros Hfield. unfold get in Ht'.
    rewrite normalized_entry_lookup, decide_True in Ht' by done.
    unfold get in Ht'. rewrite Hnone in Ht'. injection Ht' as <-. done.
  - intros Hnone. rewrite Hnone in Sc. split; [done|]. intros Hfield.
    rewrite normalized_entry_lookup, decide_True in Sc' by done.
    unfold get in Sc'. by rewrite Hnone in Sc'.
Qed.

End StoredThenCleaned.

(** * Statistics of the cleaned data *)

Section Statistics.

Implicit Types (k key : pyval) (counts : counters) (members : list pyval)
  (data : list dict) (entry : dict) (t : tally).

Lemma key_eqb_sym a b : key_eqb a b = key_eqb b a.
Proof.
  destruct a as [|x|x|x|x], b as [|y|y|y|y]; simpl; try done;
    first [apply Z.eqb_sym | apply String.eqb_sym].
Qed.

Lemma key_eqb_congr a b c : key_eqb a b = true -> key_eqb a c = key_eqb b c.
Proof.
  destruct a as [|x|x|x|x], b as [|y|y|y|y]; simpl; try done;
    try (intros ->%Z.eqb_eq; by destruct c);
    try (intros ->%String.eqb_eq; by destruct c).
Qed.

Lemma key_eqb_refl a : hashable a = true -> key_eqb a a = true.
Proof.
  destruct a as [|x|x|x|x]; simpl; try done; intros _;
    first [apply Z.eqb_refl | apply String.eqb_refl].
Qed.

Lemma count_of_bump key k counts :
  count_of k (bump key counts) =
  (count_of k counts + if key_eqb key k then 1 else 0)%nat.
Proof.
  induction counts as [|[k0 n] counts IH]; simpl; [done|].
  destruct (key_eqb k0 key) eqn:H0; simpl.
  - rewrite (key_eqb_congr _ _ k H0). destruct (key_eqb key k); lia.
  - destruct (key_eqb k0 k) eqn:H1; [|apply IH].
    destruct (key_eqb key k) eqn:H2; [|lia]. exfalso.
    pose proof (key_eqb_congr key k k0 H2) as E.
    rewrite (key_eqb_sym key k0), (key_eqb_sym k k0) in E. congruence.
Qed.

Lemma sum_bump key counts :
  sum_list (bump key counts).*2 = S (sum_list counts.*2).
Proof.
  induction counts as [|[k0 n] counts IH]; [done|]. cbn [bump].
  destruct (key_eqb k0 key); rewrite !fmap_cons; cbn [snd]; [done|].
  change (sum_list (n :: (bump key counts).*2))
    with (n + sum_list (bump key counts).*2)%nat.
  rewrite IH. simpl. lia.
Qed.

Local Abbreviation source_of := (fun e : dict => get e "source" (PStr "Unknown")).
Local Abbreviation type_of := (fun e : dict => get e "type" (PStr "Unknown")).
Local Abbreviation company_of := (fun e : dict => get e "company" (PStr "Unknown")).

Lemma filter_snoc_length (P : dict -> Prop) `{!forall e, Decision (P e)} seen entry :
  length (filter P (seen ++ [entry]))
  = (length (filter P seen) + if decide (P entry) then 1 else 0)%nat.
Proof.
  rewrite filter_app, length_app, filter_cons, filter_nil.
  by destruct (decide (P entry)).
Qed.

Lemma existsb_key_congr a b members :
  key_eqb a b = true -> existsb (key_eqb a) members = existsb (key_eqb b) members.
Proof.
  intros H. induction members as [|m members IH]; simpl; [done|].
  by rewrite IH, (key_eqb_congr _ _ m H).
Qed.

Lemma tally_entry_step seen entry t t' :
  tallied source_of type_of company_of seen t ->
  tally_entry entry t = Ok t' ->
  tallied source_of type_of company_of (seen ++ [entry]) t'.
Proof.
  intros (Hs & Hj & Ss & Sj & Hd & Hc1 & Hc2 & Hc3 & Hc4 & Hc5).
  unfold tally_entry, count_up, set_add.
  destruct (hashable (source_of entry)) eqn:H1; simpl; [|done].
  destruct (py_len (get entry "description" (PStr ""))) as [n|] eqn:Hn; simpl; [|done].
  destruct (hashable (company_of entry)) eqn:H2; simpl; [|done].
  destruct (hashable (type_of entry)) eqn:H3; simpl; [|done].
  intros [= <-]. unfold tallied. cbn [t_sources t_job_types t_desc_length t_companies].
  split; [|split; [|split; [|split; [|split; [|split; [|split; [|split; [|split]]]]]]]].
  - intros k. rewrite count_of_bump, Hs, filter_snoc_length.
    by destruct (key_eqb (source_of entry) k).
  - intros k. rewrite count_of_bump, Hj, filter_snoc_length.
    by destruct (key_eqb (type_of entry) k).
  - rewrite sum_bump, Ss, length_app. simpl. lia.
  - rewrite sum_bump, Sj, length_app. simpl. lia.
  - assert (E : description_length entry = n)
      by (unfold description_length; by rewrite Hn).
    rewrite fmap_app, sum_list_with_app, Hd. simpl. rewrite E. lia.
  - rewrite length_app. simpl.
    destruct (existsb _ _); [lia | rewrite length_app; simpl; lia].
  - intros _. destruct (existsb (key_eqb (company_of entry)) (t_companies t)) eqn:He.
    + destruct (t_companies t); [done | done].
    + by destruct (t_companies t).
  - intros e [Hin|Heq%list_elem_of_singleton]%elem_of_app; [|subst e].
    + destruct (existsb (key_eqb (company_of entry)) (t_companies t));
        [by apply Hc3|]. rewrite existsb_app, (Hc3 e Hin). done.
    + destruct (existsb (key_eqb (company_of entry)) (t_companies t)) eqn:He; [done|].
      rewrite existsb_app. simpl. rewrite key_eqb_refl by done.
      by rewrite orb_true_r.
  - intros m Hm.
    assert (m ∈ t_companies t \/ m = company_of entry) as [Hin| ->].
    { destruct (existsb _ _); [by left|].
      apply elem_of_app in Hm as [?|Heq%list_elem_of_singleton]; [by left | by right]. }
    + destruct (Hc4 m Hin) as (e & He & <-). exists e. split; [|done].
      apply elem_of_app. by left.
    + exists entry. split; [|done]. apply elem_of_app. right. apply list_elem_of_here.
  - destruct (existsb (key_eqb (company_of entry)) (t_companies t)) eqn:He; [done|].
    assert (Hnew : forall (i : nat) a, t_companies t !! i = Some a ->
                     key_eqb a (company_of entry) = false).
    { intros i a Ha. rewrite key_eqb_sym. apply not_true_is_false. intros Heq.
      assert (existsb (key_eqb (company_of entry)) (t_companies t) = true); [|congruence].
      apply existsb_exists. exists a. split; [|done].
      apply list_elem_of_In. by eapply list_elem_of_lookup_2. }
    intros i j a b Hij Ha Hb.
    destruct (decide (i < length (t_companies t))%nat) as [Hi|Hi];
      destruct (decide (j < length (t_companies t))%nat) as [Hj'|Hj'].
    + rewrite lookup_app_l in Ha, Hb by done. by eapply Hc5.
    + rewrite lookup_app_l in Ha by done. rewrite lookup_app_r in Hb by lia.
      apply list_lookup_singleton_Some in Hb as [_ <-]. by eapply Hnew.
    + rewrite lookup_app_l in Hb by done. rewrite lookup_app_r in Ha by lia.
      apply list_lookup_singleton_Some in Ha as [_ <-].
      rewrite key_eqb_sym. by eapply Hnew.
    + rewrite lookup_app_r in Ha, Hb by lia.
      apply list_lookup_singleton_Some in Ha as [Hi' _].
      apply list_lookup_singleton_Some in Hb as [Hj'' _]. lia.
Qed.

Lemma tally_loop_steps data : forall seen t t',
  tallied source_of type_of company_of seen t ->
  tally_loop data t = Ok t' ->
  tallied source_of type_of company_of (seen ++ data) t'.
Proof.
  induction data as [|entry data IH]; intros seen t t' Ht; simpl.
  - intros [= <-]. by rewrite app_nil_r.
  - destruct (tally_entry entry t) as [t1|] eqn:H1; simpl; [|done].
    intros Hloop. rewrite (cons_middle entry seen data), app_assoc.
    eapply IH; [|exact Hloop]. by eapply tally_entry_step.
Qed.

Lemma tallied_start :
  tallied source_of type_of company_of []
    {| t_sources := []; t_desc_length := 0; t_companies := []; t_job_types := [] |}.
Proof.
  unfold tallied. simpl. repeat split; try done.
  - by intros e ?%elem_of_nil.
  - by intros m ?%elem_of_nil.
Qed.

Lemma countable_entry_cases entry :
  countable_entry entry \/ ~ countable_entry entry.
Proof.
  unfold countable_entry.
  destruct (hashable (source_of entry)); [|right; by intros [? _]].
  destruct (hashable (company_of entry)); [|right; by intros (_ & ? & _)].
  destruct (hashable (type_of entry)); [|right; by intros (_ & _ & ? & _)].
  destruct (py_len (get entry "description" (PStr ""))) as [n|e];
    [left; eauto | right; by intros (_ & _ & _ & [n ?])].
Qed.

Lemma py_len_error v e : py_len v = Raise e -> e = TypeError.
Proof. destruct v; simpl; congruence. Qed.

Lemma tally_entry_cases entry t :
  (countable_entry entry /\ exists t', tally_entry entry t = Ok t')
  \/ (~ countable_entry entry /\ tally_entry entry t = Raise TypeError).
Proof.
  unfold countable_entry, tally_entry, count_up, set_add.
  destruct (hashable (source_of entry)); simpl; [|right; split; [by intros [? _] | done]].
  destruct (py_len (get entry "description" (PStr ""))) as [n|e] eqn:Hn; simpl.
  2:{ right. split; [by intros (_ & _ & _ & [? ?])|]. by rewrite (py_len_error _ _ Hn). }
  destruct (hashable (company_of entry)); simpl;
    [|right; split; [by intros (_ & ? & _) | done]].
  destruct (hashable (type_of entry)); simpl;
    [|right; split; [by intros (_ & _ & ? & _) | done]].
  left. split; [eauto 10 | by eexists].
Qed.

Lemma tally_loop_total data : forall t,
  Forall countable_entry data -> exists t', tally_loop data t = Ok t'.
Proof.
  induction data as [|entry data IH]; intros t Hall; simpl; [by eexists|].
  apply Forall_cons in Hall as [He Hall].
  destruct (tally_entry_cases entry t) as [[_ [t1 ->]]|[Hbad _]]; [|done].
  simpl. by apply IH.
Qed.

Lemma tally_loop_raises data : forall t,
  Exists (fun entry => ~ countable_entry entry) data ->
  tally_loop data t = Raise TypeError.
Proof.
  induction data as [|entry data IH]; intros t Hex; [by inversion Hex|]. simpl.
  destruct (tally_entry_cases entry t) as [[He [t1 ->]]|[_ ->]]; [|done].
  simpl. apply IH. by inversion Hex.
Qed.

(** X13. When [get_data_statistics] returns statistics, [total_entries] is
    the number of entries; for every key, [sources] holds the number of
    entries with that source and [job_types] the number of entries with
    that type, so each table adds up to the total; [companies] holds every
    company once, [unique_companies] is its size, between 1 and the total;
    and the average description length is the sum of the lengths divided
    by the total. *)
Theorem get_data_statistics_counts data st :
  get_data_statistics data = Ok (Some st) ->
  total_entries st = length data
  /\ (forall k, count_of k (sources st)
                = length (filter (fun e => key_eqb (source_of e) k = true) data))
  /\ (forall k, count_of k (job_types st)
                = length (filter (fun e => key_eqb (type_of e) k = true) data))
  /\ sum_list (sources st).*2 = length data
  /\ sum_list (job_types st).*2 = length data
  /\ unique_companies st = length (companies st)
  /\ (1 <= unique_companies st <= length data)%nat
  /\ (forall e, e ∈ data -> existsb (key_eqb (company_of e)) (companies st) = true)
  /\ (forall m, m ∈ companies st -> exists e, e ∈ data /\ company_of e = m)
  /\ (forall (i j : nat) a b, i <> j -> companies st !! i = Some a ->
         companies st !! j = Some b -> key_eqb a b = false)
  /\ (avg_description_length st
       == inject_Z (Z.of_nat (sum_list (description_length <$> data)))
          / inject_Z (Z.of_nat (length data)))%Q.
Proof.
  unfold get_data_statistics. destruct data as [|entry data]; [done|].
  set (all := entry :: data).
  destruct (tally_loop all _) as [t|] eqn:Hloop; simpl; [|done].
  intros [= <-]. cbn [total_entries sources job_types companies unique_companies
                       avg_description_length].
  pose proof (tally_loop_steps all [] _ t tallied_start Hloop) as Ht.
  rewrite app_nil_l in Ht.
  destruct Ht as (Hs & Hj & Ss & Sj & Hd & Hc1 & Hc2 & Hc3 & Hc4 & Hc5).
  repeat (split; [done|]).
  split.
  { split; [|done]. destruct (t_companies t); [by destruct Hc2 | simpl; lia]. }
  repeat (split; [done|]).
  rewrite Hd. apply Qeq_refl.
Qed.

Lemma get_data_statistics_total data :
  data <> [] -> Forall countable_entry data ->
  exists st, get_data_statistics data = Ok (Some st).
Proof.
  intros Hne Hall. destruct data as [|entry data]; [done|].
  unfold get_data_statistics.
  destruct (tally_loop_total (entry :: data)
              {| t_sources := []; t_desc_length := 0;
                 t_companies := []; t_job_types := [] |} Hall) as [t ->].
  simpl. by eexists.
Qed.

(** X14. [get_data_statistics] returns the empty dictionary exactly when
    there is no data.  On data it returns statistics when the source,
    company and type of every entry can be dictionary keys and every
    description has a length, and raises [TypeError] otherwise. *)
Theorem get_data_statistics_errors data :
  (get_data_statistics data = Ok None <-> data = [])
  /\ (data <> [] -> Forall countable_entry data ->
      exists st, get_data_statistics data = Ok (Some st))
  /\ (Exists (fun entry => ~ countable_entry entry) data ->
      get_data_statistics data = Raise TypeError).
Proof.
  split; [|split].
  - split; [|by intros ->]. destruct data as [|entry data]; [done|].
    unfold get_data_statistics. by destruct (tally_loop _ _).
  - apply get_data_statistics_total.
  - intros Hex. destruct data as [|entry data]; [by inversion Hex|].
    unfold get_data_statistics. by rewrite (tally_loop_raises _ _ Hex).
Qed.

End Statistics.

(** * Statistics of what the cleaner returns *)

Section CleanedStatistics.

Context (html_unescape : string -> string).

Local Abbreviation clean := (clean_text html_unescape).
Local Abbreviation clean_one := (clean_entry html_unescape).

Lemma clean_data_members (raw out : list dict) :
  clean_data html_unescape [] raw = Ok out ->
  Forall (fun c => exists r, clean_one r = Ok c
                    /\ (10 <= String.length (clean (get r "description" (PStr ""))))%nat)
         out.
Proof.
  rewrite clean_data_from. simpl.
  destruct (map_result clean_one raw) as [cs|] eqn:Hcs; simpl; [|done].
  intros [_ ->]%remove_duplicates_Ok.
  pose proof (map_result_Ok _ _ _ Hcs) as Hall.
  apply Forall_forall. intros c Hc.
  eapply elem_of_sublist in Hc; [|apply first_occurrences_sublist].
  apply list_elem_of_filter in Hc as [Hv Hin].
  destruct (proj1 (list_elem_of_lookup cs c) Hin) as [i Hi].
  destruct (Forall2_lookup_r _ _ _ _ _ Hall Hi) as (r & _ & Hr).
  exists r. split; [done|].
  rewrite (is_valid_cleaned _ _ _ Hr) in Hv.
  by apply negb_true_iff, Nat.ltb_ge in Hv.
Qed.

Lemma cleaned_countable (r c : dict) :
  clean_one r = Ok c ->
  countable_entry c
  /\ description_length c = String.length (clean (get r "description" (PStr ""))).
Proof.
  intros Hc.
  destruct (clean_entry_fields _ _ _ Hc) as (_ & Fc & Fd).
  destruct (clean_entry_labels _ _ _ Hc) as (s & t & _ & _ & Ls & Lt).
  unfold countable_entry, description_length, get. rewrite Ls, Fc, Lt, Fd. simpl.
  repeat split; eauto.
Qed.

Lemma sum_list_at_least (f : dict -> nat) (n : nat) (l : list dict) :
  Forall (fun x => (n <= f x)%nat) l -> (n * length l <= sum_list (f <$> l))%nat.
Proof.
  induction 1 as [|x l Hx _ IH]; [simpl; lia|].
  rewrite fmap_cons. cbn [length]. rewrite Nat.mul_succ_r.
  change (sum_list (f x :: (f <$> l))) with (f x + sum_list (f <$> l))%nat. lia.
Qed.

(** X15. [get_data_statistics] never raises on what [clean_data] returned:
    on an empty result it returns the empty dictionary, and otherwise
    statistics whose total is the number of records returned, at most the
    number of raw entries, and whose average description length is at
    least 10. *)
Theorem cleaned_data_statistics (raw out : list dict) :
  clean_data html_unescape [] raw = Ok out ->
  (out = [] -> get_data_statistics out = Ok None)
  /\ (out <> [] ->
      exists st, get_data_statistics out = Ok (Some st)
                 /\ total_entries st = length out
                 /\ (total_entries st <= length raw)%nat
                 /\ (10 <= avg_description_length st)%Q).
Proof.
  intros Hout. split; [by intros ->|]. intros Hne.
  pose proof (clean_data_members _ _ Hout) as Hmem.
  assert (Hcount : Forall countable_entry out).
  { eapply Forall_impl; [exact Hmem|]. intros c (r & Hr & _).
    by destruct (cleaned_countable _ _ Hr). }
  assert (Hlen : Forall (fun c => (10 <= description_length c)%nat) out).
  { eapply Forall_impl; [exact Hmem|]. intros c (r & Hr & H10).
    destruct (cleaned_countable _ _ Hr) as [_ ->]. exact H10. }
  assert (Hraw : (length out <= length raw)%nat).
  { revert Hout. rewrite clean_data_from. simpl.
    destruct (map_result clean_one raw) as [cs|] eqn:Hcs; simpl; [|done].
    intros [_ ->]%remove_duplicates_Ok.
    pose proof (first_occurrences_length (filter (fun c => is_valid c = true) cs) ∅).
    pose proof (length_filter (fun c => is_valid c = true) cs).
    pose proof (Forall2_length _ _ _ (map_result_Ok _ _ _ Hcs)). lia. }
  destruct out as [|c out]; [done|]. unfold get_data_statistics.
  set (all := c :: out) in *.
  destruct (tally_loop_total all
              {| t_sources := []; t_desc_length := 0;
                 t_companies := []; t_job_types := [] |} Hcount) as [t Ht].
  rewrite Ht. simpl. eexists. split; [reflexivity|].
  cbn [total_entries avg_description_length]. split; [done|]. split; [done|].
  pose proof (tally_loop_steps all [] _ t tallied_start Ht) as Hinv.
  rewrite app_nil_l in Hinv. destruct Hinv as (_ & _ & _ & _ & Hd & _).
  pose proof (sum_list_at_least description_length 10 all Hlen) as Hsum.
  rewrite <- Hd in Hsum.
  apply Qle_shift_div_l.
  - unfold Qlt, inject_Z. simpl. lia.
  - unfold Qle, Qmult, inject_Z. simpl Qnum. simpl Qden.
    change (length all) with (S (length out)) in *. lia.
Qed.

End CleanedStatistics.

(** * Further properties of the annotator *)

Section AnnotatorMore.

Implicit Types (table : list (string * list string)) (text : string).

Lemma lower_idem s : Str.lower (Str.lower s) = Str.lower s.
Proof.
  unfold Str.lower. induction s as [|c s IH]; simpl; [done|]. rewrite IH. f_equal.
  unfold Char.to_lower at 1. destruct (Char.is_upper (Char.to_lower c)) eqn:H; [|done].
  exfalso. revert H. unfold Char.to_lower.
  destruct c as [[] [] [] [] [] [] [] []]; vm_compute; discriminate.
Qed.

Lemma lower_empty s : Str.is_empty (Str.lower s) = Str.is_empty s.
Proof. by destruct s. Qed.

(** [p in s] and [s in t] give [p in t]. *)
Lemma contains_trans p s t :
  Str.contains p s = true -> Str.contains s t = true -> Str.contains p t = true.
Proof.
  intros (a & b & ->)%StrFacts.contains_spec (a' & b' & ->)%StrFacts.contains_spec.
  apply StrFacts.contains_spec. exists (a' +:+ a), (b +:+ b').
  by rewrite !append_assoc.
Qed.

Lemma contains_lower s t :
  Str.contains s t = true -> Str.contains (Str.lower s) (Str.lower t) = true.
Proof.
  intros (a & b & ->)%StrFacts.contains_spec. apply StrFacts.contains_spec.
  exists (Str.lower a), (Str.lower b). by rewrite !lower_app.
Qed.

Lemma contains_app_l p a b : Str.contains p a = true -> Str.contains p (a +:+ b) = true.
Proof.
  intros (x & y & ->)%StrFacts.contains_spec. apply StrFacts.contains_spec.
  exists x, (y +:+ b). by rewrite !append_assoc.
Qed.

Lemma contains_app_r p a b : Str.contains p b = true -> Str.contains p (a +:+ b) = true.
Proof.
  intros (x & y & ->)%StrFacts.contains_spec. apply StrFacts.contains_spec.
  exists (a +:+ x), y. by rewrite !append_assoc.
Qed.

Lemma occurs_mono keywords text text' :
  Str.contains text text' = true -> occurs keywords text -> occurs keywords text'.
Proof.
  intros Hsub (kw & Hin & Hkw). exists kw. split; [done|]. by eapply contains_trans.
Qed.

Lemma found_skills_spec table text skill :
  skill ∈ found_skills table text
  <-> exists keywords, (skill, keywords) ∈ table /\ occurs keywords text.
Proof.
  induction table as [|[s kws] table IH]; simpl.
  - split; [by intros ?%elem_of_nil | by intros (? & ?%elem_of_nil & _)].
  - destruct (any_keyword kws text) eqn:Hk.
    + rewrite elem_of_cons, IH. split.
      * intros [->|(k & Hin & Hocc)].
        -- exists kws. split; [apply list_elem_of_here | by apply any_keyword_occurs].
        -- exists k. split; [by apply list_elem_of_further | done].
      * intros (k & [[= -> ->]|Hin]%elem_of_cons & Hocc); [by left | right; eauto].
    + rewrite IH. split.
      * intros (k & Hin & Hocc). exists k. split; [by apply list_elem_of_further | done].
      * intros (k & [[= -> ->]|Hin]%elem_of_cons & Hocc); [|eauto].
        apply any_keyword_occurs in Hocc. congruence.
Qed.

Lemma extract_skills_str text :
  extract_skills (PStr text) = Ok (list_to_set (found_skills skill_keywords (Str.lower text))).
Proof. destruct text; [by vm_compute | done]. Qed.

(** X16. [extract_skills] returns, for every text, the set of the
    categories of the skill table one of whose triggers occurs in the
    lowercased text, and nothing else; so at most the ten categories of the
    table. *)
Theorem extract_skills_spec text :
  exists skills : gset string,
    extract_skills (PStr text) = Ok skills
    /\ (forall skill, skill ∈ skills <->
          exists keywords, (skill, keywords) ∈ skill_keywords
                           /\ occurs keywords (Str.lower text))
    /\ skills ⊆ list_to_set skill_keywords.*1
    /\ (size skills <= 10)%nat.
Proof.
  eexists. split; [apply extract_skills_str|].
  assert (Hspec : forall skill,
            skill ∈ (list_to_set (found_skills skill_keywords (Str.lower text)) : gset string)
            <-> exists keywords, (skill, keywords) ∈ skill_keywords
                                 /\ occurs keywords (Str.lower text)).
  { intros skill. rewrite elem_of_list_to_set. apply found_skills_spec. }
  assert (Hsub : (list_to_set (found_skills skill_keywords (Str.lower text)) : gset string)
                 ⊆ list_to_set skill_keywords.*1).
  { intros skill (kws & Hin & _)%Hspec. apply elem_of_list_to_set.
    apply list_elem_of_fmap. by exists (skill, kws). }
  split; [done|]. split; [done|].
  etrans; [apply subseteq_size, Hsub|]. by vm_compute.
Qed.

(** X17. A text that contains another text gets at least the skills of
    the other. *)
Theorem extract_skills_monotone text text' skills skills' :
  Str.contains text text' = true ->
  extract_skills (PStr text) = Ok skills ->
  extract_skills (PStr text') = Ok skills' ->
  skills ⊆ skills'.
Proof.
  intros Hsub%contains_lower E E'.
  pose proof (extract_skills_str text) as F.
  pose proof (extract_skills_str text') as F'.
  rewrite E in F. rewrite E' in F'. clear E E'.
  remember skill_keywords as table eqn:Htable. clear Htable.
  injection F as ->. injection F' as ->.
  intros skill. rewrite !elem_of_list_to_set, !found_skills_spec.
  intros (kws & Hin & Hocc). exists kws. split; [done|]. by eapply occurs_mono.
Qed.

Lemma tagged (skill : string) keywords (keyword trigger : string) text :
  (skill, keywords) ∈ skill_keywords -> keyword ∈ keywords ->
  Str.contains keyword trigger = true ->
  Str.contains trigger (Str.lower text) = true ->
  forall skills, extract_skills (PStr text) = Ok skills -> skill ∈ skills.
Proof.
  intros Hentry Hkw Hin Htrig skills E.
  pose proof (extract_skills_str text) as F. rewrite E in F. clear E.
  remember skill_keywords as table eqn:Htable. clear Htable.
  injection F as ->. apply elem_of_list_to_set, found_skills_spec.
  exists keywords. split; [done|]. exists keyword. split; [done|].
  by eapply contains_trans.
Qed.

(** X18. Triggers are looked for anywhere in the text, inside words and
    inside other triggers.  So a text that mentions "javascript" is tagged
    Java as well as JavaScript, a text that mentions "html" is tagged
    Machine Learning (through "ml") as well as Frontend, "aws" gives DevOps
    and Cloud, and "react native" gives Mobile, JavaScript and Frontend. *)
Theorem overlapping_skill_triggers text skills :
  extract_skills (PStr text) = Ok skills ->
  (Str.contains "javascript" (Str.lower text) = true ->
     "JavaScript" ∈ skills /\ "Java" ∈ skills)
  /\ (Str.contains "html" (Str.lower text) = true ->
       "Frontend" ∈ skills /\ "Machine Learning" ∈ skills)
  /\ (Str.contains "aws" (Str.lower text) = true ->
       "DevOps" ∈ skills /\ "Cloud" ∈ skills)
  /\ (Str.contains "react native" (Str.lower text) = true ->
       "Mobile" ∈ skills /\ "JavaScript" ∈ skills /\ "Frontend" ∈ skills).
Proof.
  intros E.
  assert (T : forall skill keywords keyword trigger,
            (skill, keywords) ∈ skill_keywords -> keyword ∈ keywords ->
            Str.contains keyword trigger = true ->
            Str.contains trigger (Str.lower text) = true -> skill ∈ skills).
  { intros skill keywords keyword trigger H1 H2 H3 H4.
    by eapply (tagged skill keywords keyword trigger text). }
  split; [|split; [|split]]; intros Htrig.
  - split.
    + eapply (T _ _ "javascript" "javascript"); [pick_member | pick_member | done | done].
    + eapply (T _ _ "java" "javascript"); [pick_member | pick_member | done | done].
  - split.
    + eapply (T _ _ "html" "html"); [pick_member | pick_member | done | done].
    + eapply (T _ _ "ml" "html"); [pick_member | pick_member | done | done].
  - split.
    + eapply (T _ _ "aws" "aws"); [pick_member | pick_member | done | done].
    + eapply (T "Cloud" _ "aws" "aws"); [pick_member | pick_member | done | done].
  - split; [|split].
    + eapply (T _ _ "react native" "react native"); [pick_member | pick_member | done | done].
    + eapply (T _ _ "react" "react native"); [pick_member | pick_member | done | done].
    + eapply (T "Frontend" _ "react" "react native"); [pick_member | pick_member | done | done].
Qed.

Lemma contains_length s t :
  Str.contains s t = true -> (String.length s <= String.length t)%nat.
Proof.
  intros (a & b & ->)%StrFacts.contains_spec. rewrite !length_append. lia.
Qed.

Lemma filter_length_mono {A} (P Q : A -> Prop)
    `{!forall x, Decision (P x)} `{!forall x, Decision (Q x)} (l : list A) :
  (forall x, P x -> Q x) -> (length (filter P l) <= length (filter Q l))%nat.
Proof.
  intros HPQ. induction l as [|x l IH]; [done|]. rewrite !filter_cons.
  destruct (decide (P x)) as [HP|HP].
  - rewrite decide_True by auto. simpl. lia.
  - destruct (decide (Q x)); simpl; lia.
Qed.

Lemma found_keywords_mono text text' :
  Str.contains text text' = true -> (found_keywords text <= found_keywords text')%nat.
Proof.
  intros Hsub. unfold found_keywords. apply filter_length_mono.
  intros kw Hkw. by eapply contains_trans.
Qed.

Lemma found_keywords_bound text : (found_keywords text <= 19)%nat.
Proof.
  unfold found_keywords.
  etrans; [apply length_filter|]. reflexivity.
Qed.

Lemma relevance_mono_both found found' len len' :
  (found <= found')%nat -> (len <= len')%nat ->
  (relevance found len <= relevance found' len')%Q.
Proof.
  intros Hf Hl. unfold relevance.
  apply Q.min_le_compat_r, Qplus_le_compat.
  - apply Q.min_le_compat_r, (ratio_mono found found' 10 Hf).
  - apply Q.min_le_compat_r, (ratio_mono len len' 1000 Hl).
Qed.

Lemma calculate_relevance_score_nonempty text :
  text <> EmptyString ->
  calculate_relevance_score (PStr text)
  = Ok (relevance (found_keywords (Str.lower text)) (String.length text)).
Proof. by destruct text. Qed.

(** X19. A text that contains another text scores at least as much as the
    other: it has at least its technology keywords and at least its
    length. *)
Theorem relevance_score_monotone text text' (q q' : Q) :
  Str.contains text text' = true ->
  calculate_relevance_score (PStr text) = Ok q ->
  calculate_relevance_score (PStr text') = Ok q' ->
  (found_keywords (Str.lower text) <= found_keywords (Str.lower text'))%nat
  /\ (q <= q')%Q.
Proof.
  intros Hsub E E'.
  assert (Hk : (found_keywords (Str.lower text) <= found_keywords (Str.lower text'))%nat)
    by (by apply found_keywords_mono, contains_lower).
  split; [done|].
  destruct (calculate_relevance_score_str text) as (p & Hp & Ep).
  destruct (calculate_relevance_score_str text') as (p' & Hp' & Ep').
  rewrite E in Hp. rewrite E' in Hp'. injection Hp as <-. injection Hp' as <-.
  rewrite Ep, Ep'. apply relevance_mono_both; [done | by apply contains_length].
Qed.

(** X20. The annotator ignores letter case: two texts with the same
    lowercased form get the same skills and the same experience level (or
    the same error), and, when they also have the same length, the same
    relevance score; a text and its lowercased form get the same skills. *)
Theorem annotator_ignores_case text text' :
  Str.lower text = Str.lower text' ->
  extract_skills (PStr text) = extract_skills (PStr text')
  /\ classify_experience_level (PStr text) = classify_experience_level (PStr text')
  /\ (String.length text = String.length text' ->
      calculate_relevance_score (PStr text) = calculate_relevance_score (PStr text'))
  /\ extract_skills (PStr (Str.lower text)) = extract_skills (PStr text).
Proof.
  intros Hlow.
  split; [by rewrite !extract_skills_str, Hlow|].
  split; [by rewrite !classify_experience_level_str, Hlow|].
  split; [|by rewrite !extract_skills_str, lower_idem].
  intros Hlen. destruct text as [|c text], text' as [|c' text']; try done.
  rewrite !calculate_relevance_score_nonempty by done. by rewrite Hlow, Hlen.
Qed.

Lemma first_category_head table (category : string) keywords text :
  occurs keywords text ->
  first_category ((category, keywords) :: table) text = Some category.
Proof. intros H%any_keyword_occurs. simpl. by rewrite H. Qed.

(** X21. Whatever its argument, [classify_experience_level] returns one
    of the five labels Entry Level, Mid Level, Senior Level, Management and
    Not Specified when it returns; Management is returned only for a text
    in which a Management keyword occurs. *)
Theorem classify_experience_level_range (v : pyval) (level : string) :
  classify_experience_level v = Ok level ->
  level ∈ ["Entry Level"; "Mid Level"; "Senior Level"; "Management"; "Not Specified"]
  /\ (level = "Management" ->
      exists text, v = PStr text
        /\ occurs ["manager"; "mgr"; "director"; "vp"; "head of"; "team lead"; "tech lead"]
                  (Str.lower text)).
Proof.
  destruct v as [|b|z|text|l].
  - intros [= <-]. split; [pick_member | done].
  - destruct b; [done|]. intros [= <-]. split; [pick_member | done].
  - unfold classify_experience_level. simpl. destruct (Z.eqb z 0); [|done].
    intros [= <-]. split; [pick_member | done].
  - rewrite classify_experience_level_str.
    destruct (first_category experience_keywords (Str.lower text)) as [c|] eqn:Hc.
    + intros [= <-]. pose proof (first_category_in _ _ _ Hc) as Hin.
      split.
      * change (experience_keywords.*1)
          with ["Entry Level"; "Mid Level"; "Senior Level"; "Management"] in Hin.
        apply elem_of_cons in Hin as [->|Hin]; [pick_member|].
        apply elem_of_cons in Hin as [->|Hin]; [pick_member|].
        apply elem_of_cons in Hin as [->|Hin]; [pick_member|].
        apply elem_of_cons in Hin as [->|Hin]; [pick_member|].
        by apply elem_of_nil in Hin.
      * intros ->. exists text. split; [done|].
        apply first_category_Some in Hc as (i & kws & Hi & Hocc & _).
        do 4 (destruct i as [|i]; [by injection Hi as [= <-] || discriminate Hi|]).
        done.
    + intros Hl. pose proof (level_of_years_range _ _ Hl) as Hin.
      split.
      * apply elem_of_cons in Hin as [->|Hin]; [pick_member|].
        apply elem_of_cons in Hin as [->|Hin]; [pick_member|].
        apply elem_of_cons in Hin as [->|Hin]; [pick_member|].
        apply elem_of_cons in Hin as [->|Hin]; [pick_member|].
        by apply elem_of_nil in Hin.
      * intros Heq. rewrite Heq in Hin.
        repeat (apply elem_of_cons in Hin as [Hin|Hin]; [discriminate Hin|]).
        by apply elem_of_nil in Hin.
  - destruct l; [|done]. intros [= <-]. split; [pick_member | done].
Qed.

(** X22. Keywords are looked for inside words and before any number of
    years is read.  Every text in which "intern" occurs, be it inside
    "international" or next to "senior" and "10 years", is Entry Level; and
    a text with "lead" (as in "leadership") and no Entry Level or Mid Level
    keyword is Senior Level. *)
Theorem experience_keywords_inside_words text :
  (Str.contains "intern" (Str.lower text) = true ->
   classify_experience_level (PStr text) = Ok "Entry Level")
  /\ (Str.contains "lead" (Str.lower text) = true ->
      ~ occurs ["entry"; "junior"; "graduate"; "intern"; "0-2 years"; "beginner"; "new grad"]
               (Str.lower text) ->
      ~ occurs ["mid"; "intermediate"; "2-5 years"; "3-5 years"; "experienced"]
               (Str.lower text) ->
      classify_experience_level (PStr text) = Ok "Senior Level").
Proof.
  rewrite classify_experience_level_str. split.
  - intros H. unfold experience_keywords. rewrite first_category_head; [done|].
    exists "intern". split; [pick_member | done].
  - intros H He Hm.
    assert (first_category experience_keywords (Str.lower text) = Some "Senior Level")
      as ->; [|done].
    apply first_category_Some. exists 2%nat. eexists. split; [reflexivity|]. split.
    + exists "lead". split; [pick_member | done].
    + intros [|[|j]] c kws Hj; [by intros [= <- <-] | by intros [= <- <-] | lia].
Qed.

Lemma contains_any_app_l ws a b :
  Str.contains_any ws a = true -> Str.contains_any ws (a +:+ b) = true.
Proof.
  unfold Str.contains_any. rewrite !existsb_exists.
  intros (w & Hin & Hw). exists w. split; [done|]. by apply contains_app_l.
Qed.

Lemma contains_any_app_r ws a b :
  Str.contains_any ws b = true -> Str.contains_any ws (a +:+ b) = true.
Proof.
  unfold Str.contains_any. rewrite !existsb_exists.
  intros (w & Hin & Hw). exists w. split; [done|]. by apply contains_app_r.
Qed.

(** X23. [estimate_company_size] returns Startup as soon as a startup
    indicator occurs in the lowercased company name or in the lowercased
    text, whatever large-corporation indicators occur with it; it returns
    Medium Company only when no indicator of either kind occurs in the
    company name or in the text; and it returns nothing but Startup, Large
    Corporation and Medium Company. *)
Theorem estimate_company_size_spec (company text : string) :
  let size := estimate_company_size company text in
  size ∈ ["Startup"; "Large Corporation"; "Medium Company"]
  /\ (Str.contains_any startup_indicators (Str.lower company) = true
      \/ Str.contains_any startup_indicators (Str.lower text) = true ->
      size = "Startup")
  /\ (size = "Medium Company" ->
      Str.contains_any startup_indicators (Str.lower company) = false
      /\ Str.contains_any startup_indicators (Str.lower text) = false
      /\ Str.contains_any large_corp_indicators (Str.lower company) = false
      /\ Str.contains_any large_corp_indicators (Str.lower text) = false).
Proof.
  cbv zeta. unfold estimate_company_size. rewrite !lower_app.
  set (c := Str.lower company). set (t := Str.lower text).
  assert (Hl : forall ws, Str.contains_any ws (c +:+ Str.lower " " +:+ t) = false ->
                 Str.contains_any ws c = false /\ Str.contains_any ws t = false).
  { intros ws H. split; apply not_true_is_false; intros Hc.
    - by rewrite (contains_any_app_l ws c _ Hc) in H.
    - by rewrite (contains_any_app_r ws c _ (contains_any_app_r ws _ t Hc)) in H. }
  destruct (Str.contains_any startup_indicators _) eqn:Hs.
  { split; [pick_member|]. split; [done|]. discriminate. }
  apply Hl in Hs as [Hsc Hst].
  destruct (Str.contains_any large_corp_indicators _) eqn:Hg.
  { split; [pick_member|]. split; [|discriminate].
    intros [H|H]; congruence. }
  apply Hl in Hg as [Hgc Hgt].
  split; [pick_member|]. split; [intros [H|H]; congruence | done].
Qed.

Lemma occurs_subset (small large : list string) text :
  small ⊆ large -> occurs small text -> occurs large text.
Proof. intros Hsub (kw & Hin & Hkw). exists kw. split; [by apply Hsub | done]. Qed.

(** X24. [classify_content_type] returns one of its five labels.  Its
    fallback on "apply", "position" and "hiring" can never fire: the three
    words are Job Description keywords of the table, so when no keyword of
    the table occurs none of them occurs.  Job Description is returned only
    when a Job Description keyword occurs in the lowercased title and
    description, and never for a StackOverflow entry. *)
Theorem classify_content_type_facts (title description source : string) :
  let combined := Str.lower (title +:+ " " +:+ description) in
  let result := classify_content_type title description source in
  result ∈ ["Job Description"; "Interview Question"; "Career Advice";
            "Technical Discussion"; "Company Info"]
  /\ (no_match content_types combined ->
      ~ occurs ["apply"; "position"; "hiring"] combined)
  /\ (result = "Job Description" ->
      source <> "StackOverflow"
      /\ occurs ["hiring"; "position"; "role"; "opportunity"; "apply"; "requirements"]
                combined).
Proof.
  cbv zeta. set (combined := Str.lower (title +:+ " " +:+ description)).
  assert (Hdead : no_match content_types combined ->
                  ~ occurs ["apply"; "position"; "hiring"] combined).
  { intros Hn Hocc.
    apply (Hn "Job Description"
              ["hiring"; "position"; "role"; "opportunity"; "apply"; "requirements"]).
    - pick_member.
    - eapply occurs_subset; [|exact Hocc].
      intros kw Hkw.
      repeat (apply elem_of_cons in Hkw as [->|Hkw]; [pick_member|]).
      by apply elem_of_nil in Hkw. }
  unfold classify_content_type. fold combined.
  destruct (String.eqb source "StackOverflow") eqn:Hso.
  { split; [pick_member|]. split; [done | discriminate]. }
  apply String.eqb_neq in Hso.
  destruct (String.eqb source "Reddit"
            && Str.contains_any ["advice"; "help"; "career"] combined).
  { split; [pick_member|]. split; [done | discriminate]. }
  destruct (first_category content_types combined) as [c|] eqn:Hc.
  - pose proof (first_category_in _ _ _ Hc) as Hin.
    change (content_types.*1)
      with ["Job Description"; "Interview Question"; "Career Advice";
            "Technical Discussion"; "Company Info"] in Hin.
    split; [done|]. split; [done|]. intros ->. split; [done|].
    apply first_category_Some in Hc as (i & kws & Hi & Hocc & _).
    do 5 (destruct i as [|i]; [by injection Hi as [= <-] || discriminate Hi|]).
    done.
  - apply first_category_None in Hc. pose proof (Hdead Hc) as Hno.
    destruct (Str.contains_any ["apply"; "position"; "hiring"] combined) eqn:Ha.
    { by apply contains_any_occurs in Ha. }
    destruct (Str.contains "?" title).
    + split; [pick_member|]. split; [done | discriminate].
    + split; [pick_member|]. split; [done | discriminate].
Qed.

Local Open Scope Q_scope.

Lemma min_ratio_pos (n : nat) (d : positive) (cap : Q) :
  (0 < n)%nat -> 0 < cap -> 0 < Qmin (inject_Z (Z.of_nat n) / inject_Z (Zpos d)) cap.
Proof.
  intros Hn Hcap. apply Q.min_glb_lt; [|done].
  unfold Qlt, Qdiv, Qmult, Qinv, inject_Z. simpl. lia.
Qed.

Lemma relevance_pos found len : (0 < len)%nat -> 0 < relevance found len.
Proof.
  intros Hlen. unfold relevance. apply Q.min_glb_lt; [|done].
  apply Qlt_le_trans with (0 + Qmin (inject_Z (Z.of_nat len) / 1000) (2 / 10)).
  - rewrite Qplus_0_l. by apply (min_ratio_pos len 1000).
  - apply Qplus_le_l. apply Q.min_glb; [apply (ratio_nonneg found 10) | done].
Qed.

Lemma relevance_saturates found len :
  (10 <= found)%nat \/ ((8 <= found)%nat /\ (200 <= len)%nat) ->
  relevance found len == 1.
Proof.
  intros H. unfold relevance. apply Q.min_r.
  assert (Hb : 0 <= Qmin (inject_Z (Z.of_nat len) / 1000) (2 / 10)).
  { apply Q.min_glb; [apply (ratio_nonneg len 1000) | done]. }
  destruct H as [H|[H1 H2]].
  - assert (Ha : 1 <= Qmin (inject_Z (Z.of_nat found) / 10) 1).
    { apply Q.min_glb; [|done].
      unfold Qle, Qdiv, Qmult, Qinv, inject_Z. simpl. lia. }
    apply Qle_trans with (1 + 0); [done|]. by apply Qplus_le_compat.
  - assert (Ha : 8 / 10 <= Qmin (inject_Z (Z.of_nat found) / 10) 1).
    { apply Q.min_glb; [|done].
      unfold Qle, Qdiv, Qmult, Qinv, inject_Z. simpl. lia. }
    assert (Hc : 2 / 10 <= Qmin (inject_Z (Z.of_nat len) / 1000) (2 / 10)).
    { apply Q.min_glb; [|apply Qle_refl].
      unfold Qle, Qdiv, Qmult, Qinv, inject_Z. simpl. lia. }
    apply Qle_trans with (8 / 10 + 2 / 10); [done|]. by apply Qplus_le_compat.
Qed.

(** X25. The relevance score of a text is 0 only for the empty text.  At
    most 19 keywords can be found; the score is 1 as soon as ten keywords
    are found, or eight in a text of 200 characters or more. *)
Theorem relevance_score_extremes text (q : Q) :
  calculate_relevance_score (PStr text) = Ok q ->
  (q == 0 <-> text = EmptyString)
  /\ (found_keywords (Str.lower text) <= 19)%nat
  /\ ((10 <= found_keywords (Str.lower text))%nat
      \/ ((8 <= found_keywords (Str.lower text))%nat /\ (200 <= String.length text)%nat) ->
      q == 1).
Proof.
  intros E. split; [|split; [apply found_keywords_bound|]].
  - destruct text as [|c text].
    + injection E as <-. split; [done | intros _; apply Qeq_refl].
    + rewrite calculate_relevance_score_nonempty in E by done. injection E as <-.
      split; [|done]. intros H0.
      pose proof (relevance_pos (found_keywords (Str.lower (String c text)))
                    (String.length (String c text))) as Hpos.
      rewrite H0 in Hpos. exfalso. apply (Qlt_irrefl 0). apply Hpos. simpl. lia.
  - intros Hsat. destruct (calculate_relevance_score_str text) as (p & Hp & Ep).
    rewrite E in Hp. injection Hp as <-. rewrite Ep. by apply relevance_saturates.
Qed.

End AnnotatorMore.

(** * The ranking of the annotated entries *)

Section Ranking.

Context {A : Type} (score : A -> Q).

Implicit Types (x y : A) (l : list A) (q : Q).

Local Open Scope Q_scope.

Lemma with_score_cons q x l :
  with_score score q (x :: l) =
  (if Qeq_bool (score x) q then [x] else []) ++ with_score score q l.
Proof.
  unfold with_score. rewrite filter_cons.
  destruct (Qeq_bool (score x) q) eqn:H.
  - by rewrite decide_True.
  - by rewrite decide_False by congruence.
Qed.

Lemma insert_by_score_perm x l : insert_by_score score x l ≡ₚ x :: l.
Proof.
  induction l as [|y l IH]; simpl; [done|].
  destruct (Qle_bool (score y) (score x)); [done|].
  rewrite IH. apply Permutation_swap.
Qed.

Lemma sort_by_score_perm l : sort_by_score score l ≡ₚ l.
Proof.
  induction l as [|x l IH]; simpl; [done|].
  by rewrite insert_by_score_perm, IH.
Qed.

Lemma insert_by_score_decreasing x l :
  decreasing score l -> decreasing score (insert_by_score score x l).
Proof.
  induction l as [|y l IH]; simpl; [by split|].
  intros [Hy Hl]. destruct (Qle_bool (score y) (score x)) eqn:Hle.
  - apply Qle_bool_iff in Hle. split; [|by split].
    constructor; [done|]. eapply Forall_impl; [exact Hy|].
    intros z Hz. simpl in Hz. apply Qle_trans with (score y); [exact Hz | exact Hle].
  - split; [|by apply IH].
    rewrite insert_by_score_perm. constructor; [|done].
    apply Qlt_le_weak, Qnot_le_lt. intros H. apply Qle_bool_iff in H. congruence.
Qed.

Lemma sort_by_score_decreasing l : decreasing score (sort_by_score score l).
Proof.
  induction l as [|x l IH]; simpl; [done|]. by apply insert_by_score_decreasing.
Qed.

Lemma insert_by_score_with_score q x l :
  with_score score q (insert_by_score score x l) = with_score score q (x :: l).
Proof.
  induction l as [|y l IH]; simpl; [done|].
  destruct (Qle_bool (score y) (score x)) eqn:Hle; [done|].
  rewrite (with_score_cons q y), IH, !with_score_cons.
  destruct (Qeq_bool (score x) q) eqn:Hx; [|done].
  destruct (Qeq_bool (score y) q) eqn:Hy; [|done].
  exfalso. apply Qeq_bool_iff in Hx, Hy.
  assert (Qle_bool (score y) (score x) = true); [|congruence].
  apply Qle_bool_iff. rewrite Hx, Hy. apply Qle_refl.
Qed.

Lemma sort_by_score_with_score q l :
  with_score score q (sort_by_score score l) = with_score score q l.
Proof.
  induction l as [|x l IH]; simpl; [done|].
  by rewrite insert_by_score_with_score, !with_score_cons, IH.
Qed.

Lemma with_score_self x l : x ∈ l -> x ∈ with_score score (score x) l.
Proof.
  intros H. apply list_elem_of_filter. split; [|done].
  apply Qeq_bool_iff, Qeq_refl.
Qed.

Lemma decreasing_head x l y :
  decreasing score (x :: l) -> y ∈ x :: l -> score y <= score x.
Proof.
  intros [Hall _] [->|Hin]%elem_of_cons; [apply Qle_refl|].
  by eapply Forall_forall in Hall.
Qed.

Lemma decreasing_stable_unique l1 : forall l2,
  decreasing score l1 -> decreasing score l2 ->
  (forall q, with_score score q l1 = with_score score q l2) ->
  l1 = l2.
Proof.
  induction l1 as [|x l1 IH]; intros l2 H1 H2 Hsame.
  - destruct l2 as [|y l2]; [done|].
    pose proof (with_score_self y (y :: l2) (list_elem_of_here _ _)) as Hy.
    rewrite <- Hsame in Hy. by apply elem_of_nil in Hy.
  - destruct l2 as [|y l2].
    { pose proof (with_score_self x (x :: l1) (list_elem_of_here _ _)) as Hx.
      rewrite Hsame in Hx. by apply elem_of_nil in Hx. }
    assert (Hyx : score y <= score x).
    { apply (decreasing_head x l1 y H1).
      pose proof (with_score_self y (y :: l2) (list_elem_of_here _ _)) as Hy.
      rewrite <- Hsame in Hy. by apply list_elem_of_filter in Hy as [_ ?]. }
    assert (Hxy : score x <= score y).
    { apply (decreasing_head y l2 x H2).
      pose proof (with_score_self x (x :: l1) (list_elem_of_here _ _)) as Hx.
      rewrite Hsame in Hx. by apply list_elem_of_filter in Hx as [_ ?]. }
    assert (Heq : score y == score x) by (by apply Qle_antisym).
    pose proof (Hsame (score x)) as Hq. rewrite !with_score_cons in Hq.
    rewrite (proj2 (Qeq_bool_iff (score x) (score x)) (Qeq_refl _)) in Hq.
    rewrite (proj2 (Qeq_bool_iff (score y) (score x)) Heq) in Hq.
    injection Hq as -> _. f_equal.
    apply IH; [by destruct H1 | by destruct H2|].
    intros q. specialize (Hsame q). rewrite !with_score_cons in Hsame.
    by apply app_inv_head in Hsame.
Qed.

(** X26. The ranking of [annotate_data] rearranges the entries
    (nothing is lost or repeated), puts them in decreasing order of
    relevance score, and keeps entries of equal score in the order they
    had.  It is the only arrangement with the last two properties. *)
Theorem sort_by_score_spec l :
  sort_by_score score l ≡ₚ l
  /\ decreasing score (sort_by_score score l)
  /\ (forall q, with_score score q (sort_by_score score l) = with_score score q l)
  /\ (forall l', decreasing score l' ->
                 (forall q, with_score score q l' = with_score score q l) ->
                 l' = sort_by_score score l).
Proof.
  split; [apply sort_by_score_perm|]. split; [apply sort_by_score_decreasing|].
  split; [intros q; apply sort_by_score_with_score|].
  intros l' Hdec Hsame. apply decreasing_stable_unique; [done| |].
  - apply sort_by_score_decreasing.
  - intros q. by rewrite Hsame, sort_by_score_with_score.
Qed.

End Ranking.

(** * Closed instances of the further properties *)

Lemma sample_labelled : Forall labelled [sample_short; sample_long].
Proof. repeat (constructor; [split; vm_compute; exact I|]). constructor. Qed.

Lemma sample_titles_keyed : Forall keyed sample_titles.
Proof. repeat (constructor; [split; vm_compute; exact I|]). constructor. Qed.

Lemma validate_entry_errors_witness :
  validate_entry sample_bad_company = Raise AttributeError.
Proof.
  apply (proj2 (validate_entry_errors sample_bad_company)).
  intros (_ & H & _). vm_compute in H. exact H.
Defined.

Lemma remove_duplicates_errors_witness :
  remove_duplicates [sample_long; sample_bad_company] = Raise AttributeError.
Proof.
  apply (proj2 (remove_duplicates_errors [sample_long; sample_bad_company])).
  apply Exists_cons_tl, Exists_cons_hd.
  intros [_ H]. vm_compute in H. exact H.
Defined.

Lemma remove_duplicates_idempotent_witness :
  remove_duplicates (first_occurrences ∅ sample_titles)
  = Ok (first_occurrences ∅ sample_titles).
Proof.
  apply (proj1 (remove_duplicates_idempotent sample_titles _
                  (remove_duplicates_loop_eq sample_titles sample_titles_keyed ∅ []))).
Defined.

Lemma clean_data_output_witness :
  exists out,
    clean_data Html.unescape [] [sample_short; sample_long] = Ok out
    /\ (length out <= 2)%nat /\ NoDup (key_of <$> out).
Proof.
  destruct (clean_data_total Html.unescape _ sample_labelled) as [out Hout].
  exists out. split; [exact Hout|].
  destruct (clean_data_output Html.unescape _ _ Hout) as (H1 & H2 & _).
  split; [exact H1 | exact H2].
Defined.


Lemma clean_data_again_witness :
  exists out,
    clean_data Html.unescape [] [sample_short; sample_long] = Ok out
    /\ clean_data Html.unescape out [sample_short; sample_long] = Ok out.
Proof.
  destruct (clean_data_total Html.unescape _ sample_labelled) as [out Hout].
  exists out. split; [exact Hout|].
  apply (proj1 (clean_data_again Html.unescape _ _ Hout)).
Defined.

Lemma save_raw_data_schema_witness :
  (save_raw_data sample_collected).2 = length sample_collected.
Proof.
  pose proof (save_raw_data_schema sample_collected) as H.
  destruct (save_raw_data sample_collected) as [stored count].
  exact (proj1 H).
Defined.

Lemma cleaning_stored_entry_witness :
  exists c c' : dict,
    c !! "score" = Some (PInt 0) /\ c' !! "score" = Some (PStr "")
    /\ c' !! "title" = c !! "title".
Proof.
  set (entry := record [("title", "awesome-jobs"); ("company", "octocat");
                        ("description", "A curated list of job boards");
                        ("type", "repository")]).
  assert (Hin : entry ∈ sample_collected) by apply list_elem_of_here.
  assert (S1 : str_field entry "source") by (vm_compute; exact I).
  assert (T1 : str_field entry "type") by (vm_compute; exact I).
  assert (S2 : str_field (normalized_entry (all_fields sample_collected) entry) "source")
    by (vm_compute; exact I).
  assert (T2 : str_field (normalized_entry (all_fields sample_collected) entry) "type")
    by (vm_compute; exact I).
  destruct (clean_entry_total Html.unescape _ S1 T1) as [c Hc].
  destruct (clean_entry_total Html.unescape _ S2 T2) as [c' Hc'].
  destruct (cleaning_stored_entry Html.unescape sample_collected entry c c' Hin Hc Hc')
    as (Ht & _ & _ & _ & _ & Hscore).
  assert (Hnone : entry !! "score" = None) by (vm_compute; reflexivity).
  assert (Hfield : "score" ∈ all_fields sample_collected).
  { apply elem_of_union_list. eexists. split.
    - apply list_elem_of_fmap. eexists. split; [reflexivity|].
      apply list_elem_of_further, list_elem_of_here.
    - apply elem_of_dom. eexists. apply lookup_insert_eq. }
  destruct (Hscore Hnone) as [H0 H1].
  exists c, c'. split; [exact H0|]. split; [exact (H1 Hfield) | exact Ht].
Defined.

Lemma sample_countable : Forall countable_entry [sample_short; sample_long].
Proof.
  repeat (constructor;
          [repeat split; try (vm_compute; reflexivity);
           eexists; vm_compute; reflexivity|]).
  constructor.
Qed.

Lemma get_data_statistics_counts_witness :
  exists st, get_data_statistics [sample_short; sample_long] = Ok (Some st)
             /\ total_entries st = 2%nat /\ sum_list (sources st).*2 = 2%nat.
Proof.
  destruct (get_data_statistics_total [sample_short; sample_long]) as [st Hst];
    [discriminate | apply sample_countable|].
  exists st. split; [exact Hst|].
  destruct (get_data_statistics_counts _ _ Hst) as (H1 & _ & _ & H2 & _).
  split; [exact H1 | exact H2].
Defined.

Lemma get_data_statistics_errors_witness :
  get_data_statistics [sample_long; sample_no_description] = Raise TypeError.
Proof.
  apply (proj2 (proj2 (get_data_statistics_errors [sample_long; sample_no_description]))).
  apply Exists_cons_tl, Exists_cons_hd.
  intros (_ & _ & _ & [n H]). vm_compute in H. discriminate H.
Defined.

Lemma cleaned_data_statistics_witness :
  exists out,
    clean_data Html.unescape [] [sample_short; sample_long] = Ok out
    /\ (out = [] -> get_data_statistics out = Ok None).
Proof.
  destruct (clean_data_total Html.unescape _ sample_labelled) as [out Hout].
  exists out. split; [exact Hout|].
  apply (proj1 (cleaned_data_statistics Html.unescape _ _ Hout)).
Defined.

Lemma extract_skills_spec_witness :
  exists skills : gset string,
    extract_skills (PStr "Python on AWS") = Ok skills /\ (size skills <= 10)%nat.
Proof.
  destruct (extract_skills_spec "Python on AWS") as (skills & H & _ & _ & Hsize).
  exists skills. split; [exact H | exact Hsize].
Defined.

Lemma extract_skills_monotone_witness :
  exists skills skills' : gset string,
    extract_skills (PStr "AWS") = Ok skills
    /\ extract_skills (PStr "Python on AWS") = Ok skills'
    /\ skills ⊆ skills'.
Proof.
  eexists. eexists. split; [apply extract_skills_str|].
  split; [apply extract_skills_str|].
  eapply (extract_skills_monotone "AWS" "Python on AWS").
  - vm_compute. reflexivity.
  - apply extract_skills_str.
  - apply extract_skills_str.
Defined.

Lemma overlapping_skill_triggers_witness :
  exists skills : gset string,
    extract_skills (PStr "Plain HTML pages") = Ok skills
    /\ "Machine Learning" ∈ skills.
Proof.
  eexists. split; [apply extract_skills_str|].
  apply (proj1 (proj2 (overlapping_skill_triggers "Plain HTML pages" _
                         (extract_skills_str _)))).
  vm_compute. reflexivity.
Defined.

Lemma relevance_score_monotone_witness :
  exists q q' : Q,
    calculate_relevance_score (PStr "code") = Ok q
    /\ calculate_relevance_score (PStr "clean code") = Ok q'
    /\ (q <= q')%Q.
Proof.
  eexists. eexists.
  split; [by apply calculate_relevance_score_nonempty|].
  split; [by apply calculate_relevance_score_nonempty|].
  eapply (proj2 (relevance_score_monotone "code" "clean code" _ _ _ _ _)).
  Unshelve.
  - vm_compute. reflexivity.
  - by apply calculate_relevance_score_nonempty.
  - by apply calculate_relevance_score_nonempty.
Defined.

Lemma annotator_ignores_case_witness :
  extract_skills (PStr "Senior DevOps (AWS)") = extract_skills (PStr "senior devops (aws)")
  /\ calculate_relevance_score (PStr "Senior DevOps (AWS)")
     = calculate_relevance_score (PStr "senior devops (aws)").
Proof.
  assert (Hlow : Str.lower "Senior DevOps (AWS)" = Str.lower "senior devops (aws)")
    by (vm_compute; reflexivity).
  destruct (annotator_ignores_case "Senior DevOps (AWS)" "senior devops (aws)" Hlow)
    as (Hskills & _ & Hscore & _).
  split; [exact Hskills | apply Hscore; reflexivity].
Defined.

Lemma classify_experience_level_range_witness :
  exists level : string,
    classify_experience_level (PStr "Engineering Manager") = Ok level
    /\ level ∈ ["Entry Level"; "Mid Level"; "Senior Level"; "Management"; "Not Specified"].
Proof.
  assert (H : classify_experience_level (PStr "Engineering Manager") = Ok "Management")
    by (vm_compute; reflexivity).
  exists "Management"%string. split; [exact H|].
  apply (proj1 (classify_experience_level_range _ _ H)).
Defined.

Lemma experience_keywords_inside_words_witness :
  classify_experience_level (PStr "Senior engineer, international team, 10 years")
  = Ok "Entry Level".
Proof.
  apply (proj1 (experience_keywords_inside_words
                  "Senior engineer, international team, 10 years")).
  vm_compute. reflexivity.
Defined.

Lemma estimate_company_size_spec_witness :
  estimate_company_size "Seed Labs" "a global enterprise" = "Startup".
Proof.
  apply (proj1 (proj2 (estimate_company_size_spec "Seed Labs" "a global enterprise"))).
  left. vm_compute. reflexivity.
Defined.

Lemma classify_content_type_facts_witness :
  classify_content_type "Rust" "memory model" "HackerNews"
  ∈ ["Job Description"; "Interview Question"; "Career Advice";
     "Technical Discussion"; "Company Info"].
Proof.
  apply (proj1 (classify_content_type_facts "Rust" "memory model" "HackerNews")).
Defined.

Lemma relevance_score_extremes_witness :
  exists q : Q,
    calculate_relevance_score (PStr "code") = Ok q
    /\ (found_keywords (Str.lower "code") <= 19)%nat.
Proof.
  eexists. split; [by apply calculate_relevance_score_nonempty|].
  apply (proj1 (proj2 (relevance_score_extremes "code" _
                         (calculate_relevance_score_nonempty "code" ltac:(discriminate))))).
Defined.

Lemma sort_by_score_spec_witness :
  sort_by_score parity_score [1; 2; 3; 4]%nat ≡ₚ [1; 2; 3; 4]%nat.
Proof.
  apply (proj1 (sort_by_score_spec parity_score [1; 2; 3; 4]%nat)).
Defined.
